(** * Embedded-state extraction and media-reference resolution of the
      CultFit MindLive crawler (cultfit_crawler.py)

    A shallow embedding of the extraction core of [CultFitCrawler]:
    [sanitize], [_extract_preloaded_state], [_parse_curefit_url],
    [_build_local_path], [_extract_media_from_item],
    [_collect_media_recursive], [_extract_from_pack_detail],
    [discover_sections] and [crawl], and of the loop of [download_media]
    that selects what to download.

    Conventions.
    - A Python [str] is a Rocq [string]; the model is exact on ASCII text
      (case mapping and white space of characters above 127 are left as
      they are, and the zero-width joiner that [sanitize] deletes has no
      counterpart).
    - A decoded JSON value is a [json]; a Python [dict] is an association
      list in insertion order, read at the first binding of a key.
    - A raised exception is a [Raise]; the one attribute the extraction code
      mutates, [_warned_login_required], is threaded by the monad [M].
    - What the code obtains from other packages (json, bs4, urllib, os.path,
      requests, the interpreter's recursion limit) is the interface [PyLib];
      [py] further down is a reference instance used to run examples. *)

From Stdlib Require Import String Ascii List ZArith Bool Arith Lia.
Import ListNotations.
Open Scope string_scope.

(** ** Python strings *)

Module Str.

(** [s[n:]] *)
Fixpoint skip (n : nat) (s : string) : string :=
  match n, s with
  | O, _ => s
  | S n', String _ s' => skip n' s'
  | S _, EmptyString => EmptyString
  end.

(** [s[:n]] *)
Fixpoint take (n : nat) (s : string) : string :=
  match n, s with
  | S n', String c s' => String c (take n' s')
  | _, _ => EmptyString
  end.

(** [s.startswith(p)] *)
Definition startswith (s p : string) : bool := prefix p s.

(** [s.endswith(p)] *)
Definition endswith (s p : string) : bool :=
  (String.length p <=? String.length s)%nat && (skip (String.length s - String.length p) s =? p).

(** [s.find(sub)], [None] for -1 *)
Fixpoint find (sub s : string) : option nat :=
  if prefix sub s then Some O
  else match s with
       | EmptyString => None
       | String _ s' => option_map S (find sub s')
       end.

(** [sub in s] *)
Definition contains (sub s : string) : bool :=
  match find sub s with Some _ => true | None => false end.

(** [s.split(sep, 1)] when [sep in s]: the text before and after the first
    occurrence. *)
Definition split_once (sep s : string) : option (string * string) :=
  match find sep s with
  | Some i => Some (take i s, skip (i + String.length sep) s)
  | None => None
  end.

(** [s.replace(old, new)] and [re.sub(old, new, s)] for a literal, non-empty
    [old]: leftmost non-overlapping occurrences. [pending] counts the
    characters of a matched occurrence still to be dropped. *)
Fixpoint replace_from (pending : nat) (old new s : string) : string :=
  match s with
  | EmptyString => EmptyString
  | String c s' =>
      match pending with
      | S p => replace_from p old new s'
      | O => if prefix old s
             then new ++ replace_from (String.length old - 1) old new s'
             else String c (replace_from O old new s')
      end
  end.

Definition replace (old new s : string) : string := replace_from O old new s.

Definition map (f : ascii -> ascii) : string -> string :=
  fix go s := match s with
              | EmptyString => EmptyString
              | String c s' => String (f c) (go s')
              end.

Definition is_upper (c : ascii) : bool :=
  let n := nat_of_ascii c in (65 <=? n)%nat && (n <=? 90)%nat.

Definition is_lower (c : ascii) : bool :=
  let n := nat_of_ascii c in (97 <=? n)%nat && (n <=? 122)%nat.

Definition lower_char (c : ascii) : ascii :=
  if is_upper c then ascii_of_nat (nat_of_ascii c + 32) else c.

Definition upper_char (c : ascii) : ascii :=
  if is_lower c then ascii_of_nat (nat_of_ascii c - 32) else c.

(** [s.lower()] *)
Definition lower : string -> string := map lower_char.

(** [str.isspace] of one character, which is also what the pattern [\s]
    accepts: tab to carriage return, the separators 28 to 31, and space. *)
Definition is_space (c : ascii) : bool :=
  let n := nat_of_ascii c in
  ((9 <=? n)%nat && (n <=? 13)%nat) || ((28 <=? n)%nat && (n <=? 32)%nat).

Fixpoint lstrip (p : ascii -> bool) (s : string) : string :=
  match s with
  | String c s' => if p c then lstrip p s' else s
  | EmptyString => EmptyString
  end.

(** Right strip: a character is kept when something kept follows it. *)
Fixpoint rstrip (p : ascii -> bool) (s : string) : string :=
  match s with
  | EmptyString => EmptyString
  | String c s' =>
      match rstrip p s' with
      | EmptyString => if p c then EmptyString else String c EmptyString
      | r => String c r
      end
  end.

(** [s.strip()] and [s.strip(chars)] by the predicate of the stripped set *)
Definition strip (p : ascii -> bool) (s : string) : string :=
  rstrip p (lstrip p s).

(** [s.split(sep)] for a non-empty separator *)
Fixpoint split_from (pending : nat) (sep cur s : string) : list string :=
  match s with
  | EmptyString => [cur]
  | String c s' =>
      match pending with
      | S p => split_from p sep cur s'
      | O => if prefix sep s
             then cur :: split_from (String.length sep - 1) sep EmptyString s'
             else split_from O sep (cur ++ String c EmptyString) s'
      end
  end.

Definition split (sep s : string) : list string := split_from O sep EmptyString s.

(** [s.title()]: a letter is capitalised when no letter precedes it and put
    in lower case otherwise. *)
Fixpoint title_from (prev_cased : bool) (s : string) : string :=
  match s with
  | EmptyString => EmptyString
  | String c s' =>
      let cased := is_upper c || is_lower c in
      String (if cased then if prev_cased then lower_char c else upper_char c else c)
             (title_from cased s')
  end.

Definition title (s : string) : string := title_from false s.

(** [str(n)] for a non-negative integer *)
Fixpoint digits (fuel n : nat) (acc : string) : string :=
  match fuel with
  | O => acc
  | S f =>
      let acc' := String (ascii_of_nat (48 + n mod 10)) acc in
      if (n <? 10)%nat then acc' else digits f (n / 10) acc'
  end.

Definition of_nat (n : nat) : string := digits (S n) n EmptyString.

End Str.

(** ** Python values *)

(** What [json.loads] produces and the extraction code walks. A float is kept
    as a decimal mantissa and exponent: only its truth value is ever used. *)
#[warnings="-register-all"]
Inductive json : Type :=
| JNull
| JBool (b : bool)
| JInt (z : Z)
| JFloat (m e : Z)
| JStr (s : string)
| JList (l : list json)
| JDict (d : list (string * json)).

(** A Python [dict] with string keys, in insertion order. *)
Definition dict : Type := list (string * json).

(** Truth value of a value, as [if v], [v or w] and [not v] read it. *)
Definition truthy (v : json) : bool :=
  match v with
  | JNull => false
  | JBool b => b
  | JInt z => negb (z =? 0)%Z
  | JFloat m _ => negb (m =? 0)%Z
  | JStr s => negb (s =? "")
  | JList l => match l with [] => false | _ => true end
  | JDict d => match d with [] => false | _ => true end
  end.

(** [a or b] *)
Definition py_or (a b : json) : json := if truthy a then a else b.

(** [k in d] and [d[k]] for a dict. *)
Fixpoint lookup (k : string) (d : dict) : option json :=
  match d with
  | [] => None
  | (k', v) :: d' => if k' =? k then Some v else lookup k d'
  end.

Definition has_key (k : string) (d : dict) : bool :=
  match lookup k d with Some _ => true | None => false end.

(** [d.get(k, default)] and [d.get(k)] *)
Definition get_default (k : string) (default : json) (d : dict) : json :=
  match lookup k d with Some v => v | None => default end.

Definition get (k : string) (d : dict) : json := get_default k JNull d.

(** [list(d.values())] *)
Definition values (d : dict) : list json := List.map snd d.

(** ** Exceptions *)

Inductive exn : Type :=
| AttributeError
| TypeError
| KeyError
| ValueError
| JSONDecodeError
| RecursionError
| RequestException.

Inductive result (A : Type) : Type :=
| Ok (a : A)
| Raise (e : exn).

Arguments Ok {A} a.
Arguments Raise {A} e.

Definition rbind {A B : Type} (r : result A) (k : A -> result B) : result B :=
  match r with
  | Ok a => k a
  | Raise e => Raise e
  end.

Declare Scope result_scope.
Delimit Scope result_scope with result.
Notation "x <- r ;; k" := (rbind r (fun x => k))
  (at level 61, r at next level, right associativity) : result_scope.
Notation "' p <- r ;; k" := (rbind r (fun x => let p := x in k))
  (at level 61, p pattern, r at next level, right associativity) : result_scope.

(** ** The crawler's mutable flag

    [M A] is a computation that reads and writes [self._warned_login_required]
    and returns an [A] or raises; the flag written before a raise stays
    written. *)
Definition M (A : Type) : Type := bool -> result A * bool.

Definition ret {A : Type} (a : A) : M A := fun w => (Ok a, w).

Definition bind {A B : Type} (m : M A) (k : A -> M B) : M B :=
  fun w => match m w with
           | (Ok a, w') => k a w'
           | (Raise e, w') => (Raise e, w')
           end.

(** A computation that does not touch the flag. *)
Definition lift {A : Type} (r : result A) : M A := fun w => (r, w).

(** [try: body  except Exception: return default] *)
Definition catch {A : Type} (body : M A) (default : A) : bool -> A * bool :=
  fun w => match body w with
           | (Ok a, w') => (a, w')
           | (Raise _, w') => (default, w')
           end.

Declare Scope crawler_scope.
Delimit Scope crawler_scope with crawler.
Notation "x <~ m ;; k" := (bind m (fun x => k))
  (at level 61, m at next level, right associativity) : crawler_scope.

(** Method calls on a value whose type the code does not check first. *)

(** [v.get(k, default)]: only a dict has the method. *)
Definition py_get (v : json) (k : string) (default : json) : result json :=
  match v with
  | JDict d => Ok (get_default k default d)
  | _ => Raise AttributeError
  end.

(** [for x in v]: the elements of a list, the keys of a dict, the characters
    of a string; anything else is not iterable. *)
Definition py_iter (v : json) : result (list json) :=
  match v with
  | JList l => Ok l
  | JDict d => Ok (List.map (fun kv => JStr (fst kv)) d)
  | JStr s => Ok (List.map (fun c => JStr (String c EmptyString)) (list_ascii_of_string s))
  | _ => Raise TypeError
  end.

(** [k in v] *)
Definition py_contains (k : string) (v : json) : result bool :=
  match v with
  | JDict d => Ok (has_key k d)
  | JList l => Ok (existsb (fun x => match x with JStr s => s =? k | _ => false end) l)
  | JStr s => Ok (Str.contains k s)
  | _ => Raise TypeError
  end.

(** [v[k]] for a string [k] *)
Definition py_getitem (v : json) (k : string) : result json :=
  match v with
  | JDict d => match lookup k d with Some x => Ok x | None => Raise KeyError end
  | _ => Raise TypeError
  end.

(** ** What comes from other packages *)

Class PyLib : Type := {
  (** [json.loads(s)]; [Raise JSONDecodeError] on malformed text, another
      exception (a [RecursionError] on very deep text) otherwise. *)
  json_loads : string -> result json;
  (** [[getattr(t, "string", None) for t in BeautifulSoup(html,
      "html.parser").find_all("script")]] *)
  script_strings : string -> list (option string);
  (** [[a.get("href") or "" for a in BeautifulSoup(html,
      "html.parser").select("a[href*='/live/mindfulness/']")]] *)
  select_hrefs : string -> list string;
  (** [urllib.parse.parse_qs(q)]: every key with its values, of which there
      is at least one, in order of first appearance. *)
  parse_qs : string -> list (string * (string * list string));
  (** [urllib.parse.unquote(s)] *)
  unquote : string -> string;
  (** [urllib.parse.urljoin(base, url)] *)
  urljoin : string -> string -> result string;
  (** [urllib.parse.urlparse(url).path] *)
  urlparse_path : string -> result string;
  (** [os.path.splitext(p)[1]] *)
  splitext_ext : string -> string;
  (** [r = self.session.get(url, timeout=(10, 20)); r.raise_for_status();
      r.text], [None] when either call raises. *)
  http_get : string -> option string;
  (** How many nested frames of [_collect_media_recursive] the interpreter
      admits where the code calls it (what is left of
      [sys.getrecursionlimit()]). *)
  recursion_limit : nat
}.

(** ** Helper / utility functions *)

Definition illegal_fs_char (c : ascii) : bool :=
  existsb (Ascii.eqb c) ["<"; ">"; ":"; "\"; "/"; "|"; "?"; "*"]%char.

Definition is_underscore (c : ascii) : bool := Ascii.eqb c "_".

(** [re.sub(r"\s+", "_", text)] and [re.sub(r"_+", "_", text)]: every maximal
    run of characters of the class becomes one underscore. *)
Fixpoint sub_runs (class : ascii -> bool) (in_run : bool) (text : string) : string :=
  match text with
  | EmptyString => EmptyString
  | String c text' =>
      if class c
      then if in_run then sub_runs class true text'
           else String "_" (sub_runs class true text')
      else String c (sub_runs class false text')
  end.

(** [sanitize(text, max_len)]: a filesystem-safe slug. *)
Definition sanitize_len (text : string) (max_len : nat) : string :=
  let text := Str.strip Str.is_space text in
  let text := Str.map (fun c => if illegal_fs_char c then "_"%char else c) text in
  let text := sub_runs Str.is_space false text in
  let text := sub_runs is_underscore false text in
  let slug := Str.take max_len
                (Str.strip (fun c => Ascii.eqb c "." || is_underscore c) text) in
  if slug =? "" then "untitled" else slug.

Definition sanitize (text : string) : string := sanitize_len text 80.

(** [sanitize(v)] for a value that need not be a string: the first thing
    [sanitize] does is [text.strip()]. *)
Definition sanitize_value (v : json) : result string :=
  match v with
  | JStr s => Ok (sanitize s)
  | _ => Raise AttributeError
  end.

(** ** Core crawler class *)

Definition BASE_URL : string := "https://www.cult.fit".
Definition MAIN_MINDLIVE_URL : string := "https://www.cult.fit/athome/MindLive".
(** [self.out_root], [Path("media")] as [main] builds the crawler. *)
Definition out_root : string := "media".

(** One media reference, the dict the extraction appends to [media_items]. *)
Record entry : Type := mk_entry {
  section : string;
  pack : json;
  pack_description : json;
  session_title : json;
  media_type : string;
  cdn_url : string;
  local_path : string
}.

(** What [_parse_curefit_url] returns: a dict with some of five keys. *)
Record url_info : Type := mk_info {
  info_media_url : option string;
  info_media_type : option string;
  info_session_title : option string;
  info_pack_id : option string;
  info_content_id : option string
}.

Definition empty_info : url_info := mk_info None None None None None.

Section Crawler.

Context {L : PyLib}.

Local Open Scope result_scope.

(** *** Extraction helpers *)

Definition state_marker : string := "__PRELOADED_STATE__".
Definition state_target : string := "window.__PRELOADED_STATE__".

(** How many characters of white space [s] starts with. *)
Fixpoint spaces (s : string) : nat :=
  match s with
  | String c s' => if Str.is_space c then S (spaces s') else O
  | EmptyString => O
  end.

(** The pattern [window\.__PRELOADED_STATE__\s*=\s*{] tried at the start of
    [s]: the offset of the opening brace, which is [end() - 1]. *)
Definition match_assignment (s : string) : option nat :=
  if prefix state_target s then
    let n := String.length state_target in
    let w1 := spaces (Str.skip n s) in
    match Str.skip (n + w1) s with
    | String "=" r =>
        let w2 := spaces r in
        match Str.skip w2 r with
        | String "{" _ => Some (n + w1 + 1 + w2)
        | _ => None
        end
    | _ => None
    end
  else None.

(** [re.search] of that pattern: the leftmost position where it matches. *)
Fixpoint search_assignment (stext : string) : option nat :=
  match match_assignment stext with
  | Some i => Some i
  | None =>
      match stext with
      | EmptyString => None
      | String _ s' => option_map S (search_assignment s')
      end
  end.

(** The loop [for pos in range(idx, len(stext))]: [s] is [stext[pos:]], the
    result is [end_idx]. *)
Fixpoint scan_braces (s : string) (brace_count : Z) (pos : nat) : option nat :=
  match s with
  | EmptyString => None
  | String c s' =>
      if Ascii.eqb c "{" then scan_braces s' (brace_count + 1)%Z (S pos)
      else if Ascii.eqb c "}" then
        let brace_count := (brace_count - 1)%Z in
        if (brace_count =? 0)%Z then Some (S pos)
        else scan_braces s' brace_count (S pos)
      else scan_braces s' brace_count (S pos)
  end.

(** The loop over the script tags of [_extract_preloaded_state]. *)
Fixpoint extract_from_scripts (scripts : list (option string)) : result (option json) :=
  match scripts with
  | [] => Ok None
  | script :: rest =>
      match script with
      | None => extract_from_scripts rest
      | Some stext =>
          if (stext =? "") || negb (Str.contains state_marker stext)
          then extract_from_scripts rest
          else
            match search_assignment stext with
            | None => extract_from_scripts rest
            | Some idx =>
                match scan_braces (Str.skip idx stext) 0%Z idx with
                | None => extract_from_scripts rest
                | Some end_idx =>
                    let json_str := Str.take (end_idx - idx) (Str.skip idx stext) in
                    let json_str := Str.replace "undefined" "null" json_str in
                    match json_loads json_str with
                    | Ok v => Ok (Some v)
                    | Raise JSONDecodeError => extract_from_scripts rest
                    | Raise e => Raise e
                    end
                end
            end
      end
  end.

Definition extract_preloaded_state (html : string) : result (option json) :=
  extract_from_scripts (script_strings html).

(** The values [parse_qs] holds for a key. *)
Fixpoint param (k : string) (params : list (string * (string * list string)))
  : option (string * list string) :=
  match params with
  | [] => None
  | (k', vs) :: rest => if k' =? k then Some vs else param k rest
  end.

(** [params[k][0]] when [k in params] *)
Definition param0 (k : string) (params : list (string * (string * list string)))
  : option string :=
  option_map fst (param k params).

(** [query] in [_, query = cure_url.split("?", 1) if "?" in cure_url else
    (cure_url, "")] *)
Definition query_of (cure_url : string) : string :=
  match Str.split_once "?" cure_url with
  | Some (_, query) => query
  | None => ""
  end.

(** [_parse_curefit_url(cure_url)] *)
Definition parse_curefit_url (cure_url : json) : url_info :=
  match cure_url with
  | JStr cure_url =>
      if Str.startswith cure_url "curefit://" then
        let params := parse_qs (query_of cure_url) in
        let '(media_url, media_type) :=
          match param0 "absoluteAudioUrl" params with
          | Some v => (Some (unquote v), Some "audio")
          | None =>
              match param0 "absoluteVideoUrl" params with
              | Some v => (Some (unquote v), Some "video")
              | None => (None, None)
              end
          end in
        mk_info media_url media_type
                (param0 "title" params)
                (param0 "packId" params)
                (param0 "contentId" params)
      else empty_info
  | _ => empty_info
  end.

(** [_build_local_path(section, pack, session_title, url)], as the string
    that every caller takes of the path. The three slugs hold no slash and
    are no dot names, so joining them under [out_root] only puts slashes
    between them. *)
Definition build_local_path (section : string) (pack session_title : json)
    (url : string) : result string :=
  path <- urlparse_path url ;;
  let ext := splitext_ext path in
  let ext := if ext =? "" then
               if Str.endswith url "audio" then ".mp3" else ".mp4"
             else ext in
  slug <- sanitize_value (py_or session_title (JStr "session")) ;;
  let fname := slug ++ ext in
  let section_dir := sanitize section in
  pack_dir <- sanitize_value pack ;;
  Ok (out_root ++ "/" ++ section_dir ++ "/" ++ pack_dir ++ "/" ++ fname).

(** ["audio" if media_url.endswith(".mp3") else "video"] *)
Definition media_type_of (media_url : string) : string :=
  if Str.endswith media_url ".mp3" then "audio" else "video".

(** [collected.extend(f(x)) for x in xs], stopping at the first raise. *)
Fixpoint extend_each {A : Type} (f : A -> result (list entry)) (xs : list A)
    (collected : list entry) : result (list entry) :=
  match xs with
  | [] => Ok collected
  | x :: xs' => found <- f x ;; extend_each f xs' (collected ++ found)%list
  end.

(** The loop [for k in ("downloadUrl", "absoluteUrl", "URL")]: the value
    [node[url_key]] of the first key that is present with a string. *)
Fixpoint direct_url (keys : list string) (node : dict) : option string :=
  match keys with
  | [] => None
  | k :: keys' =>
      match lookup k node with
      | Some (JStr media_url) => Some media_url
      | _ => direct_url keys' node
      end
  end.

Definition url_keys : list string := ["downloadUrl"; "absoluteUrl"; "URL"].

(** What a mapping node itself contributes to [collected]. *)
Definition node_entry (node : dict) (section : string)
    (pack_title pack_desc inherited_title : json) : result (list entry) :=
  match direct_url url_keys node with
  | Some media_url =>
      let media_type := media_type_of media_url in
      let session_title :=
        py_or (get "title" node)
          (py_or (get "subTitle" node) (py_or inherited_title (JStr "Session"))) in
      local_path <- build_local_path section pack_title session_title media_url ;;
      Ok [mk_entry section pack_title pack_desc session_title media_type
                   media_url local_path]
  | None => Ok []
  end.

(** [_collect_media_recursive(node, section, pack_title, pack_desc,
    inherited_title)]. Each call takes a frame of the interpreter's stack;
    [frames] is how many are left, and with none left the call raises
    [RecursionError]. *)
Fixpoint collect_media_recursive (frames : nat) (node : json) (section : string)
    (pack_title pack_desc inherited_title : json) {struct frames}
  : result (list entry) :=
  match frames with
  | O => Raise RecursionError
  | S frames' =>
      match node with
      | JDict d =>
          collected <- node_entry d section pack_title pack_desc inherited_title ;;
          extend_each
            (fun v => collect_media_recursive frames' v section pack_title pack_desc
                        (py_or inherited_title (get "title" d)))
            (values d) collected
      | JList l =>
          extend_each
            (fun item => collect_media_recursive frames' item section pack_title
                           pack_desc inherited_title)
            l []
      | _ => Ok []
      end
  end.

Local Open Scope crawler_scope.

(** [self._warned_login_required], and the assignment of [True] to it (the
    warning printed with it is not modelled). *)
Definition warned : M bool := fun w => (Ok w, w).
Definition warn_login : M unit := fun _ => (Ok tt, true).

(** [isinstance(v, dict) and v.get("actionType") == "SHOW_LOGIN_MODAL"] *)
Definition is_login_modal (v : json) : bool :=
  match v with
  | JDict d => match get "actionType" d with
               | JStr s => s =? "SHOW_LOGIN_MODAL"
               | _ => false
               end
  | _ => false
  end.

(** [d.get("downloadUrl") or d.get("absoluteUrl") or d.get("URL")] *)
Definition url_field (d : dict) : json :=
  py_or (py_or (get "downloadUrl" d) (get "absoluteUrl" d)) (get "URL" d).

(** [info.get("session_title", default)] *)
Definition info_title (info : url_info) (default : json) : json :=
  match info_session_title info with
  | Some t => JStr t
  | None => default
  end.

(** [info.get("media_type", "audio")] *)
Definition info_type (info : url_info) : string :=
  match info_media_type info with
  | Some t => t
  | None => "audio"
  end.

(** *** Pack-detail extraction *)

(** The body of the loop [for itm in widget.get("items", [])] for an [itm]
    that is a dict. *)
Definition detail_item (itm : dict) (section : string) (pack_title pack_desc : json)
    (media_items : list entry) : M (list entry) :=
  let direct :=
    match url_field itm with
    | JStr url =>
        let session_title := get_default "title" (JStr "Session") itm in
        let media_type := media_type_of url in
        local_path <~ lift (build_local_path section pack_title session_title url) ;;
        ret (media_items ++ [mk_entry section pack_title pack_desc session_title
                                      media_type url local_path])%list
    | _ =>
        match get "content" itm with
        | JList _ | JDict _ =>
            found <~ lift (collect_media_recursive recursion_limit (get "content" itm)
                             section pack_title pack_desc (get "title" itm)) ;;
            ret (media_items ++ found)%list
        | _ => ret media_items
        end
    end in
  match lookup "playAction" itm with
  | Some (JStr play_action) =>
      let info := parse_curefit_url (JStr play_action) in
      match info_media_url info with
      | Some media_url =>
          let session_title :=
            info_title info (get_default "title" (JStr "Session") itm) in
          local_path <~ lift (build_local_path section pack_title session_title
                                media_url) ;;
          ret (media_items ++ [mk_entry section pack_title pack_desc session_title
                                        (info_type info) media_url local_path])%list
      | None => ret media_items
      end
  | _ =>
      w <~ warned ;;
      if is_login_modal (get "playAction" itm) && negb w
      then _ <~ warn_login ;; ret media_items
      else direct
  end.

Fixpoint detail_items (itms : list json) (section : string)
    (pack_title pack_desc : json) (media_items : list entry) : M (list entry) :=
  match itms with
  | [] => ret media_items
  | JDict itm :: rest =>
      media_items <~ detail_item itm section pack_title pack_desc media_items ;;
      detail_items rest section pack_title pack_desc media_items
  | _ :: rest => detail_items rest section pack_title pack_desc media_items
  end.

(** The loop [for widget in pack_dict.get("productWidgets", [])] *)
Fixpoint detail_widgets (widgets : list json) (section : string)
    (pack_title pack_desc : json) (media_items : list entry) : M (list entry) :=
  match widgets with
  | [] => ret media_items
  | JDict widget :: rest =>
      itms <~ lift (py_iter (get_default "items" (JList []) widget)) ;;
      media_items <~ detail_items itms section pack_title pack_desc media_items ;;
      detail_widgets rest section pack_title pack_desc media_items
  | _ :: rest => detail_widgets rest section pack_title pack_desc media_items
  end.

(** The first value that is a dict: the loop over
    [state["cultDIYPack"].values()]. *)
Fixpoint first_dict (vals : list json) : option dict :=
  match vals with
  | [] => None
  | JDict d :: _ => Some d
  | _ :: rest => first_dict rest
  end.

(** The [try] block of [_extract_from_pack_detail]. *)
Definition pack_detail_body (pack_url section : string) (pack_title pack_desc : json)
  : M (list entry) :=
  match http_get pack_url with
  | None => lift (Raise RequestException)
  | Some text =>
      state <~ lift (extract_preloaded_state text) ;;
      match state with
      | None => ret []
      | Some state =>
          if negb (truthy state) then ret [] else
          present <~ lift (py_contains "cultDIYPack" state) ;;
          packs <~ (if present then lift (py_getitem state "cultDIYPack")
                    else ret JNull) ;;
          let pack_dict := match packs with
                           | JDict by_id => first_dict (values by_id)
                           | _ => None
                           end in
          match pack_dict with
          | None | Some [] => ret []
          | Some pack_dict =>
              widgets <~ lift (py_iter (get_default "productWidgets" (JList [])
                                          pack_dict)) ;;
              media_items <~ detail_widgets widgets section pack_title pack_desc [] ;;
              found <~ lift (collect_media_recursive recursion_limit
                               (get "content" pack_dict) section pack_title
                               pack_desc pack_title) ;;
              ret (media_items ++ found)%list
          end
      end
  end.

(** [_extract_from_pack_detail(pack_url, section, pack_title, pack_desc)]:
    whatever the body raises, the result is the empty list. *)
Definition extract_from_pack_detail (pack_url section : string)
    (pack_title pack_desc : json) : bool -> list entry * bool :=
  catch (pack_detail_body pack_url section pack_title pack_desc) [].

(** *** Media of one pack item *)

(** A source to decode later: the action reference and its default title. *)
Definition source : Type := (json * json)%type.

(** [f"Session {idx+1}"] *)
Definition session_n (idx : nat) : json := JStr ("Session " ++ Str.of_nat (idx + 1)).

(** The loop [for idx, content in enumerate(content_field)] over a list
    [content_field], from index [idx] on. *)
Fixpoint scan_content_list (idx : nat) (contents : list json) (section : string)
    (pack_title pack_desc : json) (media_items : list entry) (sources : list source)
  : result (list entry * list source) :=
  match contents with
  | [] => Ok (media_items, sources)
  | JDict content :: rest =>
      if has_key "playAction" content then
        scan_content_list (S idx) rest section pack_title pack_desc media_items
          (sources ++ [(get "playAction" content,
                        get_default "title" (session_n idx) content)])%list
      else if truthy (url_field content) then
        match url_field content with
        | JStr media_url =>
            let media_type := media_type_of media_url in
            let session_title := get_default "title" (session_n idx) content in
            local_path <- build_local_path section pack_title session_title media_url ;;
            scan_content_list (S idx) rest section pack_title pack_desc
              (media_items ++ [mk_entry section pack_title pack_desc session_title
                                        media_type media_url local_path])%list
              sources
        | _ =>
            (* [media_url.endswith] on a value that is no string *)
            Raise AttributeError
        end
      else scan_content_list (S idx) rest section pack_title pack_desc media_items sources
  | _ :: rest =>
      scan_content_list (S idx) rest section pack_title pack_desc media_items sources
  end.

(** The branch [elif isinstance(content_field, dict)] *)
Definition scan_content_dict (content_field : dict) (section : string)
    (pack_title pack_desc : json) (media_items : list entry)
  : result (list entry) :=
  match url_field content_field with
  | JStr media_url =>
      let media_type := media_type_of media_url in
      let session_title := get_default "title" (JStr "Session") content_field in
      local_path <- build_local_path section pack_title session_title media_url ;;
      Ok (media_items ++ [mk_entry section pack_title pack_desc session_title
                                   media_type media_url local_path])%list
  | _ => Ok media_items
  end.

(** The detail link of an item: [item.get("link") or item.get("action") or
    (moreAction's url) or item.get("deeplink") or item.get("slug")]. *)
Definition link_path (item : dict) : json :=
  py_or (py_or (py_or (py_or (get "link" item) (get "action" item))
                      match get "moreAction" item with
                      | JDict more => get "url" more
                      | _ => JNull
                      end)
               (get "deeplink" item))
        (get "slug" item).

(** The loop [for play_url, default_title in sources] *)
Fixpoint decode_sources (sources : list source) (section : string)
    (pack_title pack_desc : json) (media_items : list entry) : M (list entry) :=
  match sources with
  | [] => ret media_items
  | (play_url, default_title) :: rest =>
      let info := parse_curefit_url play_url in
      match info_media_url info with
      | None =>
          w <~ warned ;;
          _ <~ (if is_login_modal play_url && negb w then warn_login else ret tt) ;;
          decode_sources rest section pack_title pack_desc media_items
      | Some media_url =>
          let session_title := info_title info default_title in
          local_path <~ lift (build_local_path section pack_title session_title
                                media_url) ;;
          decode_sources rest section pack_title pack_desc
            (media_items ++ [mk_entry section pack_title pack_desc session_title
                                      (info_type info) media_url local_path])%list
      end
  end.

(** The sources an item itself names: its intro action, then its play
    action. *)
Definition item_sources (item : dict) : list source :=
  let sources : list source := [] in
  let sources := if has_key "packIntroAction" item
                 then (sources ++ [(get "packIntroAction" item, JStr "Intro")])%list
                 else sources in
  if has_key "playAction" item
  then (sources ++ [(get "playAction" item, JStr "Main")])%list
  else sources.

(** The scan of [content_field = item.get("content")]: a list, a dict, or
    anything else. *)
Definition scan_content (content_field : json) (section : string)
    (pack_title pack_desc : json) (media_items : list entry) (sources : list source)
  : result (list entry * list source) :=
  match content_field with
  | JList contents =>
      scan_content_list O contents section pack_title pack_desc media_items sources
  | JDict content =>
      (media_items <- scan_content_dict content section pack_title pack_desc
                        media_items ;;
       Ok (media_items, sources))%result
  | _ => Ok (media_items, sources)
  end.

(** The step that follows the detail link of an item. *)
Definition follow_link (item : dict) (section : string) (pack_title pack_desc : json)
    (media_items : list entry) : M (list entry) :=
  match link_path item with
  | JStr link =>
      if Str.startswith link "/" then
        pack_url <~ lift (urljoin BASE_URL link) ;;
        fun w =>
          let '(extra_media, w') :=
            extract_from_pack_detail pack_url section pack_title pack_desc w in
          (Ok (media_items ++ extra_media)%list, w')
      else ret media_items
  | _ => ret media_items
  end.

(** [_extract_media_from_item] up to the de-duplication: the list
    [media_items] as the loop over [sources] leaves it. [item] is a dict: the
    caller has called [item.get] before. *)
Definition collect_item_media (item : dict) (section : string)
    (pack_title pack_desc : json) : M (list entry) :=
  let content_field := get "content" item in
  scanned <~ lift (scan_content content_field section pack_title pack_desc []
                     (item_sources item)) ;;
  let '(media_items, sources) := scanned in
  found <~ lift (collect_media_recursive recursion_limit content_field section
                   pack_title pack_desc JNull) ;;
  media_items <~ follow_link item section pack_title pack_desc
                   (media_items ++ found)%list ;;
  decode_sources sources section pack_title pack_desc media_items.

(** Whether a title is the generic label: [title.lower().startswith("session")]. *)
Definition generic_title (title : string) : bool :=
  Str.startswith (Str.lower title) "session".

(** [s.lower()] of a session title, which may be no string. *)
Definition title_lower (title : json) : result string :=
  match title with
  | JStr s => Ok (Str.lower s)
  | _ => Raise AttributeError
  end.

(** [dedup[url] = entry] for a [url] that is in [dedup]: the key keeps its
    place. *)
Fixpoint dedup_replace (url : string) (e : entry) (dedup : list (string * entry))
  : list (string * entry) :=
  match dedup with
  | [] => []
  | (k, old) :: rest =>
      if k =? url then (k, e) :: rest else (k, old) :: dedup_replace url e rest
  end.

Fixpoint dedup_find (url : string) (dedup : list (string * entry)) : option entry :=
  match dedup with
  | [] => None
  | (k, e) :: rest => if k =? url then Some e else dedup_find url rest
  end.

(** The loop [for entry in media_items] over the table [dedup] *)
Fixpoint dedup_loop (media_items : list entry) (dedup : list (string * entry))
  : result (list (string * entry)) :=
  match media_items with
  | [] => Ok dedup
  | e :: rest =>
      let url := cdn_url e in
      match dedup_find url dedup with
      | None => dedup_loop rest (dedup ++ [(url, e)])%list
      | Some prev =>
          (prev_title <- title_lower (session_title prev) ;;
           new_title <- title_lower (session_title e) ;;
           if Str.startswith prev_title "session"
              && negb (Str.startswith new_title "session")
           then dedup_loop rest (dedup_replace url e dedup)
           else dedup_loop rest dedup)%result
      end
  end.

(** The de-duplication that ends [_extract_media_from_item]:
    [list(dedup.values())]. *)
Definition dedup_entries (media_items : list entry) : result (list entry) :=
  (dedup <- dedup_loop media_items [] ;; Ok (List.map snd dedup))%result.

(** [_extract_media_from_item(item, section, pack_title, pack_desc)] *)
Definition extract_media_from_item (item : dict) (section : string)
    (pack_title pack_desc : json) : M (list entry) :=
  media_items <~ collect_item_media item section pack_title pack_desc ;;
  lift (dedup_entries media_items).

(** *** Discovery and the public crawling API *)

(** The crawler's in-memory stores and its flag. A section is its name and
    its url. *)
Record crawler : Type := mk_crawler {
  sections : list (string * string);
  media_items : list entry;
  media_by_section : list (string * list entry);
  warned_login_required : bool
}.

(** [CultFitCrawler()] as [main] builds it. *)
Definition new_crawler : crawler := mk_crawler [] [] [] false.

(** [uniq[url] = s] in the dict comprehension of [discover_sections]. *)
Fixpoint uniq_put (url : string) (s : string * string)
    (uniq : list (string * (string * string))) : list (string * (string * string)) :=
  match uniq with
  | [] => [(url, s)]
  | (k, old) :: rest =>
      if k =? url then (k, s) :: rest else (k, old) :: uniq_put url s rest
  end.

(** The loop over the anchors of the main page. *)
Fixpoint section_links (hrefs : list string) (found : list (string * string))
  : result (list (string * string)) :=
  match hrefs with
  | [] => Ok found
  | href :: rest =>
      full_url <- urljoin BASE_URL href ;;
      let name_from_url :=
        hd "" (Str.split "/" (last (Str.split "/live/mindfulness/" href) "")) in
      let section_name := sanitize (Str.title (Str.replace "-" " " name_from_url)) in
      section_links rest (found ++ [(section_name, full_url)])%list
  end.

(** [discover_sections()]: the new value of [self.sections], which stays as
    it is when the main page cannot be fetched. *)
Definition discover_sections (c : crawler) : result crawler :=
  match http_get MAIN_MINDLIVE_URL with
  | None => Ok c
  | Some text =>
      found <- section_links (select_hrefs text) [] ;;
      let uniq := fold_left (fun u s => uniq_put (snd s) s u) found [] in
      Ok (mk_crawler (List.map snd uniq) (media_items c) (media_by_section c)
                     (warned_login_required c))
  end.

(** [self.media_by_section[name].extend(med_list)] on a [defaultdict(list)] *)
Fixpoint by_section_extend (name : string) (med_list : list entry)
    (by_section : list (string * list entry)) : list (string * list entry) :=
  match by_section with
  | [] => [(name, med_list)]
  | (k, l) :: rest =>
      if k =? name then (k, l ++ med_list)%list :: rest
      else (k, l) :: by_section_extend name med_list rest
  end.

(** The loop [for item in w.get("items", [])] *)
Fixpoint crawl_items (items : list json) (name : string) (c : crawler)
  : result crawler :=
  match items with
  | [] => Ok c
  | item :: rest =>
      pack_title <- py_get item "title" (JStr "Unknown Pack") ;;
      pack_desc <- py_get item "description" (JStr "") ;;
      match item with
      | JDict item =>
          let '(med_list, w) :=
            extract_media_from_item item name pack_title pack_desc
              (warned_login_required c) in
          med_list <- med_list ;;
          let c := match med_list with
                   | [] => mk_crawler (sections c) (media_items c)
                             (media_by_section c) w
                   | _ => mk_crawler (sections c) (media_items c ++ med_list)%list
                            (by_section_extend name med_list (media_by_section c)) w
                   end in
          crawl_items rest name c
      | _ => Raise AttributeError
      end
  end.

(** The loop [for w in widgets] *)
Fixpoint crawl_widgets (widgets : list json) (name : string) (c : crawler)
  : result crawler :=
  match widgets with
  | [] => Ok c
  | w :: rest =>
      items <- py_get w "items" (JList []) ;;
      items <- py_iter items ;;
      c <- crawl_items items name c ;;
      crawl_widgets rest name c
  end.

(** The body of the loop [for idx, sec in enumerate(self.sections, 1)] *)
Definition crawl_section (sec : string * string) (c : crawler) : result crawler :=
  let '(name, url) := sec in
  match http_get url with
  | None => Ok c
  | Some text =>
      state <- extract_preloaded_state text ;;
      match state with
      | None => Ok c
      | Some state =>
          if negb (truthy state) then Ok c else
          present <- py_contains "cultDIYPackBrowse" state ;;
          if negb present then Ok c else
          browse <- py_getitem state "cultDIYPackBrowse" ;;
          widgets <- py_get browse "widgets" (JList []) ;;
          widgets <- py_iter widgets ;;
          c <- crawl_widgets widgets name c ;;
          (* the summary line reads [self.media_by_section[sec["name"]]],
             which enters the section in the defaultdict *)
          Ok (mk_crawler (sections c) (media_items c)
                (by_section_extend name [] (media_by_section c))
                (warned_login_required c))
      end
  end.

Fixpoint crawl_sections (secs : list (string * string)) (c : crawler)
  : result crawler :=
  match secs with
  | [] => Ok c
  | sec :: rest => c <- crawl_section sec c ;; crawl_sections rest c
  end.

(** [crawl()]: the crawler as it stands when the two JSON documents are
    written from [media_items] and [media_by_section]. *)
Definition crawl (c : crawler) : result crawler :=
  c <- match sections c with
       | [] => discover_sections c
       | _ => Ok c
       end ;;
  crawl_sections (sections c) c.

End Crawler.

(** ** Download selection

    The loop of [download_media] that determines which items to download,
    run on the flat list the crawl has filled. [self.manifest] is what
    [json.loads] gave for the manifest file, or the empty dict. *)

Section Download.

Local Open Scope result_scope.

(** [Path(p).exists()] *)
Variable path_exists : string -> bool.

(** [status == "success"] *)
Definition is_success (status : json) : bool :=
  match status with
  | JStr s => s =? "success"
  | _ => false
  end.

(** [Path(v)]: only a string is accepted. *)
Definition path_of (v : json) : result string :=
  match v with
  | JStr s => Ok s
  | _ => Raise TypeError
  end.

Fixpoint to_download (retry_failed_only : bool) (manifest : json)
    (media_items to_dl : list entry) : result (list entry) :=
  match media_items with
  | [] => Ok to_dl
  | m :: rest =>
      let url := cdn_url m in
      entry <- py_get manifest url (JDict []) ;;
      status <- py_get entry "status" JNull ;;
      path <- py_get entry "path" JNull ;;
      cached_path <- path_of (py_or path (JStr (local_path m))) ;;
      let file_on_disk := path_exists cached_path in
      if is_success status && file_on_disk && negb retry_failed_only
      then to_download retry_failed_only manifest rest to_dl
      else if retry_failed_only && negb (is_success status)
      then to_download retry_failed_only manifest rest (to_dl ++ [m])%list
      else if negb retry_failed_only
      then to_download retry_failed_only manifest rest (to_dl ++ [m])%list
      else to_download retry_failed_only manifest rest to_dl
  end.

End Download.

(** ** A reference instance of the library interface

    [py web] follows the documented behaviour of the library functions on
    plain ASCII input: enough to run the extraction on concrete pages. The
    theorems stated for every [PyLib] do not depend on it. [web] is what the
    site answers: the text of a page, or [None] for a failed request. *)

Module Ref.

(** The double quote. *)
Definition dquote : ascii := ascii_of_nat 34.

(** A text written with single quotes, read with double quotes: JSON and
    markup samples are written this way. *)
Definition dq (s : string) : string :=
  Str.map (fun c => if Ascii.eqb c "'" then dquote else c) s.

Definition is_digit (c : ascii) : bool :=
  let n := nat_of_ascii c in (48 <=? n)%nat && (n <=? 57)%nat.

Definition digit_val (c : ascii) : Z := Z.of_nat (nat_of_ascii c - 48).

Definition hex_val (c : ascii) : option nat :=
  let n := nat_of_ascii c in
  if is_digit c then Some (n - 48)
  else if (65 <=? n)%nat && (n <=? 70)%nat then Some (n - 55)
  else if (97 <=? n)%nat && (n <=? 102)%nat then Some (n - 87)
  else None.

(** The longest prefix of characters of a class, and what follows it. *)
Fixpoint span (p : ascii -> bool) (s : string) : string * string :=
  match s with
  | String c s' =>
      if p c then let '(a, b) := span p s' in (String c a, b) else (EmptyString, s)
  | EmptyString => (EmptyString, EmptyString)
  end.

Definition number_of (digits : string) : Z :=
  fold_left (fun n c => (10 * n + digit_val c)%Z) (list_ascii_of_string digits) 0%Z.

(** *** json.loads *)

Definition is_json_ws (c : ascii) : bool :=
  existsb (Nat.eqb (nat_of_ascii c)) [32; 9; 10; 13].

Definition skip_ws (s : string) : string := Str.lstrip is_json_ws s.

(** Four hexadecimal digits of a [\u] escape. *)
Definition hex4 (s : string) : option (nat * string) :=
  match s with
  | String a (String b (String c (String d r))) =>
      match hex_val a, hex_val b, hex_val c, hex_val d with
      | Some a, Some b, Some c, Some d => Some (((a * 16 + b) * 16 + c) * 16 + d, r)
      | _, _, _, _ => None
      end
  | _ => None
  end.

(** The text of a string literal after its opening quote: the decoded string
    and what follows the closing quote. An escape above 127 decodes to a
    question mark. *)
Fixpoint string_body (fuel : nat) (s acc : string) : option (string * string) :=
  match fuel, s with
  | S f, String c r =>
      if Ascii.eqb c dquote then Some (acc, r)
      else if Ascii.eqb c "\" then
        match r with
        | String e r' =>
            let simple (x : ascii) := string_body f r' (acc ++ String x EmptyString) in
            if Ascii.eqb e dquote then simple dquote
            else if Ascii.eqb e "\" then simple "\"%char
            else if Ascii.eqb e "/" then simple "/"%char
            else if Ascii.eqb e "b" then simple (ascii_of_nat 8)
            else if Ascii.eqb e "f" then simple (ascii_of_nat 12)
            else if Ascii.eqb e "n" then simple (ascii_of_nat 10)
            else if Ascii.eqb e "r" then simple (ascii_of_nat 13)
            else if Ascii.eqb e "t" then simple (ascii_of_nat 9)
            else if Ascii.eqb e "u" then
              match hex4 r' with
              | Some (n, r'') =>
                  string_body f r''
                    (acc ++ String (if (n <? 128)%nat then ascii_of_nat n else "?"%char)
                                   EmptyString)
              | None => None
              end
            else None
        | EmptyString => None
        end
      else if (nat_of_ascii c <? 32)%nat then None
      else string_body f r (acc ++ String c EmptyString)
  | _, _ => None
  end.

(** A number: an integer when it has neither fraction nor exponent. *)
Definition number (s : string) : option (json * string) :=
  let '(neg, s) := match s with
                   | String "-" r => (true, r)
                   | _ => (false, s)
                   end in
  let sign (z : Z) := if neg then (- z)%Z else z in
  let '(int_part, s) := match s with
                        | String "0" r => ("0", r)
                        | _ => span is_digit s
                        end in
  if int_part =? "" then None else
  let '(frac, s) := match s with
                    | String "." r =>
                        let '(f, r') := span is_digit r in
                        if f =? "" then ("", s) else (f, r')
                    | _ => ("", s)
                    end in
  let exponent :=
    match s with
    | String e r =>
        if Ascii.eqb e "e" || Ascii.eqb e "E" then
          let '(eneg, r) := match r with
                            | String "-" r' => (true, r')
                            | String "+" r' => (false, r')
                            | _ => (false, r)
                            end in
          let '(ds, r') := span is_digit r in
          if ds =? "" then None
          else Some (if eneg then (- number_of ds)%Z else number_of ds, r')
        else None
    | EmptyString => None
    end in
  match exponent, frac with
  | None, EmptyString => Some (JInt (sign (number_of int_part)), s)
  | None, _ =>
      Some (JFloat (sign (number_of (int_part ++ frac)))
                   (- Z.of_nat (String.length frac))%Z, s)
  | Some (e, r), _ =>
      Some (JFloat (sign (number_of (int_part ++ frac)))
                   (e - Z.of_nat (String.length frac))%Z, r)
  end.

(** [d[k] = v] while an object is read: a repeated key keeps its place and
    takes the later value. *)
Fixpoint dict_put (k : string) (v : json) (d : dict) : dict :=
  match d with
  | [] => [(k, v)]
  | (k', old) :: rest =>
      if k' =? k then (k', v) :: rest else (k', old) :: dict_put k v rest
  end.

(** A value at the start of [s]; the elements of an array after its opening
    bracket or a comma; the members of an object after its opening brace or
    a comma. *)
Fixpoint value (fuel : nat) (s : string) {struct fuel} : option (json * string) :=
  match fuel with
  | O => None
  | S f =>
      match s with
      | String c r =>
          if Ascii.eqb c dquote then
            match string_body (String.length r) r EmptyString with
            | Some (str, r') => Some (JStr str, r')
            | None => None
            end
          else if Ascii.eqb c "{" then
            match skip_ws r with
            | String "}" r' => Some (JDict [], r')
            | r' => members f r' []
            end
          else if Ascii.eqb c "[" then
            match skip_ws r with
            | String "]" r' => Some (JList [], r')
            | r' => elements f r' []
            end
          else if prefix "null" s then Some (JNull, Str.skip 4 s)
          else if prefix "true" s then Some (JBool true, Str.skip 4 s)
          else if prefix "false" s then Some (JBool false, Str.skip 5 s)
          else number s
      | EmptyString => None
      end
  end
with elements (fuel : nat) (s : string) (acc : list json) {struct fuel}
  : option (json * string) :=
  match fuel with
  | O => None
  | S f =>
      match value f s with
      | Some (v, r) =>
          match skip_ws r with
          | String "," r' => elements f (skip_ws r') (acc ++ [v])%list
          | String "]" r' => Some (JList (acc ++ [v])%list, r')
          | _ => None
          end
      | None => None
      end
  end
with members (fuel : nat) (s : string) (acc : dict) {struct fuel}
  : option (json * string) :=
  match fuel with
  | O => None
  | S f =>
      match s with
      | String c r =>
          if Ascii.eqb c dquote then
            match string_body (String.length r) r EmptyString with
            | Some (k, r) =>
                match skip_ws r with
                | String ":" r =>
                    match value f (skip_ws r) with
                    | Some (v, r) =>
                        match skip_ws r with
                        | String "," r' => members f (skip_ws r') (dict_put k v acc)
                        | String "}" r' => Some (JDict (dict_put k v acc), r')
                        | _ => None
                        end
                    | None => None
                    end
                | _ => None
                end
            | None => None
            end
          else None
      | EmptyString => None
      end
  end.

(** [json.loads(s)]; the literals NaN and Infinity, which the library also
    reads, are taken as malformed. *)
Definition loads (s : string) : result json :=
  match value (2 * String.length s + 2) (skip_ws s) with
  | Some (v, r) => if skip_ws r =? "" then Ok v else Raise JSONDecodeError
  | None => Raise JSONDecodeError
  end.

(** *** urllib.parse and os.path *)

(** [unquote(s)]: every [%XX] becomes the character it names (an escape of
    a byte above 127 is outside the ASCII model and yields that byte). *)
Fixpoint py_unquote (s : string) : string :=
  match s with
  | EmptyString => EmptyString
  | String c r =>
      match r with
      | String a (String b r') =>
          match Ascii.eqb c "%", hex_val a, hex_val b with
          | true, Some a, Some b => String (ascii_of_nat (a * 16 + b)) (py_unquote r')
          | _, _, _ => String c (py_unquote r)
          end
      | _ => String c (py_unquote r)
      end
  end.

Fixpoint qs_add (name v : string) (parsed : list (string * (string * list string)))
  : list (string * (string * list string)) :=
  match parsed with
  | [] => [(name, (v, []))]
  | (k, (v0, vs)) :: rest =>
      if k =? name then (k, (v0, vs ++ [v])%list) :: rest
      else (k, (v0, vs)) :: qs_add name v rest
  end.

(** [parse_qs(qs)]: fields are separated by an ampersand; a field with no
    equals sign or with a blank value is dropped; a plus sign is a space. *)
Definition py_parse_qs (qs : string) : list (string * (string * list string)) :=
  fold_left
    (fun parsed name_value =>
       match Str.split_once "=" name_value with
       | Some (name, v) =>
           if v =? "" then parsed
           else qs_add (py_unquote (Str.replace "+" " " name))
                       (py_unquote (Str.replace "+" " " v)) parsed
       | None => parsed
       end)
    (Str.split "&" qs) [].

(** [s.rfind(c)] *)
Fixpoint rfind (c : ascii) (s : string) : option nat :=
  match s with
  | EmptyString => None
  | String x s' =>
      match rfind c s' with
      | Some i => Some (S i)
      | None => if Ascii.eqb x c then Some O else None
      end
  end.

(** [os.path.splitext(p)[1]]: from the last dot of the last component, when
    something other than a dot precedes it there. *)
Definition py_splitext_ext (p : string) : string :=
  let name := match rfind "/" p with
              | Some i => Str.skip (S i) p
              | None => p
              end in
  match rfind "." name with
  | Some i =>
      if Str.lstrip (fun c => Ascii.eqb c ".") (Str.take i name) =? "" then ""
      else Str.skip i name
  | None => ""
  end.

Definition is_scheme_char (c : ascii) : bool :=
  Str.is_upper c || Str.is_lower c || is_digit c
  || existsb (Ascii.eqb c) ["+"; "-"; "."]%char.

(** A url without its scheme, when it has one. *)
Definition drop_scheme (url : string) : string :=
  match Str.find ":" url with
  | Some (S i) =>
      let scheme := Str.take (S i) url in
      if (Str.lstrip is_scheme_char scheme =? "")
         && negb (is_digit (match scheme with String c _ => c | _ => "0"%char end))
      then Str.skip (S (S i)) url else url
  | _ => url
  end.

(** The text up to the first character of a class. *)
Definition until (stop : ascii -> bool) (s : string) : string :=
  fst (span (fun c => negb (stop c)) s).

(** [urlparse(url).path]; a bracket in the network location without its
    partner is the one error modelled. *)
Definition py_urlparse_path (url : string) : result string :=
  let rest := drop_scheme url in
  let ends_path (c : ascii) := Ascii.eqb c "?" || Ascii.eqb c "#" in
  if prefix "//" rest then
    let loc := until (fun c => Ascii.eqb c "/" || ends_path c) (Str.skip 2 rest) in
    if xorb (Str.contains "[" loc) (Str.contains "]" loc) then Raise ValueError
    else Ok (until ends_path (Str.skip (2 + String.length loc) rest))
  else Ok (until ends_path rest).

(** [urljoin(base, url)] for a base with no path of its own, as [BASE_URL]
    is: an absolute url stays, a site-relative path goes under the base,
    without the removal of dot segments that the library also does. *)
Definition py_urljoin (base url : string) : result string :=
  if url =? "" then Ok base
  else if negb (drop_scheme url =? url) then Ok url
  else if prefix "//" url then
    (_ <- py_urlparse_path url ;;
     Ok (Str.take (String.length base - String.length (drop_scheme base)) base
         ++ url))%result
  else if prefix "/" url then Ok (base ++ url)
  else Ok (base ++ "/" ++ url).

(** *** bs4 *)

(** The [.string] of every script element: the text between the end of a
    [<script ...>] tag and the next [</script], [None] when there is none. *)
Fixpoint py_script_strings (fuel : nat) (html : string) : list (option string) :=
  match fuel with
  | O => []
  | S f =>
      match Str.find "<script" html with
      | None => []
      | Some i =>
          let after := Str.skip (i + 7) html in
          match Str.find ">" after with
          | None => []
          | Some j =>
              let body := Str.skip (S j) after in
              match Str.find "</script" body with
              | None => [if body =? "" then None else Some body]
              | Some O => None :: py_script_strings f (Str.skip 8 body)
              | Some k => Some (Str.take k body) :: py_script_strings f (Str.skip (k + 8) body)
              end
          end
      end
  end.

(** The [href] of every anchor that the selector
    [a[href*='/live/mindfulness/']] picks, for anchors written
    [<a href=...] with a double-quoted value. *)
Fixpoint py_select_hrefs (fuel : nat) (html : string) : list string :=
  match fuel with
  | O => []
  | S f =>
      match Str.find ("<a href=" ++ String dquote EmptyString) html with
      | None => []
      | Some i =>
          let after := Str.skip (i + 9) html in
          let href := until (Ascii.eqb dquote) after in
          let rest := py_select_hrefs f (Str.skip (String.length href) after) in
          if Str.contains "/live/mindfulness/" href then href :: rest else rest
      end
  end.

End Ref.

(** The reference instance over a given site. *)
Definition py (web : string -> option string) : PyLib := {|
  json_loads := Ref.loads;
  script_strings := fun html => Ref.py_script_strings (String.length html) html;
  select_hrefs := fun html => Ref.py_select_hrefs (String.length html) html;
  parse_qs := Ref.py_parse_qs;
  unquote := Ref.py_unquote;
  urljoin := Ref.py_urljoin;
  urlparse_path := Ref.py_urlparse_path;
  splitext_ext := Ref.py_splitext_ext;
  http_get := web;
  recursion_limit := 1000
|}.

(** A site that answers no request. *)
Definition offline : string -> option string := fun _ => None.

(** ** Sample inputs *)

Module Sample.

Import Ref.

(** The mapping [{"title": "Outer", "content": [{"downloadUrl": "a.mp3"},
    {"subTitle": "Inner", "URL": "b.mp4"}]}]. *)
Definition outer_inner : json :=
  JDict [("title", JStr "Outer");
         ("content", JList [JDict [("downloadUrl", JStr "a.mp3")];
                            JDict [("subTitle", JStr "Inner"); ("URL", JStr "b.mp4")]])].

(** A titled mapping inside a titled mapping, over a node with a direct url
    and no title of its own:
    [{"title": outer, "content": {"title": inner, "items": [{"downloadUrl": url}]}}]. *)
Definition titled_twice (outer inner url : string) : json :=
  JDict [("title", JStr outer);
         ("content", JDict [("title", JStr inner);
                            ("items", JList [JDict [("downloadUrl", JStr url)]])])].



(** An item with a play action and a direct url under [content]. *)
Definition play_and_content : dict :=
  [("title", JStr "P");
   ("playAction", JStr "curefit://x?absoluteAudioUrl=https%3A%2F%2Fcdn%2Fa.mp3");
   ("content", JDict [("downloadUrl", JStr "https://cdn/b.mp3")])].

(** An item with nothing but a title and a detail link, and a site that
    serves the detail page behind that link. *)
Definition linked_item : dict := [("title", JStr "P"); ("link", JStr "/pack/calm")].

Definition detail_page : string :=
  dq "<html><script>window.__PRELOADED_STATE__ = {'cultDIYPack': {'p1': {'productWidgets': [{'items': [{'title': 'Calm', 'downloadUrl': 'https://cdn/c.mp3'}]}]}}};</script></html>".

Definition detail_site (url : string) : option string :=
  if url =? "https://www.cult.fit/pack/calm" then Some detail_page else None.

(** A site with one section whose page lists two packs that hold the same
    recording. *)
Definition main_page : string :=
  dq "<html><a href='/live/mindfulness/sleep-stories'>Sleep</a></html>".

Definition section_page : string :=
  dq "<script>window.__PRELOADED_STATE__ = {'cultDIYPackBrowse': {'widgets': [{'items': [{'title': 'A', 'content': {'downloadUrl': 'https://cdn/x.mp3'}}, {'title': 'B', 'content': {'downloadUrl': 'https://cdn/x.mp3'}}]}]}}</script>".

Definition two_pack_site (url : string) : option string :=
  if url =? MAIN_MINDLIVE_URL then Some main_page
  else if url =? "https://www.cult.fit/live/mindfulness/sleep-stories"
       then Some section_page
       else None.

(** A page whose second script block assigns a nested object, with nothing
    after it, and the text of that object. *)
Definition state_object : string := dq "{'a':{'b':[1,{'c':2}]}}".

Definition state_page : string :=
  dq "<html><script>var x = {};</script><script>var s; window.__PRELOADED_STATE__ = {'a':{'b':[1,{'c':2}]}}</script></html>".

(** Pages whose state holds a closing brace, or the word undefined, inside
    a string. *)
Definition brace_in_string_page : string :=
  dq "<script>window.__PRELOADED_STATE__ = {'a':'}'}</script>".

Definition undefined_in_string_page : string :=
  dq "<script>window.__PRELOADED_STATE__ = {'a':'undefined'}</script>".

(** A reference with both media keys and a title. *)
Definition both_keys_url : string :=
  "curefit://x?absoluteAudioUrl=https%3A%2F%2Fcdn%2Fa.mp3&absoluteVideoUrl=https%3A%2F%2Fcdn%2Fb.mp4&title=Calm".

(** A reference whose values hold a percent sign written [%25]. *)
Definition twice_encoded_url : string :=
  "curefit://x?absoluteAudioUrl=https%3A%2F%2Fcdn%2Fa%2520b.mp3&title=Deep%2520Calm&packId=p%25201&contentId=c%25202".

(** Two references to one url, one with the generic title. *)
Definition generic_ref : entry :=
  mk_entry "Sleep" (JStr "Yoga Nidra") (JStr "") (JStr "Session") "audio"
           "https://cdn/n.mp3" "media/Sleep/Yoga_Nidra/Session.mp3".

Definition descriptive_ref : entry :=
  mk_entry "Sleep" (JStr "Yoga Nidra") (JStr "") (JStr "Deep Relaxation") "audio"
           "https://cdn/n.mp3" "media/Sleep/Yoga_Nidra/Deep_Relaxation.mp3".

(** Three references, a manifest that records the first two as downloaded,
    and a disk that holds the file of the first only. *)
Definition media_a : entry :=
  mk_entry "Sleep" (JStr "P") (JStr "") (JStr "A") "audio"
    "https://cdn/a.mp3" "media/Sleep/P/A.mp3".
Definition media_b : entry :=
  mk_entry "Sleep" (JStr "P") (JStr "") (JStr "B") "audio"
    "https://cdn/b.mp3" "media/Sleep/P/B.mp3".
Definition media_c : entry :=
  mk_entry "Sleep" (JStr "P") (JStr "") (JStr "C") "video"
    "https://cdn/c.mp4" "media/Sleep/P/C.mp4".

Definition manifest : json :=
  JDict [("https://cdn/a.mp3",
          JDict [("status", JStr "success"); ("path", JStr "media/Sleep/P/A.mp3")]);
         ("https://cdn/b.mp3",
          JDict [("status", JStr "success"); ("path", JStr "media/Sleep/P/B.mp3")])].

Definition on_disk (p : string) : bool := p =? "media/Sleep/P/A.mp3".


(** A reference with both media keys in its query, the audio one with a
    blank value. *)
Definition blank_audio_url : string :=
  "curefit://x?absoluteAudioUrl=&absoluteVideoUrl=https%3A%2F%2Fcdn%2Fb.mp4&title=Calm".

(** A page whose first script block mentions the marker without assigning
    the state, and whose second block tests the target before it assigns
    it and goes on after the object. *)
Definition busy_state_page : string :=
  dq "<html><script>var m = '__PRELOADED_STATE__';</script><script>if (window.__PRELOADED_STATE__) {} window.__PRELOADED_STATE__ = {'a':{'b':[1,{'c':2}]}}; var t = 1;</script></html>".

(** A page with two script blocks that each assign an object. *)
Definition two_states_page : string :=
  dq "<script>window.__PRELOADED_STATE__ = {'a':1}</script><script>window.__PRELOADED_STATE__ = {'b':2}</script>".

End Sample.

(** ** Notions used in the statements *)

(** A script block that does not concern the state: one with no text, or
    with a text that does not mention the marker. *)
Definition unrelated (script : option string) : Prop :=
  match script with
  | None => True
  | Some t => Str.contains state_marker t = false
  end.

(** The table [dedup] holds each url once, each with an entry of that url. *)
Definition keyed (dedup : list (string * entry)) : Prop :=
  NoDup (List.map fst dedup)
  /\ Forall (fun ke => cdn_url (snd ke) = fst ke) dedup.

(** Induction on a value together with the values it holds. *)
Section JsonInd.

Variable P : json -> Prop.
Hypothesis Hnull : P JNull.
Hypothesis Hbool : forall b, P (JBool b).
Hypothesis Hint : forall z, P (JInt z).
Hypothesis Hfloat : forall m e, P (JFloat m e).
Hypothesis Hstr : forall s, P (JStr s).
Hypothesis Hlist : forall l, Forall P l -> P (JList l).
Hypothesis Hdict : forall d, Forall P (values d) -> P (JDict d).


End JsonInd.

(** ** Further notions used in the statements *)

(** Opening braces less closing braces of a text. *)
Fixpoint balance (s : string) : Z :=
  match s with
  | EmptyString => 0%Z
  | String c s' =>
      ((if Ascii.eqb c "{" then 1 else if Ascii.eqb c "}" then -1 else 0)
       + balance s')%Z
  end.

(** The direct urls of a tree in document order: for a mapping its own
    url, the value of the first of the three url keys that holds a string,
    and then the urls of its values; for a list the urls of its elements. *)
Fixpoint tree_urls (v : json) : list string :=
  match v with
  | JDict d =>
      (match direct_url url_keys d with
       | Some media_url => [media_url]
       | None => []
       end
       ++ (fix below (d : dict) : list string :=
             match d with
             | [] => []
             | kv :: rest => tree_urls (snd kv) ++ below rest
             end) d)%list
  | JList l =>
      (fix below (l : list json) : list string :=
         match l with
         | [] => []
         | x :: rest => (tree_urls x ++ below rest)%list
         end) l
  | _ => []
  end.

Section CrawlNotions.

Context {L : PyLib}.

(** A page that cannot be fetched, or that holds no state or a state
    without the browse key, leaves the crawler as it is. *)
Definition nothing_to_crawl (url : string) : Prop :=
  http_get url = None
  \/ exists text,
       http_get url = Some text
       /\ (extract_preloaded_state text = Ok None
           \/ exists d,
                extract_preloaded_state text = Ok (Some (JDict d))
                /\ has_key "cultDIYPackBrowse" d = false).

End CrawlNotions.

(** The table of the dict comprehension holds each url once, each with a
    section of that url. *)
Definition uniq_keyed (uniq : list (string * (string * string))) : Prop :=
  NoDup (List.map fst uniq) /\ Forall (fun kv => snd (snd kv) = fst kv) uniq.

(** Every url once, in the order in which the urls first appear. *)
Fixpoint firsts (urls : list string) : list string :=
  match urls with
  | [] => []
  | u :: rest => u :: filter (fun v => negb (v =? u)) (firsts rest)
  end.

(** Whether the title of a reference is a string that is generic. *)
Definition entry_generic (e : entry) : bool :=
  match session_title e with
  | JStr t => generic_title t
  | _ => false
  end.

(** Of the references to one url, in the order found: the first that is not
    generic, and the first of all when all are generic. *)
Definition kept (group : list entry) : option entry :=
  match find (fun e => negb (entry_generic e)) group with
  | Some e => Some e
  | None => hd_error group
  end.

(** The references to the url of [e] among [items]. *)
Definition same_url (e : entry) (items : list entry) : list entry :=
  filter (fun x => cdn_url x =? cdn_url e) items.

(** Whether a url is none of the keys. *)
Definition absent_from (keys : list string) (u : string) : bool :=
  negb (existsb (String.eqb u) keys).

(** The table [dedup] after the references [found] have gone through the
    loop: each url of [found] is a key, once, and its entry is the one kept
    among the references to it. *)
Definition table_ok (dedup : list (string * entry)) (found : list entry) : Prop :=
  NoDup (List.map fst dedup)
  /\ (forall k e, In (k, e) dedup ->
                  cdn_url e = k
                  /\ kept (filter (fun x => cdn_url x =? k) found) = Some e)
  /\ (forall x, In x found -> In (cdn_url x) (List.map fst dedup)).

(** The title of a reference is a string. *)
Definition titled (e : entry) : Prop := exists t, session_title e = JStr t.

Section EntryNotions.

Context {L : PyLib}.

(** A reference as the extraction builds it for an item of a section: it
    carries the section and the title and description of the pack it was
    found for, its type is audio or video, and its local path is the one
    [_build_local_path] gives for its title and url. *)
Definition entry_of (sec : string) (pack_title pack_desc : json) (e : entry)
  : Prop :=
  section e = sec
  /\ pack e = pack_title
  /\ pack_description e = pack_desc
  /\ (media_type e = "audio" \/ media_type e = "video")
  /\ build_local_path sec pack_title (session_title e) (cdn_url e)
     = Ok (local_path e).

(** Whatever a computation returns satisfies [P]. *)
Definition yields {A : Type} (P : A -> Prop) (m : M A) : Prop :=
  forall w r w', m w = (Ok r, w') -> P r.

(** A computation that leaves the flag set when it starts with it set. *)
Definition keeps_warned {A : Type} (m : M A) : Prop :=
  forall r w', m true = (r, w') -> w' = true.

End EntryNotions.

(** [self.media_by_section[name]], the empty list when the section has not
    been entered. *)
Fixpoint by_section_get (name : string) (by_section : list (string * list entry))
  : list entry :=
  match by_section with
  | [] => []
  | (k, l) :: rest => if k =? name then l else by_section_get name rest
  end.

(** The flat list and the lists by section hold the same references: the
    list of a section is the flat list restricted to that section. *)
Definition by_section_agrees (c : crawler) : Prop :=
  forall name,
    filter (fun e => section e =? name) (media_items c)
    = by_section_get name (media_by_section c).

(** Every character of [s] passes [p]. *)
Fixpoint forall_chars (p : ascii -> bool) (s : string) : bool :=
  match s with
  | EmptyString => true
  | String c s' => p c && forall_chars p s'
  end.

(** No two neighbouring characters of [s] both pass [p]. *)
Fixpoint no_neighbours (p : ascii -> bool) (s : string) : bool :=
  match s with
  | String c (String d _ as s') => negb (p c && p d) && no_neighbours p s'
  | _ => true
  end.

(** The first character of [s], if there is one, does not pass [p]. *)
Definition head_fails (p : ascii -> bool) (s : string) : bool :=
  match s with
  | String c _ => negb (p c)
  | EmptyString => true
  end.

(** The last character of [s], if there is one, does not pass [p]. *)
Fixpoint last_fails (p : ascii -> bool) (s : string) : bool :=
  match s with
  | EmptyString => true
  | String c EmptyString => negb (p c)
  | String _ s' => last_fails p s'
  end.

(** A character that may stand in a file name: none of the characters the
    file systems refuse, and no white space. *)
Definition slug_char (c : ascii) : bool :=
  negb (illegal_fs_char c) && negb (Str.is_space c).

(** What the manifest holds for the url of a reference, and a field of it. *)
Definition manifest_entry (manifest : json) (m : entry) : json :=
  match manifest with
  | JDict d => get_default (cdn_url m) (JDict []) d
  | _ => JDict []
  end.

Definition entry_field (k : string) (e : json) : json :=
  match e with
  | JDict d => get k d
  | _ => JNull
  end.

(** The manifest records a successful download of the reference. *)
Definition succeeded (manifest : json) (m : entry) : bool :=
  is_success (entry_field "status" (manifest_entry manifest m)).

(** Where the file of a reference is expected: the recorded path, or the
    reference's own local path when none is recorded. *)
Definition cached_path (manifest : json) (m : entry) : string :=
  match py_or (entry_field "path" (manifest_entry manifest m))
          (JStr (local_path m)) with
  | JStr s => s
  | _ => local_path m
  end.




(** A text of white space only. *)
Definition blank (ws : string) : Prop := forall_chars Str.is_space ws = true.

(** The assignment pattern occurs in [stext] at position [p]: the target,
    white space, an equals sign, white space, an opening brace. *)
Definition assigned_at (stext : string) (p : nat) : Prop :=
  exists ws1 ws2 tail,
    blank ws1 /\ blank ws2
    /\ Str.skip p stext
       = (state_target ++ ws1 ++ "=" ++ ws2 ++ String "{" tail)%string.

(** A script block that assigns no state: one with no text, or with a text
    in which the assignment pattern occurs nowhere. *)
Definition assigns_nothing (script : option string) : Prop :=
  match script with
  | None => True
  | Some t => forall p, ~ assigned_at t p
  end.

(** Texts in which the braces are well nested, whatever stands between
    them: a text without braces, a nested text in braces, and two nested
    texts one after the other. *)
Inductive nested : string -> Prop :=
| nested_plain (s : string) :
    Str.contains "{" s = false -> Str.contains "}" s = false -> nested s
| nested_braces (s : string) : nested s -> nested ("{" ++ s ++ "}")
| nested_append (s t : string) : nested s -> nested t -> nested (s ++ t).

(** A pack item as the crawl hands it to the resolution of an item: the
    item, the name of its section, its title and its description. *)
Definition pack_ref : Type := (dict * string * json * json)%type.

Section PackNotions.

Context {L : PyLib}.

Local Open Scope result_scope.

(** The pack items that the pages of the sections list, in the order of
    the sections, of the widgets of a page and of the items of a widget. *)
Fixpoint listed_items (items : list json) (name : string) : result (list pack_ref) :=
  match items with
  | [] => Ok []
  | item :: rest =>
      pack_title <- py_get item "title" (JStr "Unknown Pack") ;;
      pack_desc <- py_get item "description" (JStr "") ;;
      match item with
      | JDict item =>
          packs <- listed_items rest name ;;
          Ok ((item, name, pack_title, pack_desc) :: packs)
      | _ => Raise AttributeError
      end
  end.

Fixpoint listed_widgets (widgets : list json) (name : string)
  : result (list pack_ref) :=
  match widgets with
  | [] => Ok []
  | w :: rest =>
      items <- py_get w "items" (JList []) ;;
      items <- py_iter items ;;
      packs <- listed_items items name ;;
      more <- listed_widgets rest name ;;
      Ok (packs ++ more)%list
  end.

Definition listed_section (sec : string * string) : result (list pack_ref) :=
  let '(name, url) := sec in
  match http_get url with
  | None => Ok []
  | Some text =>
      state <- extract_preloaded_state text ;;
      match state with
      | None => Ok []
      | Some state =>
          if negb (truthy state) then Ok [] else
          present <- py_contains "cultDIYPackBrowse" state ;;
          if negb present then Ok [] else
          browse <- py_getitem state "cultDIYPackBrowse" ;;
          widgets <- py_get browse "widgets" (JList []) ;;
          widgets <- py_iter widgets ;;
          listed_widgets widgets name
      end
  end.

Fixpoint listed_packs (secs : list (string * string)) : result (list pack_ref) :=
  match secs with
  | [] => Ok []
  | sec :: rest =>
      packs <- listed_section sec ;;
      more <- listed_packs rest ;;
      Ok (packs ++ more)%list
  end.

(** The lists that the resolution returns for these pack items, one after
    the other, each started with the flag as the one before left it. *)
Fixpoint resolve_packs (packs : list pack_ref) : M (list (list entry)) :=
  match packs with
  | [] => ret []
  | (item, name, pack_title, pack_desc) :: rest =>
      bind (extract_media_from_item item name pack_title pack_desc)
        (fun l => bind (resolve_packs rest) (fun ls => ret (l :: ls)))
  end.

End PackNotions.

(** ** The reference decoder *)

Section Decoder.

Context {L : PyLib}.

(** What the decoder returns for a string with the scheme prefix, in terms
    of the parsed query. *)
Lemma parse_curefit_url_prefixed (cure_url : string) :
  Str.startswith cure_url "curefit://" = true ->
  let params := parse_qs (query_of cure_url) in
  parse_curefit_url (JStr cure_url) =
  mk_info
    (option_map unquote
       (match param0 "absoluteAudioUrl" params with
        | Some v => Some v
        | None => param0 "absoluteVideoUrl" params
        end))
    (match param0 "absoluteAudioUrl" params, param0 "absoluteVideoUrl" params with
     | Some _, _ => Some "audio"
     | None, Some _ => Some "video"
     | None, None => None
     end)
    (param0 "title" params) (param0 "packId" params) (param0 "contentId" params).
Proof.
  intros Hpre params. unfold parse_curefit_url. rewrite Hpre. fold params.
  destruct (param0 "absoluteAudioUrl" params); [reflexivity|].
  destruct (param0 "absoluteVideoUrl" params); reflexivity.
Qed.

(** Anything that is no string with the scheme prefix decodes to nothing. *)
Lemma parse_curefit_url_other (v : json) :
  (forall s, v = JStr s -> Str.startswith s "curefit://" = false) ->
  parse_curefit_url v = empty_info.
Proof.
  intros H. destruct v; try reflexivity.
  simpl. rewrite (H s eq_refl). reflexivity.
Qed.

End Decoder.

(** C10. The media url the decoder emits is the chosen query value passed
    through unquote once more, while title, packId and contentId are the
    query values as parsed; on a reference whose audio value holds %2520 the
    emitted url has a space where the parsed value has %20, and the three
    other values keep their %20. *)
Theorem decoder_unquotes_media_url_again :
  (forall (L : PyLib) (cure_url : string),
      Str.startswith cure_url "curefit://" = true ->
      let params := parse_qs (query_of cure_url) in
      let info := parse_curefit_url (JStr cure_url) in
      info_media_url info
      = option_map unquote
          (match param0 "absoluteAudioUrl" params with
           | Some v => Some v
           | None => param0 "absoluteVideoUrl" params
           end)
      /\ info_session_title info = param0 "title" params
      /\ info_pack_id info = param0 "packId" params
      /\ info_content_id info = param0 "contentId" params)
  /\ (forall web,
         let L := py web in
         param0 "absoluteAudioUrl" (parse_qs (query_of Sample.twice_encoded_url))
         = Some "https://cdn/a%20b.mp3"
         /\ parse_curefit_url (JStr Sample.twice_encoded_url)
            = mk_info (Some "https://cdn/a b.mp3") (Some "audio")
                      (Some "Deep%20Calm") (Some "p%201") (Some "c%202")).
Proof.
  split.
  - intros L cure_url Hpre params info. subst info.
    rewrite (parse_curefit_url_prefixed cure_url Hpre). fold params.
    repeat split; reflexivity.
  - intros web L. split; reflexivity.
Qed.

Lemma decoder_unquotes_media_url_again_witness :
  info_media_url (parse_curefit_url (L := py offline) (JStr Sample.twice_encoded_url))
  = Some "https://cdn/a b.mp3"
  /\ info_session_title
       (parse_curefit_url (L := py offline) (JStr Sample.twice_encoded_url))
     = Some "Deep%20Calm".
Proof.
  destruct (proj1 decoder_unquotes_media_url_again (py offline)
              Sample.twice_encoded_url eq_refl) as (Hurl & Htitle & _).
  split; [rewrite Hurl | rewrite Htitle]; reflexivity.
Defined.

(** ** De-duplication within one item *)

(** C2. Of two references to one url, the first with a generic title (one
    that starts with the word session, in any case, as the placeholder
    Session does) and the second with a title that is not generic,
    de-duplication keeps the second, in whichever order the two were
    found. *)
Theorem dedup_descriptive_title_wins (a b : entry) (ta tb : string) :
  cdn_url a = cdn_url b ->
  session_title a = JStr ta ->
  session_title b = JStr tb ->
  generic_title ta = true ->
  generic_title tb = false ->
  dedup_entries [a; b] = Ok [b] /\ dedup_entries [b; a] = Ok [b].
Proof.
  intros Hurl Ha Hb Hga Hgb.
  unfold generic_title in Hga, Hgb.
  unfold dedup_entries; simpl.
  rewrite Hurl, String.eqb_refl, Ha, Hb. simpl.
  rewrite Hga, Hgb. simpl.
  split; reflexivity.
Qed.

Lemma dedup_descriptive_title_wins_witness :
  dedup_entries [Sample.generic_ref; Sample.descriptive_ref]
  = Ok [Sample.descriptive_ref]
  /\ dedup_entries [Sample.descriptive_ref; Sample.generic_ref]
     = Ok [Sample.descriptive_ref].
Proof.
  apply (dedup_descriptive_title_wins Sample.generic_ref Sample.descriptive_ref
           "Session" "Deep Relaxation"); reflexivity.
Defined.

(** ** The tree walker *)

Section ExtendEach.

Context {A : Type}.


(** The accumulator only ever grows at its end. *)
Lemma extend_each_acc (f : A -> result (list entry)) (xs : list A) :
  forall acc,
    extend_each f xs acc
    = rbind (extend_each f xs []) (fun found => Ok (acc ++ found)%list).
Proof.
  induction xs as [|x xs IH]; intros acc; simpl.
  - now rewrite app_nil_r.
  - destruct (f x) as [r|e]; simpl; [|reflexivity].
    rewrite (IH (acc ++ r)%list), (IH r).
    destruct (extend_each f xs []) as [r'|e]; simpl; [|reflexivity].
    now rewrite app_assoc.
Qed.

End ExtendEach.

Section Walker.

Context {L : PyLib}.


(** How the walk of a mapping node unfolds: its own reference, then the
    walks of its values in order, each given the inherited title when that
    is truthy and the title of the node otherwise. *)
Lemma walker_dict (frames : nat) (d : dict) (section : string)
    (pack_title pack_desc inherited : json) :
  collect_media_recursive (S frames) (JDict d) section pack_title pack_desc inherited
  = (own <- node_entry d section pack_title pack_desc inherited ;;
     below <- extend_each
                (fun v => collect_media_recursive frames v section pack_title pack_desc
                            (if truthy inherited then inherited else get "title" d))
                (values d) [] ;;
     Ok (own ++ below)%list)%result.
Proof.
  cbn [collect_media_recursive].
  destruct (node_entry d section pack_title pack_desc inherited) as [own|e];
    [|reflexivity].
  simpl. apply extend_each_acc.
Qed.

End Walker.

(** C4. Walked with no inherited title, the mapping of the specification
    yields exactly two references, in document order: the first titled
    Outer, audio, the second titled Inner, video. *)
Theorem walker_outer_inner (web : string -> option string)
    (section pack_title : string) (pack_desc : json) :
  collect_media_recursive (L := py web) (recursion_limit (PyLib := py web))
    Sample.outer_inner section (JStr pack_title) pack_desc JNull
  = Ok [mk_entry section (JStr pack_title) pack_desc (JStr "Outer") "audio" "a.mp3"
          (out_root ++ "/" ++ sanitize section ++ "/" ++ sanitize pack_title
             ++ "/" ++ "Outer.mp3");
        mk_entry section (JStr pack_title) pack_desc (JStr "Inner") "video" "b.mp4"
          (out_root ++ "/" ++ sanitize section ++ "/" ++ sanitize pack_title
             ++ "/" ++ "Inner.mp4")].
Proof. reflexivity. Qed.

(** C3, as the code has it. Into the values of a mapping node the walker
    passes the title it inherited when that is truthy, and the title of the
    node only when it inherited none; so below a titled mapping that lies
    inside another titled mapping, a reference with no title of its own
    takes the title of the outer one. *)
Theorem walker_keeps_inherited_title (L : PyLib) :
  (forall frames d section pack_title pack_desc inherited,
      collect_media_recursive (S frames) (JDict d) section pack_title pack_desc
        inherited
      = (own <- node_entry d section pack_title pack_desc inherited ;;
         below <- extend_each
                    (fun v =>
                       collect_media_recursive frames v section pack_title pack_desc
                         (if truthy inherited then inherited else get "title" d))
                    (values d) [] ;;
         Ok (own ++ below)%list)%result)
  /\ (forall frames outer inner url section pack_title pack_desc es,
         outer <> "" ->
         collect_media_recursive frames (Sample.titled_twice outer inner url) section
           pack_title pack_desc JNull = Ok es ->
         List.map session_title es = [JStr outer]
         /\ List.map cdn_url es = [url]).
Proof.
  split; [intros; apply walker_dict|].
  intros frames outer inner url section pt pd es Houter.
  destruct outer as [|c outer]; [contradiction|].
  unfold Sample.titled_twice.
  do 5 (destruct frames as [|frames];
        [cbn -[build_local_path];
         try destruct (build_local_path section pt (JStr (String c outer)) url);
         intros H; discriminate H|]).
  cbn -[build_local_path].
  destruct (build_local_path section pt (JStr (String c outer)) url) as [p|e];
    [|intros H; discriminate H].
  cbn. intros H. injection H as <-. split; reflexivity.
Qed.

Lemma walker_keeps_inherited_title_witness :
  List.map session_title
    [mk_entry "Sleep" (JStr "Pack") (JStr "d") (JStr "Outer") "audio" "a.mp3"
       "media/Sleep/Pack/Outer.mp3"]
  = [JStr "Outer"]
  /\ List.map cdn_url
       [mk_entry "Sleep" (JStr "Pack") (JStr "d") (JStr "Outer") "audio" "a.mp3"
          "media/Sleep/Pack/Outer.mp3"]
     = ["a.mp3"].
Proof.
  apply (proj2 (walker_keeps_inherited_title (py offline)) 1000
           "Outer" "Inner" "a.mp3" "Sleep" (JStr "Pack") (JStr "d")).
  - discriminate.
  - reflexivity.
Defined.

(** C3, as the specification has it, fails: the reference below the mapping
    titled Inner is titled Outer. *)
Lemma walker_deeper_title_ignored :
  collect_media_recursive (L := py offline) 1000
    (Sample.titled_twice "Outer" "Inner" "a.mp3") "Sleep" (JStr "Pack") (JStr "d")
    JNull
  = Ok [mk_entry "Sleep" (JStr "Pack") (JStr "d") (JStr "Outer") "audio" "a.mp3"
          "media/Sleep/Pack/Outer.mp3"].
Proof. reflexivity. Qed.

(** ** The media of one item before de-duplication *)

Section ItemOrder.

Context {L : PyLib}.

(** The two accumulators of the scan only grow at their ends. *)
Lemma scan_content_list_acc (contents : list json) (section : string)
    (pack_title pack_desc : json) :
  forall idx media_items sources,
    scan_content_list idx contents section pack_title pack_desc media_items sources
    = rbind (scan_content_list idx contents section pack_title pack_desc [] [])
        (fun found => Ok ((media_items ++ fst found)%list,
                          (sources ++ snd found)%list)).
Proof.
  induction contents as [|content rest IH]; intros idx m s.
  - simpl. now rewrite !app_nil_r.
  - destruct content; try (simpl; apply IH).
    cbn [scan_content_list].
    destruct (has_key "playAction" d).
    { rewrite IH. rewrite (IH _ [] ([] ++ _)%list).
      destruct (scan_content_list (S idx) rest section pack_title pack_desc [] [])
        as [[m' s']|e]; simpl; [|reflexivity].
      now rewrite <- app_assoc. }
    destruct (truthy (url_field d)); [|apply IH].
    destruct (url_field d); try reflexivity.
    destruct (build_local_path _ _ _ _) as [p|e]; simpl; [|reflexivity].
    rewrite IH. rewrite (IH _ [_] []).
    destruct (scan_content_list (S idx) rest section pack_title pack_desc [] [])
      as [[m' s']|e]; simpl; [|reflexivity].
    now rewrite <- app_assoc.
Qed.

Lemma scan_content_acc (content_field : json) (section : string)
    (pack_title pack_desc : json) (media_items : list entry) (sources : list source) :
  scan_content content_field section pack_title pack_desc media_items sources
  = rbind (scan_content content_field section pack_title pack_desc [] [])
      (fun found => Ok ((media_items ++ fst found)%list, (sources ++ snd found)%list)).
Proof.
  destruct content_field; simpl; rewrite ?app_nil_r; try reflexivity.
  - apply scan_content_list_acc.
  - unfold scan_content_dict.
    destruct (url_field d); simpl; rewrite ?app_nil_r; try reflexivity.
    destruct (build_local_path _ _ _ _); simpl; rewrite ?app_nil_r; reflexivity.
Qed.

(** The loop over the sources appends to what was there. *)
Lemma decode_sources_acc (sources : list source) (section : string)
    (pack_title pack_desc : json) :
  forall media_items w,
    decode_sources sources section pack_title pack_desc media_items w
    = bind (decode_sources sources section pack_title pack_desc [])
        (fun decoded => ret (media_items ++ decoded)%list) w.
Proof.
  induction sources as [|[play_url default_title] rest IH]; intros m w.
  - unfold bind, ret. simpl. now rewrite app_nil_r.
  - cbn [decode_sources].
    destruct (info_media_url (parse_curefit_url play_url)) as [media_url|];
      unfold bind, ret, lift, warned, warn_login; cbn beta.
    + destruct (build_local_path _ _ _ _) as [p|e]; [|reflexivity].
      rewrite IH, (IH ([] ++ _)%list). unfold bind, ret.
      destruct (decode_sources rest section pack_title pack_desc [] w)
        as [[d|e] w']; [|reflexivity].
      now rewrite <- app_assoc.
    + destruct (is_login_modal play_url && negb w); cbn iota beta;
        rewrite IH; unfold bind, ret; reflexivity.
Qed.

Lemma decode_sources_app (first second : list source) (section : string)
    (pack_title pack_desc : json) :
  forall w,
    decode_sources (first ++ second) section pack_title pack_desc [] w
    = bind (decode_sources first section pack_title pack_desc [])
        (fun a => bind (decode_sources second section pack_title pack_desc [])
                    (fun b => ret (a ++ b)%list)) w.
Proof.
  induction first as [|[play_url default_title] rest IH]; intros w.
  - unfold bind, ret. simpl.
    destruct (decode_sources second section pack_title pack_desc [] w) as [[b|e] w'];
      reflexivity.
  - cbn [app decode_sources].
    destruct (info_media_url (parse_curefit_url play_url)) as [media_url|];
      unfold bind, ret, lift, warned, warn_login; cbn beta.
    + destruct (build_local_path _ _ _ _) as [p|e]; [|reflexivity].
      rewrite decode_sources_acc, (decode_sources_acc rest).
      unfold bind, ret. rewrite IH. unfold bind, ret.
      destruct (decode_sources rest section pack_title pack_desc [] w) as [[a|e] w1];
        [|reflexivity].
      destruct (decode_sources second section pack_title pack_desc [] w1)
        as [[b|e] w2]; [|reflexivity].
      now rewrite app_assoc.
    + destruct (is_login_modal play_url && negb w); cbn iota beta;
        rewrite IH; unfold bind, ret; reflexivity.
Qed.

Lemma follow_link_acc (item : dict) (section : string) (pack_title pack_desc : json)
    (media_items : list entry) (w : bool) :
  follow_link item section pack_title pack_desc media_items w
  = bind (follow_link item section pack_title pack_desc [])
      (fun extra => ret (media_items ++ extra)%list) w.
Proof.
  unfold follow_link.
  destruct (link_path item); try (unfold bind, ret; now rewrite app_nil_r).
  destruct (Str.startswith s "/"); [|unfold bind, ret; now rewrite app_nil_r].
  unfold bind, ret, lift.
  destruct (urljoin BASE_URL s) as [pack_url|e]; [|reflexivity].
  destruct (extract_from_pack_detail pack_url section pack_title pack_desc w).
  reflexivity.
Qed.

End ItemOrder.

(** C1, as the code has it. The references an item yields before
    de-duplication come in this order: the direct urls found by the scan of
    the content field (steps 2 and 3), the references of the tree walker
    over the content field (step 4), the references of the detail page
    (step 5), and only then the decoded action references: the intro and
    play actions of the item (step 1) followed by the play actions nested
    in the content list (step 2). *)
Theorem item_media_order (L : PyLib) (item : dict) (section : string)
    (pack_title pack_desc : json) (w w' : bool) (items : list entry) :
  collect_item_media item section pack_title pack_desc w = (Ok items, w') ->
  exists direct nested walked extra w1 intro_play w2 nested_play,
    scan_content (get "content" item) section pack_title pack_desc [] []
    = Ok (direct, nested)
    /\ collect_media_recursive recursion_limit (get "content" item) section
         pack_title pack_desc JNull = Ok walked
    /\ follow_link item section pack_title pack_desc [] w = (Ok extra, w1)
    /\ decode_sources (item_sources item) section pack_title pack_desc [] w1
       = (Ok intro_play, w2)
    /\ decode_sources nested section pack_title pack_desc [] w2
       = (Ok nested_play, w')
    /\ items = (direct ++ walked ++ extra ++ intro_play ++ nested_play)%list.
Proof.
  unfold collect_item_media. unfold bind, lift.
  rewrite scan_content_acc.
  destruct (scan_content (get "content" item) section pack_title pack_desc [] [])
    as [[direct nested]|e] eqn:Hscan; [|discriminate].
  cbn [rbind fst snd app].
  destruct (collect_media_recursive recursion_limit (get "content" item) section
              pack_title pack_desc JNull) as [walked|e] eqn:Hwalk; [|discriminate].
  rewrite follow_link_acc. unfold bind, ret.
  destruct (follow_link item section pack_title pack_desc [] w) as [[extra|e] w1]
    eqn:Hlink; [|discriminate].
  rewrite decode_sources_acc. unfold bind, ret.
  rewrite decode_sources_app. unfold bind, ret.
  destruct (decode_sources (item_sources item) section pack_title pack_desc [] w1)
    as [[intro_play|e] w2] eqn:Htop; [|discriminate].
  destruct (decode_sources nested section pack_title pack_desc [] w2)
    as [[nested_play|e] w3] eqn:Hnested; [|discriminate].
  intros H. injection H as <- <-.
  exists direct, nested, walked, extra, w1, intro_play, w2, nested_play.
  repeat split; try assumption. now rewrite <- !app_assoc.
Qed.

Lemma item_media_order_witness :
  exists direct nested walked extra w1 intro_play w2 nested_play,
    scan_content (L := py offline) (get "content" Sample.play_and_content) "Sleep"
      (JStr "P") (JStr "") [] []
    = Ok (direct, nested)
    /\ collect_media_recursive (L := py offline)
         (recursion_limit (PyLib := py offline))
         (get "content" Sample.play_and_content) "Sleep" (JStr "P") (JStr "") JNull
       = Ok walked
    /\ follow_link (L := py offline) Sample.play_and_content "Sleep" (JStr "P")
         (JStr "") [] false = (Ok extra, w1)
    /\ decode_sources (L := py offline) (item_sources Sample.play_and_content)
         "Sleep" (JStr "P") (JStr "") [] w1 = (Ok intro_play, w2)
    /\ decode_sources (L := py offline) nested "Sleep" (JStr "P") (JStr "") [] w2
       = (Ok nested_play, false)
    /\ [mk_entry "Sleep" (JStr "P") (JStr "") (JStr "Session") "audio"
          "https://cdn/b.mp3" "media/Sleep/P/Session.mp3";
        mk_entry "Sleep" (JStr "P") (JStr "") (JStr "Session") "audio"
          "https://cdn/b.mp3" "media/Sleep/P/Session.mp3";
        mk_entry "Sleep" (JStr "P") (JStr "") (JStr "Main") "audio"
          "https://cdn/a.mp3" "media/Sleep/P/Main.mp3"]
       = (direct ++ walked ++ extra ++ intro_play ++ nested_play)%list.
Proof.
  apply (item_media_order (py offline) Sample.play_and_content "Sleep" (JStr "P")
           (JStr "") false false).
  reflexivity.
Defined.

(** C1, as the specification has it, fails: the reference of the play
    action (step 1, titled Main) comes after the two references found in
    the content field (steps 3 and 4). *)
Lemma play_action_decoded_last :
  collect_item_media (L := py offline) Sample.play_and_content "Sleep" (JStr "P")
    (JStr "") false
  = (Ok [mk_entry "Sleep" (JStr "P") (JStr "") (JStr "Session") "audio"
           "https://cdn/b.mp3" "media/Sleep/P/Session.mp3";
         mk_entry "Sleep" (JStr "P") (JStr "") (JStr "Session") "audio"
           "https://cdn/b.mp3" "media/Sleep/P/Session.mp3";
         mk_entry "Sleep" (JStr "P") (JStr "") (JStr "Main") "audio"
           "https://cdn/a.mp3" "media/Sleep/P/Main.mp3"],
     false).
Proof. reflexivity. Qed.

(** ** The detail page of an item *)

Section Detail.

Context {L : PyLib}.






End Detail.

(** ** De-duplication and the flat list *)

Lemma dedup_find_none (url : string) (dedup : list (string * entry)) :
  dedup_find url dedup = None -> ~ In url (List.map fst dedup).
Proof.
  induction dedup as [|[k e] rest IH]; simpl; [tauto|].
  destruct (String.eqb_spec k url) as [->|Hne]; [discriminate|].
  intros H [Hk|Hin]; [contradiction | now apply IH].
Qed.

Lemma dedup_replace_keys (url : string) (e : entry) (dedup : list (string * entry)) :
  List.map fst (dedup_replace url e dedup) = List.map fst dedup.
Proof.
  induction dedup as [|[k old] rest IH]; simpl; [reflexivity|].
  destruct (k =? url); simpl; [reflexivity | now rewrite IH].
Qed.

Lemma dedup_replace_keyed (e : entry) (dedup : list (string * entry)) :
  keyed dedup -> keyed (dedup_replace (cdn_url e) e dedup).
Proof.
  intros [Hnd Hall]. split; [now rewrite dedup_replace_keys|].
  clear Hnd. induction Hall as [|[k old] rest Hk Hrest IH]; simpl; [constructor|].
  destruct (String.eqb_spec k (cdn_url e)) as [->|Hne].
  - constructor; [reflexivity | assumption].
  - constructor; assumption.
Qed.

Lemma dedup_add_keyed (e : entry) (dedup : list (string * entry)) :
  keyed dedup -> dedup_find (cdn_url e) dedup = None ->
  keyed (dedup ++ [(cdn_url e, e)])%list.
Proof.
  intros [Hnd Hall] Hnone. split.
  - rewrite map_app. simpl.
    apply NoDup_app; [assumption | repeat constructor; simpl; tauto |].
    intros x Hx [<-|[]]. now apply (dedup_find_none _ _ Hnone).
  - apply Forall_app. split; [assumption | now constructor].
Qed.

Lemma dedup_loop_keyed (media_items : list entry) :
  forall dedup out,
    keyed dedup -> dedup_loop media_items dedup = Ok out -> keyed out.
Proof.
  induction media_items as [|e rest IH]; intros dedup out Hk; simpl.
  - now intros [= <-].
  - destruct (dedup_find (cdn_url e) dedup) as [prev|] eqn:Hfind.
    + destruct (title_lower (session_title prev)) as [pt|x]; [|discriminate].
      destruct (title_lower (session_title e)) as [nt|x]; [|discriminate].
      simpl.
      destruct (Str.startswith pt "session" && negb (Str.startswith nt "session")).
      * apply IH. now apply dedup_replace_keyed.
      * now apply IH.
    + apply IH. now apply dedup_add_keyed.
Qed.

(** What an item resolves to holds no url twice. *)
Lemma dedup_entries_nodup (media_items out : list entry) :
  dedup_entries media_items = Ok out -> NoDup (List.map cdn_url out).
Proof.
  unfold dedup_entries.
  destruct (dedup_loop media_items []) as [dedup|e] eqn:Hloop; [|discriminate].
  simpl. intros [= <-].
  destruct (dedup_loop_keyed media_items [] dedup) as [Hnd Hall];
    [split; constructor | assumption |].
  replace (List.map cdn_url (List.map snd dedup)) with (List.map fst dedup);
    [assumption|].
  clear Hnd Hloop. induction Hall as [|ke rest Hk _ IH]; simpl; [reflexivity|].
  now rewrite IH, Hk.
Qed.

Section FlatList.

Context {L : PyLib}.

Lemma item_media_nodup (item : dict) (section : string) (pack_title pack_desc : json)
    (w w' : bool) (l : list entry) :
  extract_media_from_item item section pack_title pack_desc w = (Ok l, w') ->
  NoDup (List.map cdn_url l).
Proof.
  unfold extract_media_from_item, bind, lift.
  destruct (collect_item_media item section pack_title pack_desc w) as [[items|e] w1];
    [|discriminate].
  intros [= H _]. now apply (dedup_entries_nodup items).
Qed.

Lemma discover_sections_media (c c' : crawler) :
  discover_sections c = Ok c' -> media_items c' = media_items c.
Proof.
  unfold discover_sections.
  destruct (http_get MAIN_MINDLIVE_URL) as [text|]; [|now intros [= <-]].
  destruct (section_links (select_hrefs text) []) as [found|e]; [|discriminate].
  simpl. now intros [= <-].
Qed.

End FlatList.

(** ** The state extractor *)

Section StringFacts.

Lemma skip_app (a b : string) : Str.skip (String.length a) (a ++ b) = b.
Proof. induction a as [|c a IH]; simpl; [reflexivity | exact IH]. Qed.

Lemma take_app (a b : string) : Str.take (String.length a) (a ++ b) = a.
Proof. induction a as [|c a IH]; simpl; [now destruct b | now rewrite IH]. Qed.

Lemma skip_skip (n m : nat) (s : string) :
  Str.skip n (Str.skip m s) = Str.skip (m + n) s.
Proof.
  revert s. induction m as [|m IH]; intros s; simpl; [reflexivity|].
  destruct s as [|c s]; [now destruct n | apply IH].
Qed.

Lemma prefix_app (a b : string) : prefix a (a ++ b) = true.
Proof.
  induction a as [|c a IH]; simpl; [now destruct b|].
  destruct (ascii_dec c c); [exact IH | contradiction].
Qed.

(** Where [find] finds the text, the text is; before that, it is not. *)
Lemma find_here (sub s : string) (n : nat) :
  Str.find sub s = Some n -> prefix sub (Str.skip n s) = true.
Proof.
  revert n. induction s as [|c s IH]; intros n; cbn [Str.find].
  - destruct (prefix sub "") eqn:Hp; [|discriminate].
    intros [= <-]. exact Hp.
  - destruct (prefix sub (String c s)) eqn:Hp.
    + intros [= <-]. exact Hp.
    + destruct (Str.find sub s) as [m|]; [|discriminate].
      intros [= <-]. cbn [Str.skip]. now apply IH.
Qed.

Lemma find_first (sub s : string) (n : nat) :
  Str.find sub s = Some n ->
  forall p, p < n -> prefix sub (Str.skip p s) = false.
Proof.
  revert n. induction s as [|c s IH]; intros n; cbn [Str.find].
  - destruct (prefix sub ""); [intros [= <-]; lia | discriminate].
  - destruct (prefix sub (String c s)) eqn:Hp; [intros [= <-]; lia|].
    destruct (Str.find sub s) as [m|] eqn:Hm; [|discriminate].
    intros [= <-] [|p] Hlt; cbn [Str.skip]; [exact Hp|].
    apply (IH m eq_refl). lia.
Qed.

Lemma found_after (sub s : string) (n : nat) :
  prefix sub (Str.skip n s) = true -> Str.contains sub s = true.
Proof.
  unfold Str.contains. revert s. induction n as [|n IH]; intros s H.
  - cbn [Str.skip] in H. destruct s; cbn [Str.find]; now rewrite H.
  - destruct s as [|c s]; cbn [Str.skip] in H; cbn [Str.find].
    + now rewrite H.
    + destruct (prefix sub (String c s)); [reflexivity|].
      specialize (IH s H). now destruct (Str.find sub s).
Qed.

(** A text that does not hold [old] is left as it is. *)
Lemma replace_absent (old new s : string) :
  Str.contains old s = false -> Str.replace old new s = s.
Proof.
  unfold Str.contains, Str.replace.
  induction s as [|c s IH]; [reflexivity|].
  cbn [Str.find Str.replace_from].
  destruct (prefix old (String c s)); [discriminate|].
  destruct (Str.find old s); [discriminate|].
  intros _. now rewrite IH.
Qed.

Lemma spaces_all (ws : string) (c : ascii) (r : string) :
  Str.lstrip Str.is_space ws = "" -> Str.is_space c = false ->
  spaces (ws ++ String c r) = String.length ws.
Proof.
  intros Hws Hc. induction ws as [|x ws IH]; simpl in *.
  - now rewrite Hc.
  - destruct (Str.is_space x); [now rewrite IH | discriminate].
Qed.

End StringFacts.

Section BraceScan.

(** The scan stops where it stops, whatever follows. *)
Lemma scan_braces_app (s rest : string) :
  forall count pos n,
    scan_braces s count pos = Some n -> scan_braces (s ++ rest) count pos = Some n.
Proof.
  induction s as [|c s IH]; intros count pos n; simpl; [discriminate|].
  destruct (Ascii.eqb c "{"); [apply IH|].
  destruct (Ascii.eqb c "}"); [|apply IH].
  destruct (count - 1 =? 0)%Z; [trivial | apply IH].
Qed.

Lemma scan_braces_from (s : string) :
  forall count pos n,
    scan_braces s count O = Some n -> scan_braces s count pos = Some (pos + n).
Proof.
  assert (H : forall count p q n,
             scan_braces s count q = Some n ->
             scan_braces s count (p + q) = Some (p + n)).
  { induction s as [|c s IH]; intros count p q n; simpl; [discriminate|].
    rewrite <- (Nat.add_succ_r p q).
    destruct (Ascii.eqb c "{"); [apply IH|].
    destruct (Ascii.eqb c "}"); [|apply IH].
    destruct (count - 1 =? 0)%Z; [|apply IH].
    intros [= <-]. reflexivity. }
  intros count pos n Hn. specialize (H count pos O n Hn).
  now rewrite Nat.add_0_r in H.
Qed.

End BraceScan.

Section Search.

(** With no match at the first [n] positions, the search goes on from the
    [n]-th. *)
Lemma search_assignment_from (n : nat) :
  forall s,
    n <= String.length s ->
    (forall p, p < n -> match_assignment (Str.skip p s) = None) ->
    search_assignment s = option_map (Nat.add n) (search_assignment (Str.skip n s)).
Proof.
  induction n as [|n IH]; intros s Hlen Hnone.
  - simpl. now destruct (search_assignment s).
  - destruct s as [|c s]; [simpl in Hlen; lia|].
    cbn [search_assignment Str.skip].
    pose proof (Hnone O ltac:(lia)) as H0. cbn [Str.skip] in H0. rewrite H0.
    rewrite (IH s).
    + destruct (search_assignment (Str.skip n s)); reflexivity.
    + simpl in Hlen. lia.
    + intros p Hp. apply (Hnone (S p)). lia.
Qed.

Lemma match_assignment_needs_target (s : string) :
  prefix state_target s = false -> match_assignment s = None.
Proof. unfold match_assignment. now intros ->. Qed.

Lemma search_assignment_here (s : string) (i : nat) :
  match_assignment s = Some i -> search_assignment s = Some i.
Proof. destruct s; cbn [search_assignment]; now intros ->. Qed.

(** The pattern at the start of an assignment. *)
Lemma match_assignment_at (ws1 ws2 tail : string) :
  Str.lstrip Str.is_space ws1 = "" ->
  Str.lstrip Str.is_space ws2 = "" ->
  match_assignment (state_target ++ ws1 ++ "=" ++ ws2 ++ String "{" tail)
  = Some (String.length state_target + String.length ws1 + 1 + String.length ws2).
Proof.
  intros H1 H2. unfold match_assignment.
  rewrite prefix_app.
  rewrite (skip_app state_target).
  change ("=" ++ ws2 ++ String "{" tail) with (String "=" (ws2 ++ String "{" tail)).
  rewrite (spaces_all ws1 "=" _ H1 eq_refl).
  rewrite <- skip_skip, (skip_app state_target), skip_app.
  rewrite (spaces_all ws2 "{" _ H2 eq_refl), skip_app.
  reflexivity.
Qed.

End Search.

Section Extractor.

Context {L : PyLib}.

Lemma length_app (a b : string) :
  String.length (a ++ b) = String.length a + String.length b.
Proof. induction a as [|c a IH]; simpl; [reflexivity | now rewrite IH]. Qed.

(** Blocks that do not concern the state are passed over. *)
Lemma extract_skips_unrelated (pre rest : list (option string)) :
  Forall unrelated pre ->
  extract_from_scripts (pre ++ rest) = extract_from_scripts rest.
Proof.
  induction 1 as [|script pre Hs _ IH]; [reflexivity|].
  cbn [app extract_from_scripts].
  destruct script as [t|]; [|exact IH].
  simpl in Hs. rewrite Hs, orb_true_r. exact IH.
Qed.

(** What the loop does with a block in which the first mention of the
    target is an assignment of [obj]. *)
Lemma extract_at_assignment (before ws1 ws2 obj rest : string)
    (others : list (option string)) :
  let stext := before ++ state_target ++ ws1 ++ "=" ++ ws2 ++ obj ++ rest in
  Str.find state_target stext = Some (String.length before) ->
  Str.lstrip Str.is_space ws1 = "" ->
  Str.lstrip Str.is_space ws2 = "" ->
  Str.startswith obj "{" = true ->
  scan_braces obj 0%Z O = Some (String.length obj) ->
  extract_from_scripts (Some stext :: others)
  = match json_loads (Str.replace "undefined" "null" obj) with
    | Ok v => Ok (Some v)
    | Raise JSONDecodeError => extract_from_scripts others
    | Raise e => Raise e
    end.
Proof.
  intros stext Hfind Hws1 Hws2 Hbrace Hscan.
  destruct obj as [|c obj']; [discriminate|].
  unfold Str.startswith in Hbrace. apply prefix_correct in Hbrace.
  cbn [String.length substring] in Hbrace. injection Hbrace as -> _.
  set (obj := String "{" obj') in *.
  set (k := String.length state_target + String.length ws1 + 1 + String.length ws2).
  assert (Hhere : Str.skip (String.length before) stext
                  = state_target ++ ws1 ++ "=" ++ ws2 ++ obj ++ rest)
    by apply skip_app.
  assert (Hobj : Str.skip (String.length before + k) stext = obj ++ rest).
  { rewrite <- skip_skip, Hhere. unfold k.
    rewrite <- !skip_skip, (skip_app state_target), skip_app.
    change ("=" ++ ws2 ++ obj ++ rest) with (String "=" (ws2 ++ obj ++ rest)).
    cbn [Str.skip]. apply skip_app. }
  assert (Hsearch : search_assignment stext = Some (String.length before + k)).
  { rewrite (search_assignment_from (String.length before)).
    - rewrite Hhere.
      rewrite (search_assignment_here _ k); [reflexivity|].
      apply (match_assignment_at ws1 ws2 (obj' ++ rest) Hws1 Hws2).
    - unfold stext. rewrite length_app. lia.
    - intros p Hp. apply match_assignment_needs_target.
      now apply (find_first _ _ _ Hfind). }
  assert (Hmarker : Str.contains state_marker stext = true).
  { apply (found_after _ _ (String.length before + 7)).
    rewrite <- skip_skip, Hhere. unfold state_target, state_marker.
    cbn [append Str.skip]. apply (prefix_app "__PRELOADED_STATE__"). }
  assert (Hnonempty : (stext =? "") = false).
  { apply String.eqb_neq. intros Hempty.
    rewrite Hempty in Hfind. destruct before; discriminate. }
  cbn [extract_from_scripts].
  rewrite Hnonempty, Hmarker, Hsearch, Hobj. cbn [orb negb].
  rewrite (scan_braces_from _ _ (String.length before + k) _
             (scan_braces_app _ rest _ _ _ Hscan)).
  replace (String.length before + k + String.length obj - (String.length before + k))
    with (String.length obj) by lia.
  now rewrite take_app.
Qed.

End Extractor.

(** ** Further properties of the state extractor *)

Section ExtractorMore.

Context {L : PyLib}.

(** The count kept by the scan is the balance of what it has read. *)
Lemma scan_braces_balance (s : string) :
  forall count pos n,
    scan_braces s count pos = Some n ->
    exists k,
      n = pos + k /\ 0 < k <= String.length s
      /\ (count + balance (Str.take k s))%Z = 0%Z
      /\ ((0 < count)%Z ->
          forall m, m < k -> (0 < count + balance (Str.take m s))%Z).
Proof.
  induction s as [|c s IH]; intros count pos n; cbn [scan_braces]; [discriminate|].
  assert (Hstep : forall count', 
             (count' = count + (if Ascii.eqb c "{" then 1
                                else if Ascii.eqb c "}" then -1 else 0))%Z ->
             ((0 < count)%Z -> (0 < count')%Z) ->
             scan_braces s count' (S pos) = Some n ->
             exists k,
               n = pos + k /\ 0 < k <= String.length (String c s)
               /\ (count + balance (Str.take k (String c s)))%Z = 0%Z
               /\ ((0 < count)%Z ->
                   forall m, m < k ->
                             (0 < count + balance (Str.take m (String c s)))%Z)).
  { intros count' Hc Hpos H.
    destruct (IH _ _ _ H) as (k & -> & Hk & Hbal & Hmin).
    exists (S k). cbn [Str.take balance String.length].
    repeat split; try lia.
    intros Hcount [|m] Hm; cbn [Str.take balance]; [lia|].
    specialize (Hmin (Hpos Hcount) m ltac:(lia)). lia. }
  destruct (Ascii.eqb c "{") eqn:Hopen.
  { apply Hstep; [reflexivity | lia]. }
  destruct (Ascii.eqb c "}") eqn:Hclose.
  - destruct (count - 1 =? 0)%Z eqn:Hzero.
    + intros [= <-]. exists 1. cbn [Str.take balance String.length].
      rewrite Hopen, Hclose.
      cbn [balance].
      apply Z.eqb_eq in Hzero.
      repeat split; try lia.
      intros Hcount [|m] Hm; [cbn [Str.take balance]; lia | lia].
    + apply Z.eqb_neq in Hzero. apply Hstep; [reflexivity | lia].
  - apply Hstep; [lia | lia].
Qed.

End ExtractorMore.

(** X1. When no script block of the page mentions the marker (or the page
    has no script block), the extractor reports no state and raises
    nothing. *)
Theorem extractor_without_marker (L : PyLib) (html : string) :
  Forall unrelated (script_strings html) ->
  extract_preloaded_state html = Ok None.
Proof.
  intros H. unfold extract_preloaded_state.
  rewrite <- (app_nil_r (script_strings html)).
  now rewrite (extract_skips_unrelated _ [] H).
Qed.

Lemma extractor_without_marker_witness :
  extract_preloaded_state (L := py offline)
    (Ref.dq "<html><script src='a.js'></script><script>var x = {};</script></html>")
  = Ok None.
Proof.
  apply (extractor_without_marker (py offline)).
  vm_compute. repeat constructor.
Defined.

(** X2. What is handed to json.loads is the object text with every
    occurrence of undefined replaced by null. When that text does not parse
    (JSONDecodeError) the extractor goes on with the script blocks that
    follow, and any other exception of json.loads is raised to the
    caller. *)
Theorem extractor_reads_undefined_as_null (L : PyLib) (html : string)
    (pre post : list (option string)) (before ws1 ws2 obj rest : string) :
  script_strings html
  = (pre ++ Some (before ++ state_target ++ ws1 ++ "=" ++ ws2 ++ obj ++ rest)%string
         :: post)%list ->
  Forall unrelated pre ->
  Str.find state_target (before ++ state_target ++ ws1 ++ "=" ++ ws2 ++ obj ++ rest)
  = Some (String.length before) ->
  Str.lstrip Str.is_space ws1 = "" ->
  Str.lstrip Str.is_space ws2 = "" ->
  Str.startswith obj "{" = true ->
  scan_braces obj 0%Z O = Some (String.length obj) ->
  extract_preloaded_state html
  = match json_loads (Str.replace "undefined" "null" obj) with
    | Ok v => Ok (Some v)
    | Raise JSONDecodeError => extract_from_scripts post
    | Raise e => Raise e
    end.
Proof.
  intros Hscripts Hpre Hfind Hws1 Hws2 Hbrace Hscan.
  unfold extract_preloaded_state. rewrite Hscripts.
  rewrite (extract_skips_unrelated pre _ Hpre).
  exact (extract_at_assignment before ws1 ws2 obj rest post
           Hfind Hws1 Hws2 Hbrace Hscan).
Qed.

Lemma extractor_reads_undefined_as_null_witness :
  extract_preloaded_state (L := py offline)
    (Ref.dq "<script>window.__PRELOADED_STATE__={'a':undefined,'b':[undefined]};</script>")
  = Ok (Some (JDict [("a", JNull); ("b", JList [JNull])])).
Proof.
  apply (extractor_reads_undefined_as_null (py offline)
           (Ref.dq "<script>window.__PRELOADED_STATE__={'a':undefined,'b':[undefined]};</script>")
           [] [] "" "" "" (Ref.dq "{'a':undefined,'b':[undefined]}") ";");
    try reflexivity.
  constructor.
Defined.

(** X3. The text the brace count selects, from an opening brace on, is the
    shortest non-empty prefix in which opening and closing braces balance:
    it has as many of the one as of the other, every shorter non-empty
    prefix has more opening braces, and it lies within the text. *)
Theorem brace_scan_selects_shortest_balanced (tail : string) (end_idx : nat) :
  scan_braces (String "{" tail) 0%Z O = Some end_idx ->
  1 < end_idx <= String.length (String "{" tail)
  /\ balance (Str.take end_idx (String "{" tail)) = 0%Z
  /\ forall m, 0 < m < end_idx -> (0 < balance (Str.take m (String "{" tail)))%Z.
Proof.
  cbn [scan_braces Ascii.eqb]. change (Ascii.eqb "{" "{") with true. cbn iota.
  intros H.
  destruct (scan_braces_balance tail _ _ _ H) as (k & -> & Hk & Hbal & Hmin).
  cbn [String.length Str.take balance Nat.add].
  change (Ascii.eqb "{" "{") with true.
  cbn iota. split; [lia | split; [lia|]].
  intros [|m] Hm; [lia|].
  cbn [Str.take balance]. change (Ascii.eqb "{" "{") with true. cbn iota.
  specialize (Hmin ltac:(lia) m ltac:(lia)). lia.
Qed.

Lemma brace_scan_selects_shortest_balanced_witness :
  1 < 8 <= String.length "{a{b}{}}; x}"
  /\ balance (Str.take 8 "{a{b}{}}; x}") = 0%Z
  /\ forall m, 0 < m < 8 -> (0 < balance (Str.take m "{a{b}{}}; x}"))%Z.
Proof.
  apply (brace_scan_selects_shortest_balanced "a{b}{}}; x}" 8). reflexivity.
Defined.

(** ** Further properties of the decoder and of the tree walker *)

(** X4. The decoder returns a media type exactly when it returns a media
    url, the type is audio or video, and a value that is no string with the
    scheme prefix decodes to the empty result. *)
Theorem decoder_result_shape (L : PyLib) (v : json) :
  (info_media_url (parse_curefit_url v) = None
   <-> info_media_type (parse_curefit_url v) = None)
  /\ (forall t, info_media_type (parse_curefit_url v) = Some t ->
                t = "audio" \/ t = "video")
  /\ ((forall s, v = JStr s -> Str.startswith s "curefit://" = false) ->
      parse_curefit_url v = empty_info).
Proof.
  assert (Hshape : forall info,
             info = parse_curefit_url v ->
             (info_media_url info = None <-> info_media_type info = None)
             /\ (forall t, info_media_type info = Some t ->
                           t = "audio" \/ t = "video")).
  { intros info ->.
    destruct v; try (split; [split; reflexivity | discriminate]).
    destruct (Str.startswith s "curefit://") eqn:Hpre.
    - rewrite (parse_curefit_url_prefixed s Hpre). cbv zeta.
      destruct (param0 "absoluteAudioUrl" (parse_qs (query_of s)));
        [|destruct (param0 "absoluteVideoUrl" (parse_qs (query_of s)))];
        simpl; (split; [split; intros; try discriminate; reflexivity|]);
        intros t [= <-]; tauto.
    - simpl. rewrite Hpre. split; [split; reflexivity | discriminate]. }
  destruct (Hshape _ eq_refl) as [H1 H2].
  split; [exact H1 | split; [exact H2 | apply parse_curefit_url_other]].
Qed.

Section WalkerMore.

Context {L : PyLib}.

Lemma tree_urls_dict (d : dict) :
  tree_urls (JDict d)
  = (match direct_url url_keys d with
     | Some media_url => [media_url]
     | None => []
     end ++ flat_map tree_urls (values d))%list.
Proof.
  cbn [tree_urls]. f_equal.
  induction d as [|kv rest IH]; simpl; [reflexivity | now rewrite IH].
Qed.

Lemma tree_urls_list (l : list json) :
  tree_urls (JList l) = flat_map tree_urls l.
Proof.
  cbn [tree_urls].
  induction l as [|x rest IH]; simpl; [reflexivity | now rewrite IH].
Qed.

(** The reference of a node: its url is the direct url of the node, its
    type follows from the url. *)
Lemma node_entry_urls (d : dict) (section : string)
    (pack_title pack_desc inherited : json) (own : list entry) :
  node_entry d section pack_title pack_desc inherited = Ok own ->
  List.map cdn_url own
  = match direct_url url_keys d with Some u => [u] | None => [] end
  /\ Forall (fun e => media_type e = media_type_of (cdn_url e)) own.
Proof.
  unfold node_entry.
  destruct (direct_url url_keys d) as [u|]; [|intros [= <-]; now split].
  destruct (build_local_path _ _ _ _) as [p|e]; [|discriminate].
  simpl. intros [= <-]. split; [reflexivity | now repeat constructor].
Qed.

Lemma extend_each_urls (f : json -> result (list entry)) (xs : list json) :
  (forall x es, f x = Ok es ->
                List.map cdn_url es = tree_urls x
                /\ Forall (fun e => media_type e = media_type_of (cdn_url e)) es) ->
  forall acc es,
    extend_each f xs acc = Ok es ->
    exists found,
      es = (acc ++ found)%list
      /\ List.map cdn_url found = flat_map tree_urls xs
      /\ Forall (fun e => media_type e = media_type_of (cdn_url e)) found.
Proof.
  intros Hf. induction xs as [|x xs IH]; intros acc es; simpl.
  - intros [= <-]. exists []. rewrite app_nil_r. repeat split. constructor.
  - destruct (f x) as [r|e] eqn:Hx; [|discriminate]. simpl. intros H.
    destruct (IH _ _ H) as (found & -> & Hurls & Htypes).
    destruct (Hf x r Hx) as [Hr Hrt].
    exists (r ++ found)%list. rewrite app_assoc, map_app, Hr, Hurls.
    repeat split. apply Forall_app. now split.
Qed.

Lemma walker_urls (frames : nat) :
  forall node section pack_title pack_desc inherited es,
    collect_media_recursive frames node section pack_title pack_desc inherited = Ok es ->
    List.map cdn_url es = tree_urls node
    /\ Forall (fun e => media_type e = media_type_of (cdn_url e)) es.
Proof.
  induction frames as [|frames IH]; intros node section pt pd inh es;
    [discriminate|].
  destruct node; try (intros [= <-]; split; [reflexivity | constructor]).
  - cbn [collect_media_recursive]. intros H.
    apply (extend_each_urls _ l) in H; [|intros x r; apply IH].
    destruct H as (found & -> & Hurls & Htypes).
    now rewrite tree_urls_list.
  - cbn [collect_media_recursive].
    destruct (node_entry d section pt pd inh) as [own|e] eqn:Hown; [|discriminate].
    cbn [rbind]. intros H.
    apply (extend_each_urls _ (values d)) in H; [|intros x r; apply IH].
    destruct H as (found & -> & Hurls & Htypes).
    destruct (node_entry_urls _ _ _ _ _ _ Hown) as [Hu Ht].
    rewrite tree_urls_dict, map_app, Hu, Hurls.
    split; [reflexivity | apply Forall_app; now split].
Qed.

End WalkerMore.

(** X5. Whenever the walker returns, it has emitted one reference for every
    mapping that holds a string under downloadUrl, absoluteUrl or URL (the
    first of these keys that does), and nothing else, in document order: a
    mapping before its values, values and list elements in their order.
    The type of each reference is audio when its url ends in .mp3 and
    video otherwise. *)
Theorem walker_emits_tree_urls (L : PyLib) (frames : nat) (node : json)
    (section : string) (pack_title pack_desc inherited : json) (es : list entry) :
  collect_media_recursive frames node section pack_title pack_desc inherited = Ok es ->
  List.map cdn_url es = tree_urls node
  /\ Forall (fun e => media_type e = media_type_of (cdn_url e)) es.
Proof. apply walker_urls. Qed.

Lemma walker_emits_tree_urls_witness :
  List.map cdn_url
    [mk_entry "Sleep" (JStr "Pack") (JStr "d") (JStr "Outer") "audio" "a.mp3"
       "media/Sleep/Pack/Outer.mp3";
     mk_entry "Sleep" (JStr "Pack") (JStr "d") (JStr "Inner") "video" "b.mp4"
       "media/Sleep/Pack/Inner.mp4"]
  = tree_urls Sample.outer_inner
  /\ Forall (fun e => media_type e = media_type_of (cdn_url e))
       [mk_entry "Sleep" (JStr "Pack") (JStr "d") (JStr "Outer") "audio" "a.mp3"
          "media/Sleep/Pack/Outer.mp3";
        mk_entry "Sleep" (JStr "Pack") (JStr "d") (JStr "Inner") "video" "b.mp4"
          "media/Sleep/Pack/Inner.mp4"].
Proof.
  apply (walker_emits_tree_urls (py offline) 1000 Sample.outer_inner "Sleep"
           (JStr "Pack") (JStr "d") JNull).
  reflexivity.
Defined.

(** ** Further properties of discovery and of the crawl *)

Section CrawlMore.

Context {L : PyLib}.

Lemma crawl_sections_app (first second : list (string * string)) :
  forall c,
    crawl_sections (first ++ second) c
    = rbind (crawl_sections first c) (crawl_sections second).
Proof.
  induction first as [|sec rest IH]; intros c; simpl; [reflexivity|].
  destruct (crawl_section sec c) as [c1|e]; simpl; [apply IH | reflexivity].
Qed.

Lemma crawl_section_nothing (name url : string) (c : crawler) :
  nothing_to_crawl url -> crawl_section (name, url) c = Ok c.
Proof.
  unfold crawl_section.
  intros [-> | (text & -> & [-> | (d & -> & Hkey)])]; try reflexivity.
  simpl. destruct (match d with [] => false | _ => true end); [|reflexivity].
  simpl. now rewrite Hkey.
Qed.

Lemma uniq_put_keys (url : string) (s : string * string)
    (uniq : list (string * (string * string))) :
  List.map fst (uniq_put url s uniq)
  = if existsb (String.eqb url) (List.map fst uniq) then List.map fst uniq
    else (List.map fst uniq ++ [url])%list.
Proof.
  induction uniq as [|[k old] rest IH]; simpl; [reflexivity|].
  rewrite (String.eqb_sym url k).
  destruct (k =? url); simpl; [reflexivity|].
  rewrite IH. now destruct (existsb (String.eqb url) (List.map fst rest)).
Qed.

Lemma uniq_put_keyed (s : string * string)
    (uniq : list (string * (string * string))) :
  uniq_keyed uniq -> uniq_keyed (uniq_put (snd s) s uniq).
Proof.
  intros [Hnd Hall]. split.
  - rewrite uniq_put_keys.
    destruct (existsb (String.eqb (snd s)) (List.map fst uniq)) eqn:Hin;
      [assumption|].
    apply NoDup_app; [assumption | repeat constructor; simpl; tauto |].
    intros x Hx [<-|[]].
    assert (Hex : existsb (String.eqb (snd s)) (List.map fst uniq) = true).
    { apply existsb_exists. exists (snd s). split; [assumption|].
      apply String.eqb_refl. }
    congruence.
  - clear Hnd. induction Hall as [|[k old] rest Hk Hrest IH]; simpl.
    + now repeat constructor.
    + destruct (String.eqb_spec k (snd s)) as [->|Hne];
        constructor; try assumption; reflexivity.
Qed.

Lemma uniq_fold_keyed (found : list (string * string)) :
  forall uniq,
    uniq_keyed uniq ->
    uniq_keyed (fold_left (fun u s => uniq_put (snd s) s u) found uniq).
Proof.
  induction found as [|s rest IH]; intros uniq Hk; simpl; [assumption|].
  apply IH. now apply uniq_put_keyed.
Qed.

Lemma uniq_keyed_urls (uniq : list (string * (string * string))) :
  uniq_keyed uniq -> NoDup (List.map snd (List.map snd uniq)).
Proof.
  intros [Hnd Hall].
  replace (List.map snd (List.map snd uniq)) with (List.map fst uniq); [assumption|].
  clear Hnd. induction Hall as [|kv rest Hk _ IH]; simpl; [reflexivity|].
  now rewrite IH, Hk.
Qed.

End CrawlMore.

(** X6. A section whose page cannot be fetched, or whose page holds no
    state, or a state without the key cultDIYPackBrowse, is passed over:
    the crawl of the sections gives what it gives without that section,
    and the sections before and after it are crawled all the same. *)
Theorem crawl_passes_over_section (L : PyLib) (before after : list (string * string))
    (name url : string) (c : crawler) :
  nothing_to_crawl url ->
  crawl_sections (before ++ (name, url) :: after) c
  = crawl_sections (before ++ after) c.
Proof.
  intros H. rewrite !crawl_sections_app.
  destruct (crawl_sections before c) as [c1|e]; [|reflexivity].
  cbn [rbind crawl_sections]. now rewrite (crawl_section_nothing name url c1 H).
Qed.

Lemma crawl_passes_over_section_witness :
  crawl_sections (L := py Sample.two_pack_site)
    ([("Gone", "https://www.cult.fit/live/mindfulness/gone")]
     ++ ("Other", MAIN_MINDLIVE_URL)
     :: [("Sleep", "https://www.cult.fit/live/mindfulness/sleep-stories")])
    new_crawler
  = crawl_sections (L := py Sample.two_pack_site)
      ([("Gone", "https://www.cult.fit/live/mindfulness/gone")]
       ++ [("Sleep", "https://www.cult.fit/live/mindfulness/sleep-stories")])
      new_crawler.
Proof.
  apply (crawl_passes_over_section (py Sample.two_pack_site)).
  right. exists Sample.main_page. split; [reflexivity|].
  left. vm_compute. reflexivity.
Defined.

(** X7. After discover_sections has fetched the main page, no two sections
    have the same url; when the page cannot be fetched the crawler is left
    as it is. *)
Theorem discovered_sections_have_distinct_urls (L : PyLib) (c c' : crawler) :
  discover_sections c = Ok c' ->
  (http_get MAIN_MINDLIVE_URL = None -> c' = c)
  /\ (http_get MAIN_MINDLIVE_URL <> None -> NoDup (List.map snd (sections c'))).
Proof.
  unfold discover_sections.
  destruct (http_get MAIN_MINDLIVE_URL) as [text|].
  - destruct (section_links (select_hrefs text) []) as [found|e]; [|discriminate].
    simpl. intros [= <-]. split; [discriminate|]. intros _. simpl.
    apply uniq_keyed_urls, uniq_fold_keyed. split; constructor.
  - intros [= <-]. split; [reflexivity | intros H; now destruct H].
Qed.

Lemma discovered_sections_have_distinct_urls_witness :
  (http_get (PyLib := py Sample.two_pack_site) MAIN_MINDLIVE_URL = None ->
   mk_crawler [("Sleep_Stories", "https://www.cult.fit/live/mindfulness/sleep-stories")]
     [] [] false = new_crawler)
  /\ (http_get (PyLib := py Sample.two_pack_site) MAIN_MINDLIVE_URL <> None ->
      NoDup (List.map snd
               (sections
                  (mk_crawler
                     [("Sleep_Stories",
                       "https://www.cult.fit/live/mindfulness/sleep-stories")]
                     [] [] false)))).
Proof.
  apply (discovered_sections_have_distinct_urls (py Sample.two_pack_site)
           new_crawler).
  vm_compute. reflexivity.
Defined.

(** ** Further properties of the de-duplication *)

Section DedupMore.

Lemma dedup_find_absent (url : string) (dedup : list (string * entry)) :
  ~ In url (List.map fst dedup) -> dedup_find url dedup = None.
Proof.
  induction dedup as [|[k e] rest IH]; simpl; [reflexivity|].
  intros H. destruct (String.eqb_spec k url) as [->|Hne]; [tauto|].
  apply IH. tauto.
Qed.

Lemma dedup_find_some (url : string) (prev : entry) (dedup : list (string * entry)) :
  dedup_find url dedup = Some prev -> In (url, prev) dedup.
Proof.
  induction dedup as [|[k e] rest IH]; simpl; [discriminate|].
  destruct (String.eqb_spec k url) as [->|Hne].
  - intros [= <-]. now left.
  - intros H. right. now apply IH.
Qed.

Lemma in_dedup_replace (url : string) (x : entry) (dedup : list (string * entry))
    (k : string) (e : entry) :
  NoDup (List.map fst dedup) ->
  In (k, e) (dedup_replace url x dedup) ->
  (k = url /\ e = x) \/ (k <> url /\ In (k, e) dedup).
Proof.
  induction dedup as [|[k0 old] rest IH]; simpl; [tauto|].
  intros Hnd. inversion Hnd as [|? ? Hnotin Hnd']; subst.
  destruct (String.eqb_spec k0 url) as [->|Hne]; simpl.
  - intros [[= <- <-]|Hin]; [now left|].
    right. split; [|now right].
    intros ->. apply Hnotin. now apply (in_map fst _ (url, e)).
  - intros [[= <- <-]|Hin].
    + right. split; [assumption | now left].
    + destruct (IH Hnd' Hin) as [?|[? ?]]; [now left | right; split; tauto].
Qed.

(** The keys of the table after the loop: those before it, then the urls
    not among them, each once, in the order in which they first appear. *)
Lemma filter_comm (p q : string -> bool) (l : list string) :
  filter p (filter q l) = filter q (filter p l).
Proof.
  induction l as [|x l IH]; simpl; [reflexivity|].
  destruct (q x) eqn:Hq, (p x) eqn:Hp; simpl; rewrite ?Hq, ?Hp, IH; reflexivity.
Qed.

Lemma filter_drop (q : string -> bool) (u : string) (l : list string) :
  q u = false ->
  filter q (filter (fun v => negb (v =? u)) l) = filter q l.
Proof.
  intros Hq. induction l as [|x l IH]; simpl; [reflexivity|].
  destruct (String.eqb_spec x u) as [->|Hne]; simpl.
  - now rewrite Hq.
  - destruct (q x); now rewrite IH.
Qed.

Lemma filter_firsts (q : string -> bool) (urls : list string) :
  filter q (firsts urls) = firsts (filter q urls).
Proof.
  induction urls as [|u rest IH]; simpl; [reflexivity|].
  destruct (q u) eqn:Hq; simpl.
  - now rewrite filter_comm, IH.
  - now rewrite (filter_drop q u _ Hq).
Qed.

Lemma filter_filter (p q : string -> bool) (l : list string) :
  filter p (filter q l) = filter (fun x => q x && p x) l.
Proof.
  induction l as [|x l IH]; simpl; [reflexivity|].
  destruct (q x); simpl; [destruct (p x); now rewrite IH | exact IH].
Qed.

Lemma absent_from_spec (keys : list string) (u : string) :
  absent_from keys u = true <-> ~ In u keys.
Proof.
  unfold absent_from. rewrite negb_true_iff, <- not_true_iff_false, existsb_exists.
  split.
  - intros H Hin. apply H. exists u. split; [assumption | apply String.eqb_refl].
  - intros H (x & Hin & Heq). apply String.eqb_eq in Heq. now subst.
Qed.

Lemma dedup_loop_keys (media_items : list entry) :
  forall dedup out,
    dedup_loop media_items dedup = Ok out ->
    List.map fst out
    = (List.map fst dedup
       ++ firsts (filter (absent_from (List.map fst dedup))
                    (List.map cdn_url media_items)))%list.
Proof.
  induction media_items as [|e rest IH]; intros dedup out; simpl.
  - intros [= <-]. now rewrite app_nil_r.
  - destruct (dedup_find (cdn_url e) dedup) as [prev|] eqn:Hfind.
    + assert (Hin : absent_from (List.map fst dedup) (cdn_url e) = false).
      { apply not_true_iff_false. rewrite absent_from_spec. intros H.
        apply dedup_find_absent in H. congruence. }
      rewrite Hin.
      destruct (title_lower (session_title prev)) as [pt|x]; [|discriminate].
      destruct (title_lower (session_title e)) as [nt|x]; [|discriminate].
      simpl.
      destruct (Str.startswith pt "session" && negb (Str.startswith nt "session")).
      * intros H. apply IH in H. now rewrite dedup_replace_keys in H.
      * apply IH.
    + assert (Hout : absent_from (List.map fst dedup) (cdn_url e) = true).
      { rewrite absent_from_spec. now apply dedup_find_none. }
      rewrite Hout. intros H. apply IH in H. rewrite H.
      rewrite map_app. simpl. rewrite <- app_assoc. simpl. do 2 f_equal.
      rewrite filter_firsts, filter_filter. f_equal.
      apply filter_ext. intros u. unfold absent_from.
      rewrite existsb_app. simpl. rewrite orb_false_r, negb_orb.
      now rewrite (String.eqb_sym u).
Qed.

(** What is in the table came from the table or from the list. *)
Lemma dedup_loop_members (media_items : list entry) :
  forall dedup out,
    NoDup (List.map fst dedup) ->
    dedup_loop media_items dedup = Ok out ->
    forall k e, In (k, e) out -> In (k, e) dedup \/ In e media_items.
Proof.
  induction media_items as [|x rest IH]; intros dedup out Hnd; simpl.
  - intros [= <-] k e H. now left.
  - destruct (dedup_find (cdn_url x) dedup) as [prev|] eqn:Hfind.
    + destruct (title_lower (session_title prev)) as [pt|y]; [|discriminate].
      destruct (title_lower (session_title x)) as [nt|y]; [|discriminate].
      simpl.
      destruct (Str.startswith pt "session" && negb (Str.startswith nt "session")).
      * intros H k e Hin.
        assert (Hnd' : NoDup (List.map fst (dedup_replace (cdn_url x) x dedup)))
          by now rewrite dedup_replace_keys.
        destruct (IH _ _ Hnd' H k e Hin) as [Hr|Hr]; [|tauto].
        destruct (in_dedup_replace _ _ _ _ _ Hnd Hr) as [[_ ->]|[_ ?]]; tauto.
      * intros H k e Hin. destruct (IH _ _ Hnd H k e Hin); tauto.
    + intros H k e Hin.
      assert (Hnd' : NoDup (List.map fst (dedup ++ [(cdn_url x, x)]))).
      { rewrite map_app. simpl.
        apply NoDup_app; [assumption | repeat constructor; simpl; tauto |].
        intros u Hu [<-|[]]. now apply (dedup_find_none _ _ Hfind). }
      destruct (IH _ _ Hnd' H k e Hin) as [Hr|Hr]; [|tauto].
      apply in_app_or in Hr. destruct Hr as [Hr|[[= <- <-]|[]]]; tauto.
Qed.

End DedupMore.

(** X8. De-duplication keeps one reference for each url, in the order in
    which the urls first appear among the references found, and every
    reference it returns is one of those found. *)
Theorem dedup_keeps_first_seen_order (media_items out : list entry) :
  dedup_entries media_items = Ok out ->
  List.map cdn_url out = firsts (List.map cdn_url media_items)
  /\ forall e, In e out -> In e media_items.
Proof.
  unfold dedup_entries.
  destruct (dedup_loop media_items []) as [dedup|x] eqn:Hloop; [|discriminate].
  simpl. intros [= <-].
  destruct (dedup_loop_keyed media_items [] dedup) as [Hnd Hall];
    [split; constructor | assumption |].
  split.
  - replace (List.map cdn_url (List.map snd dedup)) with (List.map fst dedup).
    + rewrite (dedup_loop_keys _ _ _ Hloop). simpl. f_equal.
      induction (List.map cdn_url media_items) as [|u l IHl]; simpl;
        [reflexivity | now rewrite IHl].
    + clear Hnd Hloop. induction Hall as [|ke rest Hk _ IH]; simpl; [reflexivity|].
      now rewrite IH, Hk.
  - intros e Hin. apply in_map_iff in Hin. destruct Hin as ([k e'] & <- & Hin).
    destruct (dedup_loop_members media_items [] dedup (NoDup_nil _) Hloop k e' Hin)
      as [[]|H].
    exact H.
Qed.

Lemma dedup_keeps_first_seen_order_witness :
  List.map cdn_url [Sample.descriptive_ref]
  = firsts (List.map cdn_url [Sample.generic_ref; Sample.descriptive_ref])
  /\ forall e, In e [Sample.descriptive_ref] ->
               In e [Sample.generic_ref; Sample.descriptive_ref].
Proof.
  apply (dedup_keeps_first_seen_order
           [Sample.generic_ref; Sample.descriptive_ref] [Sample.descriptive_ref]).
  reflexivity.
Defined.

Section DedupKept.

Lemma find_app {A : Type} (f : A -> bool) (l m : list A) :
  find f (l ++ m)
  = match find f l with Some e => Some e | None => find f m end.
Proof.
  induction l as [|x l IH]; simpl; [reflexivity|].
  destruct (f x); [reflexivity | exact IH].
Qed.

Lemma title_lower_generic (e : entry) (lowered : string) :
  title_lower (session_title e) = Ok lowered ->
  entry_generic e = Str.startswith lowered "session".
Proof.
  unfold entry_generic, title_lower, generic_title.
  destruct (session_title e); try discriminate. now intros [= <-].
Qed.

(** One more reference to a url whose kept reference is [prev]. *)
Lemma kept_one_more (group : list entry) (prev x : entry) :
  kept group = Some prev ->
  kept (group ++ [x])
  = Some (if entry_generic prev && negb (entry_generic x) then x else prev).
Proof.
  unfold kept. rewrite find_app.
  destruct (find (fun e => negb (entry_generic e)) group) as [e|] eqn:Hfind.
  - intros [= <-]. apply find_some in Hfind. destruct Hfind as [_ Hng].
    apply negb_true_iff in Hng. now rewrite Hng.
  - destruct group as [|h group]; [discriminate|].
    simpl. intros [= <-].
    assert (Hgen : entry_generic h = true).
    { pose proof (find_none _ _ Hfind h (or_introl eq_refl)) as Hh.
      now apply negb_false_iff in Hh. }
    rewrite Hgen. simpl. now destruct (entry_generic x).
Qed.

Lemma in_keyed_unique (dedup : list (string * entry)) (k : string) (e e' : entry) :
  NoDup (List.map fst dedup) -> In (k, e) dedup -> In (k, e') dedup -> e = e'.
Proof.
  induction dedup as [|[k0 e0] rest IH]; simpl; [tauto|].
  intros Hnd. inversion Hnd as [|? ? Hnotin Hnd']; subst.
  intros [[= -> ->]|H1] [[= <-]|H2]; try reflexivity.
  - destruct Hnotin. now apply (in_map fst _ (k, e')).
  - subst. destruct Hnotin. now apply (in_map fst _ (k0, e)).
  - now apply IH.
Qed.

Lemma filter_none_of (found : list entry) (keys : list string) (u : string) :
  (forall x, In x found -> In (cdn_url x) keys) ->
  ~ In u keys ->
  filter (fun x => cdn_url x =? u) found = [].
Proof.
  intros Hkeys Hu. induction found as [|x found IH]; simpl; [reflexivity|].
  destruct (String.eqb_spec (cdn_url x) u) as [Heq|Hne].
  - destruct Hu. rewrite <- Heq. apply Hkeys. now left.
  - apply IH. intros y Hy. apply Hkeys. now right.
Qed.

Lemma dedup_loop_kept (rest : list entry) :
  forall found dedup out,
    table_ok dedup found ->
    dedup_loop rest dedup = Ok out ->
    table_ok out (found ++ rest).
Proof.
  induction rest as [|x rest IH]; intros found dedup out Hok; simpl.
  - intros [= <-]. now rewrite app_nil_r.
  - destruct Hok as (Hnd & Hkept & Hkeys).
    replace (found ++ x :: rest)%list with ((found ++ [x]) ++ rest)%list
      by now rewrite <- app_assoc.
    destruct (dedup_find (cdn_url x) dedup) as [prev|] eqn:Hfind.
    + apply dedup_find_some in Hfind as Hprev.
      destruct (Hkept _ _ Hprev) as [Hurl Hk].
      destruct (title_lower (session_title prev)) as [pt|y] eqn:Hpt; [|discriminate].
      destruct (title_lower (session_title x)) as [nt|y] eqn:Hnt; [|discriminate].
      simpl.
      rewrite <- (title_lower_generic _ _ Hpt), <- (title_lower_generic _ _ Hnt).
      pose proof (kept_one_more _ _ x Hk) as Hmore.
      assert (Hother : forall k, k <> cdn_url x ->
                 filter (fun y => cdn_url y =? k) (found ++ [x])
                 = filter (fun y => cdn_url y =? k) found).
      { intros k Hne. rewrite filter_app. simpl.
        destruct (String.eqb_spec (cdn_url x) k); [congruence|].
        apply app_nil_r. }
      assert (Hsame : filter (fun y => cdn_url y =? cdn_url x) (found ++ [x])
                      = (filter (fun y => cdn_url y =? cdn_url x) found ++ [x])%list).
      { rewrite filter_app. simpl. now rewrite String.eqb_refl. }
      assert (Hkeys' : forall keys, keys = List.map fst dedup ->
                 forall y, In y (found ++ [x]) -> In (cdn_url y) keys).
      { intros keys -> y Hy. apply in_app_or in Hy.
        destruct Hy as [Hy|[<-|[]]]; [now apply Hkeys|].
        now apply (in_map fst _ (cdn_url x, prev)). }
      destruct (entry_generic prev && negb (entry_generic x)); apply IH.
      * split; [now rewrite dedup_replace_keys|]. split.
        -- intros k e Hin.
           destruct (in_dedup_replace _ _ _ _ _ Hnd Hin) as [[-> ->]|[Hne Hin']].
           ++ split; [reflexivity|]. now rewrite Hsame.
           ++ rewrite (Hother k Hne). now apply Hkept.
        -- apply Hkeys'. now rewrite dedup_replace_keys.
      * split; [assumption|]. split.
        -- intros k e Hin.
           destruct (String.eqb_spec k (cdn_url x)) as [->|Hne].
           ++ rewrite (in_keyed_unique _ _ _ _ Hnd Hin Hprev).
              split; [assumption|]. now rewrite Hsame.
           ++ rewrite (Hother k Hne). now apply Hkept.
        -- now apply Hkeys'.
    + apply IH. pose proof (dedup_find_none _ _ Hfind) as Hnew.
      split; [|split].
      * rewrite map_app. simpl.
        apply NoDup_app; [assumption | repeat constructor; simpl; tauto |].
        intros u Hu [<-|[]]. now apply Hnew.
      * intros k e Hin. apply in_app_or in Hin.
        rewrite filter_app. simpl.
        destruct Hin as [Hin|[[= <- <-]|[]]].
        -- destruct (String.eqb_spec (cdn_url x) k) as [<-|Hne].
           ++ destruct Hnew. now apply (in_map fst _ (cdn_url x, e)).
           ++ rewrite app_nil_r. now apply Hkept.
        -- split; [reflexivity|]. rewrite String.eqb_refl.
           rewrite (filter_none_of found _ _ Hkeys Hnew). simpl.
           unfold kept. simpl. now destruct (negb (entry_generic x)).
      * intros y Hy. rewrite map_app. apply in_or_app. apply in_app_or in Hy.
        destruct Hy as [Hy|[<-|[]]]; [left; now apply Hkeys | right; now left].
Qed.

(** References with distinct urls, none of them in the table, are all
    entered as they are. *)
Lemma dedup_loop_fresh (media_items : list entry) :
  forall dedup,
    NoDup (List.map cdn_url media_items) ->
    (forall e, In e media_items -> ~ In (cdn_url e) (List.map fst dedup)) ->
    dedup_loop media_items dedup
    = Ok (dedup ++ List.map (fun e => (cdn_url e, e)) media_items)%list.
Proof.
  induction media_items as [|x rest IH]; intros dedup Hnd Hnew; simpl.
  - now rewrite app_nil_r.
  - inversion Hnd as [|? ? Hx Hnd']; subst.
    rewrite (dedup_find_absent _ _ (Hnew x (or_introl eq_refl))).
    rewrite IH; [now rewrite <- app_assoc | assumption |].
    intros e He. rewrite map_app. simpl. intros Hin.
    apply in_app_or in Hin. destruct Hin as [Hin|[Heq|[]]].
    + now apply (Hnew e (or_intror He)).
    + apply Hx. rewrite Heq. now apply in_map.
Qed.

Lemma dedup_loop_titled (media_items : list entry) :
  forall dedup,
    Forall (fun ke => titled (snd ke)) dedup ->
    Forall titled media_items ->
    exists out, dedup_loop media_items dedup = Ok out.
Proof.
  induction media_items as [|x rest IH]; intros dedup Hd Hitems; simpl.
  - now exists dedup.
  - inversion Hitems as [|? ? [tx Hx] Hrest]; subst.
    destruct (dedup_find (cdn_url x) dedup) as [prev|] eqn:Hfind.
    + apply dedup_find_some in Hfind.
      rewrite Forall_forall in Hd. destruct (Hd _ Hfind) as [tp Hp].
      simpl in Hp. rewrite Hp, Hx. simpl.
      destruct (Str.startswith (Str.lower tp) "session"
                && negb (Str.startswith (Str.lower tx) "session")).
      * apply IH; [|assumption]. apply Forall_forall.
        clear - Hd Hx. induction dedup as [|[k old] d IHd]; simpl; [tauto|].
        destruct (k =? cdn_url x); simpl.
        -- intros ke [<-|Hin]; [now exists tx | apply Hd; now right].
        -- intros ke [<-|Hin]; [apply (Hd (k, old)); now left|].
           apply IHd; [|assumption]. intros y Hy. apply Hd. now right.
      * apply IH; [now apply Forall_forall | assumption].
    + apply IH; [|assumption]. apply Forall_app. split; [assumption|].
      constructor; [now exists tx | constructor].
Qed.

Lemma dedup_loop_raises (media_items : list entry) :
  forall dedup e, dedup_loop media_items dedup = Raise e -> e = AttributeError.
Proof.
  induction media_items as [|x rest IH]; intros dedup e; simpl; [discriminate|].
  destruct (dedup_find (cdn_url x) dedup) as [prev|]; [|apply IH].
  unfold title_lower.
  destruct (session_title prev); simpl; try now intros [= <-].
  destruct (session_title x); simpl; try now intros [= <-].
  destruct (Str.startswith (Str.lower s) "session"
            && negb (Str.startswith (Str.lower s0) "session")); apply IH.
Qed.

End DedupKept.

(** X9. Of the references found for one url, de-duplication keeps the
    first whose title does not start with the word session (in any case),
    and the first of all when every title does. *)
Theorem dedup_keeps_first_descriptive (media_items out : list entry) (e : entry) :
  dedup_entries media_items = Ok out ->
  In e out ->
  kept (same_url e media_items) = Some e.
Proof.
  unfold dedup_entries, same_url.
  destruct (dedup_loop media_items []) as [dedup|x] eqn:Hloop; [|discriminate].
  simpl. intros [= <-] Hin.
  apply in_map_iff in Hin. destruct Hin as ([k e'] & <- & Hin).
  destruct (dedup_loop_kept media_items [] [] dedup) as (_ & Hkept & _);
    [split; [constructor | split; intros; contradiction] | assumption |].
  destruct (Hkept k e' Hin) as [Hurl Hk]. simpl in *. now rewrite Hurl.
Qed.

Lemma dedup_keeps_first_descriptive_witness :
  kept (same_url Sample.descriptive_ref
          [Sample.generic_ref; Sample.descriptive_ref; Sample.generic_ref])
  = Some Sample.descriptive_ref.
Proof.
  apply (dedup_keeps_first_descriptive
           [Sample.generic_ref; Sample.descriptive_ref; Sample.generic_ref]
           [Sample.descriptive_ref]).
  - reflexivity.
  - now left.
Defined.

(** X10. References that have pairwise distinct urls pass de-duplication
    as they are, whatever their titles; in particular de-duplication of
    what de-duplication returned changes nothing. *)
Theorem dedup_is_idempotent :
  (forall media_items,
      NoDup (List.map cdn_url media_items) ->
      dedup_entries media_items = Ok media_items)
  /\ (forall media_items out,
         dedup_entries media_items = Ok out -> dedup_entries out = Ok out).
Proof.
  assert (Hfresh : forall media_items,
             NoDup (List.map cdn_url media_items) ->
             dedup_entries media_items = Ok media_items).
  { intros l Hnd. unfold dedup_entries.
    rewrite (dedup_loop_fresh l [] Hnd) by (intros e _ []).
    simpl. f_equal. rewrite map_map. simpl. apply map_id. }
  split; [exact Hfresh|].
  intros l out H. apply Hfresh. now apply (dedup_entries_nodup l).
Qed.

Lemma dedup_is_idempotent_witness :
  dedup_entries [Sample.descriptive_ref] = Ok [Sample.descriptive_ref].
Proof.
  apply (proj2 dedup_is_idempotent
           [Sample.generic_ref; Sample.descriptive_ref] [Sample.descriptive_ref]).
  reflexivity.
Defined.

(** X11. De-duplication raises nothing when every session title is a
    string, and the only exception it ever raises is the AttributeError of
    calling lower on a title that is no string. *)
Theorem dedup_raises_only_on_untitled :
  (forall media_items,
      Forall titled media_items -> exists out, dedup_entries media_items = Ok out)
  /\ (forall media_items e,
         dedup_entries media_items = Raise e -> e = AttributeError).
Proof.
  split.
  - intros l Hl. unfold dedup_entries.
    destruct (dedup_loop_titled l [] (Forall_nil _) Hl) as [d ->].
    simpl. now eexists.
  - intros l e. unfold dedup_entries.
    destruct (dedup_loop l []) as [d|x] eqn:Hloop; simpl; [discriminate|].
    intros [= <-]. now apply (dedup_loop_raises l []).
Qed.

Lemma dedup_raises_only_on_untitled_witness :
  exists out, dedup_entries [Sample.generic_ref; Sample.descriptive_ref] = Ok out.
Proof.
  apply (proj1 dedup_raises_only_on_untitled).
  repeat constructor; eexists; reflexivity.
Defined.

(** ** What every reference of an item carries *)

Section EntryShape.

Context {L : PyLib}.

Variable sec : string.
Variables pack_title pack_desc : json.

Let shaped : entry -> Prop := entry_of sec pack_title pack_desc.

Lemma media_type_of_cases (url : string) :
  media_type_of url = "audio" \/ media_type_of url = "video".
Proof. unfold media_type_of. destruct (Str.endswith url ".mp3"); tauto. Qed.

Lemma info_type_cases (v : json) :
  info_type (parse_curefit_url v) = "audio"
  \/ info_type (parse_curefit_url v) = "video".
Proof.
  unfold info_type.
  destruct v; try (left; reflexivity).
  destruct (Str.startswith s "curefit://") eqn:Hpre.
  - rewrite (parse_curefit_url_prefixed s Hpre). cbv zeta.
    destruct (param0 "absoluteAudioUrl" (parse_qs (query_of s)));
      [|destruct (param0 "absoluteVideoUrl" (parse_qs (query_of s)))];
      simpl; tauto.
  - simpl. rewrite Hpre. now left.
Qed.

(** A reference built from a title, a type and a url with the path of
    that title and url. *)
Lemma shaped_built (title : json) (type url path : string) :
  type = "audio" \/ type = "video" ->
  build_local_path sec pack_title title url = Ok path ->
  shaped (mk_entry sec pack_title pack_desc title type url path).
Proof. intros Ht Hp. repeat split; assumption. Qed.

Lemma shaped_snoc (media_items : list entry) (title : json) (type url path : string) :
  Forall shaped media_items ->
  type = "audio" \/ type = "video" ->
  build_local_path sec pack_title title url = Ok path ->
  Forall shaped
    (media_items ++ [mk_entry sec pack_title pack_desc title type url path]).
Proof.
  intros Hm Ht Hp. apply Forall_app. split; [assumption|].
  constructor; [now apply shaped_built | constructor].
Qed.

Lemma node_entry_shaped (d : dict) (inherited : json) (own : list entry) :
  node_entry d sec pack_title pack_desc inherited = Ok own -> Forall shaped own.
Proof.
  unfold node_entry.
  destruct (direct_url url_keys d) as [u|]; [|intros [= <-]; constructor].
  destruct (build_local_path _ _ _ _) as [p|e] eqn:Hp; [|discriminate].
  simpl. intros [= <-].
  constructor; [|constructor].
  apply shaped_built; [apply media_type_of_cases | exact Hp].
Qed.

Lemma extend_each_shaped {A : Type} (f : A -> result (list entry)) (xs : list A) :
  (forall x r, f x = Ok r -> Forall shaped r) ->
  forall acc es,
    Forall shaped acc -> extend_each f xs acc = Ok es -> Forall shaped es.
Proof.
  intros Hf. induction xs as [|x xs IH]; intros acc es Hacc; simpl.
  - now intros [= <-].
  - destruct (f x) as [r|e] eqn:Hx; [|discriminate]. simpl.
    apply IH. apply Forall_app. split; [assumption | now apply (Hf x)].
Qed.

Lemma walker_shaped (frames : nat) :
  forall node inherited es,
    collect_media_recursive frames node sec pack_title pack_desc inherited = Ok es ->
    Forall shaped es.
Proof.
  induction frames as [|frames IH]; intros node inh es; [discriminate|].
  destruct node; try (intros [= <-]; constructor).
  - cbn [collect_media_recursive].
    apply extend_each_shaped; [intros x r; apply IH | constructor].
  - cbn [collect_media_recursive].
    destruct (node_entry d sec pack_title pack_desc inh) as [own|e] eqn:Hown;
      [|discriminate].
    cbn [rbind].
    apply extend_each_shaped; [intros x r; apply IH|].
    now apply (node_entry_shaped d inh).
Qed.

Lemma scan_content_list_shaped (contents : list json) :
  forall idx media_items sources found,
    Forall shaped media_items ->
    scan_content_list idx contents sec pack_title pack_desc media_items sources
    = Ok found ->
    Forall shaped (fst found).
Proof.
  induction contents as [|content rest IH]; intros idx m s found Hm.
  - simpl. now intros [= <-].
  - destruct content; try (simpl; now apply IH).
    cbn [scan_content_list].
    destruct (has_key "playAction" d); [now apply IH|].
    destruct (truthy (url_field d)); [|now apply IH].
    destruct (url_field d); try discriminate.
    destruct (build_local_path _ _ _ _) as [p|e] eqn:Hp; [|discriminate].
    cbn [rbind]. apply IH.
    apply shaped_snoc; [assumption | apply media_type_of_cases | exact Hp].
Qed.

Lemma scan_content_shaped (content_field : json) (sources : list source)
    (found : list entry * list source) :
  scan_content content_field sec pack_title pack_desc [] sources = Ok found ->
  Forall shaped (fst found).
Proof.
  destruct content_field; simpl; try (intros [= <-]; constructor).
  - apply scan_content_list_shaped. constructor.
  - unfold scan_content_dict.
    destruct (url_field d); simpl; try (intros [= <-]; constructor).
    destruct (build_local_path _ _ _ _) as [p|e] eqn:Hp; [|discriminate].
    simpl. intros [= <-]. simpl.
    apply (shaped_snoc []); [constructor | apply media_type_of_cases | exact Hp].
Qed.

Lemma yields_ret {A : Type} (P : A -> Prop) (a : A) : P a -> yields P (ret a).
Proof. intros H w r w'. unfold ret. now intros [= <- _]. Qed.

Lemma yields_lift {A : Type} (P : A -> Prop) (r : result A) :
  (forall a, r = Ok a -> P a) -> yields P (lift r).
Proof. intros H w a w'. unfold lift. intros [= -> _]. now apply H. Qed.

Lemma yields_bind {A B : Type} (Q : A -> Prop) (P : B -> Prop) (m : M A)
    (k : A -> M B) :
  yields Q m -> (forall a, Q a -> yields P (k a)) -> yields P (bind m k).
Proof.
  intros Hm Hk w r w'. unfold bind.
  destruct (m w) as [[a|e] w1] eqn:Hmw; [|discriminate].
  apply (Hk a (Hm _ _ _ Hmw)).
Qed.

Lemma yields_true {A : Type} (m : M A) : yields (fun _ => True) m.
Proof. now intros w r w' _. Qed.

(** A step that appends one built reference. *)
Lemma yields_built (media_items : list entry) (title : json) (type url : string) :
  Forall shaped media_items ->
  type = "audio" \/ type = "video" ->
  yields (Forall shaped)
    (bind (lift (build_local_path sec pack_title title url))
       (fun local_path =>
          ret (media_items
               ++ [mk_entry sec pack_title pack_desc title type url local_path])%list)).
Proof.
  intros Hm Ht.
  apply (yields_bind (fun p => build_local_path sec pack_title title url = Ok p)).
  - now apply yields_lift.
  - intros p Hp. apply yields_ret. now apply shaped_snoc.
Qed.

(** A step that appends what the walker finds. *)
Lemma yields_walked (media_items : list entry) (node inherited : json) :
  Forall shaped media_items ->
  yields (Forall shaped)
    (bind (lift (collect_media_recursive recursion_limit node sec pack_title
                   pack_desc inherited))
       (fun found => ret (media_items ++ found)%list)).
Proof.
  intros Hm. apply (yields_bind (Forall shaped)).
  - apply yields_lift. intros found. apply walker_shaped.
  - intros found Hf. apply yields_ret. apply Forall_app. now split.
Qed.

Lemma decode_sources_shaped (sources : list source) :
  forall media_items,
    Forall shaped media_items ->
    yields (Forall shaped)
      (decode_sources sources sec pack_title pack_desc media_items).
Proof.
  induction sources as [|[play_url default_title] rest IH]; intros m Hm.
  - now apply yields_ret.
  - cbn [decode_sources].
    destruct (info_media_url (parse_curefit_url play_url)) as [media_url|].
    + apply (yields_bind
               (fun p => build_local_path sec pack_title
                           (info_title (parse_curefit_url play_url) default_title)
                           media_url = Ok p)).
      * now apply yields_lift.
      * intros p Hp. apply IH.
        apply shaped_snoc; [assumption | apply info_type_cases | exact Hp].
    + apply (yields_bind (fun _ => True)); [apply yields_true|].
      intros w0 _. apply (yields_bind (fun _ => True)); [apply yields_true|].
      intros _ _. now apply IH.
Qed.

Lemma detail_item_shaped (itm : dict) (media_items : list entry) :
  Forall shaped media_items ->
  yields (Forall shaped) (detail_item itm sec pack_title pack_desc media_items).
Proof.
  intros Hm. unfold detail_item. cbv zeta.
  destruct (lookup "playAction" itm) as [[| | | |play| |]|];
    try (apply (yields_bind (fun _ => True)); [apply yields_true|];
         intros w0 _;
         destruct (is_login_modal (get "playAction" itm) && negb w0);
         [ apply (yields_bind (fun _ => True)); [apply yields_true|];
           intros _ _; now apply yields_ret
         | destruct (url_field itm);
           try (apply yields_built; [assumption | apply media_type_of_cases]);
           destruct (get "content" itm);
           first [now apply yields_ret | now apply yields_walked] ]).
  destruct (info_media_url (parse_curefit_url (JStr play))) as [media_url|].
  - apply yields_built; [assumption | apply info_type_cases].
  - now apply yields_ret.
Qed.

Lemma detail_items_shaped (itms : list json) :
  forall media_items,
    Forall shaped media_items ->
    yields (Forall shaped) (detail_items itms sec pack_title pack_desc media_items).
Proof.
  induction itms as [|itm rest IH]; intros m Hm.
  - now apply yields_ret.
  - destruct itm; try (cbn [detail_items]; now apply IH).
    cbn [detail_items].
    apply (yields_bind (Forall shaped)); [now apply detail_item_shaped|].
    intros m1 Hm1. now apply IH.
Qed.

Lemma detail_widgets_shaped (widgets : list json) :
  forall media_items,
    Forall shaped media_items ->
    yields (Forall shaped)
      (detail_widgets widgets sec pack_title pack_desc media_items).
Proof.
  induction widgets as [|widget rest IH]; intros m Hm.
  - now apply yields_ret.
  - destruct widget; try (cbn [detail_widgets]; now apply IH).
    cbn [detail_widgets].
    apply (yields_bind (fun _ => True)); [apply yields_true|].
    intros itms _.
    apply (yields_bind (Forall shaped)); [now apply detail_items_shaped|].
    intros m1 Hm1. now apply IH.
Qed.

Lemma pack_detail_body_shaped (pack_url : string) :
  yields (Forall shaped) (pack_detail_body pack_url sec pack_title pack_desc).
Proof.
  unfold pack_detail_body.
  destruct (http_get pack_url) as [text|];
    [|apply yields_lift; discriminate].
  apply (yields_bind (fun _ => True)); [apply yields_true|].
  intros [state|] _; [|apply yields_ret; constructor].
  destruct (negb (truthy state)); [apply yields_ret; constructor|].
  apply (yields_bind (fun _ => True)); [apply yields_true|].
  intros present _.
  apply (yields_bind (fun _ => True)); [apply yields_true|].
  intros packs _.
  destruct (match packs with
            | JDict by_id => first_dict (values by_id)
            | _ => None
            end) as [[|kv pack_dict]|]; try (apply yields_ret; constructor).
  apply (yields_bind (fun _ => True)); [apply yields_true|].
  intros widgets _.
  apply (yields_bind (Forall shaped));
    [apply detail_widgets_shaped; constructor|].
  intros m1 Hm1. now apply yields_walked.
Qed.

Lemma pack_detail_shaped (pack_url : string) (w : bool) :
  Forall shaped
    (fst (extract_from_pack_detail pack_url sec pack_title pack_desc w)).
Proof.
  unfold extract_from_pack_detail, catch.
  destruct (pack_detail_body pack_url sec pack_title pack_desc w)
    as [[out|e] w'] eqn:Hbody; [|constructor].
  exact (pack_detail_body_shaped pack_url _ _ _ Hbody).
Qed.

Lemma follow_link_shaped (item : dict) (media_items : list entry) :
  Forall shaped media_items ->
  yields (Forall shaped) (follow_link item sec pack_title pack_desc media_items).
Proof.
  intros Hm. unfold follow_link.
  destruct (link_path item); try now apply yields_ret.
  destruct (Str.startswith s "/"); [|now apply yields_ret].
  apply (yields_bind (fun _ => True)); [apply yields_true|].
  intros pack_url _ w r w'.
  pose proof (pack_detail_shaped pack_url w) as Hextra.
  destruct (extract_from_pack_detail pack_url sec pack_title pack_desc w)
    as [extra w2].
  intros [= <- _]. apply Forall_app. now split.
Qed.

Lemma collect_item_shaped (item : dict) :
  yields (Forall shaped) (collect_item_media item sec pack_title pack_desc).
Proof.
  unfold collect_item_media.
  apply (yields_bind (fun found => Forall shaped (fst found))).
  { apply yields_lift. intros found. apply scan_content_shaped. }
  intros [m srcs] Hm. cbn [fst] in Hm.
  apply (yields_bind (Forall shaped)).
  { apply yields_lift. intros found. apply walker_shaped. }
  intros found Hfound.
  apply (yields_bind (Forall shaped)).
  { apply follow_link_shaped. apply Forall_app. now split. }
  intros m1 Hm1. now apply decode_sources_shaped.
Qed.

Lemma item_media_shaped (item : dict) :
  yields (Forall shaped) (extract_media_from_item item sec pack_title pack_desc).
Proof.
  unfold extract_media_from_item.
  apply (yields_bind (Forall shaped)); [apply collect_item_shaped|].
  intros items Hitems. apply yields_lift. intros out.
  unfold dedup_entries.
  destruct (dedup_loop items []) as [dedup|e] eqn:Hloop; [|discriminate].
  simpl. intros [= <-].
  apply Forall_forall. intros e Hin.
  apply in_map_iff in Hin. destruct Hin as ([k e'] & <- & Hin).
  destruct (dedup_loop_members items [] dedup (NoDup_nil _) Hloop k e' Hin)
    as [[]|H].
  rewrite Forall_forall in Hitems. now apply Hitems.
Qed.

End EntryShape.

(** X12. Every reference that _extract_media_from_item returns carries the
    section, the pack title and the pack description it was called with,
    has media_type audio or video, and has as local_path the path that
    _build_local_path gives for its session title and its url. *)
Theorem item_references_are_well_formed (L : PyLib) (item : dict) (sec : string)
    (pack_title pack_desc : json) (w w' : bool) (out : list entry) :
  extract_media_from_item item sec pack_title pack_desc w = (Ok out, w') ->
  Forall (entry_of sec pack_title pack_desc) out.
Proof. apply (item_media_shaped sec pack_title pack_desc item). Qed.

Lemma item_references_are_well_formed_witness :
  Forall (entry_of (L := py Sample.detail_site) "Sleep" (JStr "P") (JStr ""))
    [mk_entry "Sleep" (JStr "P") (JStr "") (JStr "Calm") "audio"
       "https://cdn/c.mp3" "media/Sleep/P/Calm.mp3"].
Proof.
  apply (item_references_are_well_formed (py Sample.detail_site) Sample.linked_item
           "Sleep" (JStr "P") (JStr "") false false).
  vm_compute. reflexivity.
Defined.

(** ** The login warning flag *)

Section FlagKept.

Context {L : PyLib}.

Lemma kept_ret {A : Type} (a : A) : keeps_warned (ret a).
Proof. intros r w'. unfold ret. now intros [= _ <-]. Qed.

Lemma kept_lift {A : Type} (r : result A) : keeps_warned (lift r).
Proof. intros r' w'. unfold lift. now intros [= _ <-]. Qed.

Lemma kept_warned : keeps_warned warned.
Proof. intros r w'. unfold warned. now intros [= _ <-]. Qed.

Lemma kept_warn_login : keeps_warned warn_login.
Proof. intros r w'. unfold warn_login. now intros [= _ <-]. Qed.

Lemma kept_bind {A B : Type} (m : M A) (k : A -> M B) :
  keeps_warned m -> (forall a, keeps_warned (k a)) -> keeps_warned (bind m k).
Proof.
  intros Hm Hk r w'. unfold bind.
  destruct (m true) as [[a|e] w1] eqn:Hmw.
  - rewrite (Hm _ _ Hmw). apply Hk.
  - intros [= _ <-]. exact (Hm _ _ Hmw).
Qed.

Ltac kept_step :=
  first
    [ apply kept_ret | apply kept_lift | apply kept_warned
    | apply kept_warn_login | assumption
    | apply kept_bind; [|intros ?]
    | match goal with
      | |- keeps_warned (if ?b then _ else _) => destruct b
      | |- keeps_warned (match ?x with _ => _ end) => destruct x
      end ].

Lemma decode_sources_kept (sources : list source) (sec : string)
    (pack_title pack_desc : json) :
  forall media_items,
    keeps_warned (decode_sources sources sec pack_title pack_desc media_items).
Proof.
  induction sources as [|[play_url default_title] rest IH]; intros m;
    cbn [decode_sources]; repeat first [apply IH | kept_step].
Qed.

Lemma detail_item_kept (itm : dict) (sec : string) (pack_title pack_desc : json)
    (media_items : list entry) :
  keeps_warned (detail_item itm sec pack_title pack_desc media_items).
Proof. unfold detail_item. cbv zeta. repeat kept_step. Qed.

Lemma detail_items_kept (itms : list json) (sec : string)
    (pack_title pack_desc : json) :
  forall media_items,
    keeps_warned (detail_items itms sec pack_title pack_desc media_items).
Proof.
  induction itms as [|itm rest IH]; intros m; [apply kept_ret|].
  destruct itm; cbn [detail_items]; try apply IH.
  apply kept_bind; [apply detail_item_kept | intros; apply IH].
Qed.

Lemma detail_widgets_kept (widgets : list json) (sec : string)
    (pack_title pack_desc : json) :
  forall media_items,
    keeps_warned (detail_widgets widgets sec pack_title pack_desc media_items).
Proof.
  induction widgets as [|widget rest IH]; intros m; [apply kept_ret|].
  destruct widget; cbn [detail_widgets]; try apply IH.
  apply kept_bind; [apply kept_lift|]. intros itms.
  apply kept_bind; [apply detail_items_kept | intros; apply IH].
Qed.

Lemma pack_detail_body_kept (pack_url sec : string) (pack_title pack_desc : json) :
  keeps_warned (pack_detail_body pack_url sec pack_title pack_desc).
Proof.
  unfold pack_detail_body.
  repeat first [apply detail_widgets_kept | kept_step].
Qed.

Lemma pack_detail_kept (pack_url sec : string) (pack_title pack_desc : json) :
  snd (extract_from_pack_detail pack_url sec pack_title pack_desc true) = true.
Proof.
  unfold extract_from_pack_detail, catch.
  destruct (pack_detail_body pack_url sec pack_title pack_desc true)
    as [[out|e] w'] eqn:Hbody; exact (pack_detail_body_kept _ _ _ _ _ _ Hbody).
Qed.

Lemma follow_link_kept (item : dict) (sec : string) (pack_title pack_desc : json)
    (media_items : list entry) :
  keeps_warned (follow_link item sec pack_title pack_desc media_items).
Proof.
  unfold follow_link.
  destruct (link_path item); try apply kept_ret.
  destruct (Str.startswith s "/"); [|apply kept_ret].
  apply kept_bind; [apply kept_lift|]. intros pack_url r w'.
  pose proof (pack_detail_kept pack_url sec pack_title pack_desc) as Hkept.
  destruct (extract_from_pack_detail pack_url sec pack_title pack_desc true)
    as [extra w2].
  now intros [= _ <-].
Qed.

Lemma collect_item_kept (item : dict) (sec : string) (pack_title pack_desc : json) :
  keeps_warned (collect_item_media item sec pack_title pack_desc).
Proof.
  unfold collect_item_media.
  apply kept_bind; [apply kept_lift|]. intros [m srcs].
  apply kept_bind; [apply kept_lift|]. intros found.
  apply kept_bind; [apply follow_link_kept|]. intros m1.
  apply decode_sources_kept.
Qed.

Lemma item_media_kept (item : dict) (sec : string) (pack_title pack_desc : json) :
  keeps_warned (extract_media_from_item item sec pack_title pack_desc).
Proof.
  unfold extract_media_from_item.
  apply kept_bind; [apply collect_item_kept | intros; apply kept_lift].
Qed.

Lemma crawl_items_kept (items : list json) (name : string) :
  forall c c',
    warned_login_required c = true ->
    crawl_items items name c = Ok c' -> warned_login_required c' = true.
Proof.
  induction items as [|item rest IH]; intros c c' Hc; cbn [crawl_items].
  - now intros [= <-].
  - destruct (py_get item "title" (JStr "Unknown Pack")) as [pack_title|e];
      [|discriminate]; cbn [rbind].
    destruct (py_get item "description" (JStr "")) as [pack_desc|e];
      [|discriminate]; cbn [rbind].
    destruct item as [| | | | | |item]; try discriminate.
    rewrite Hc.
    destruct (extract_media_from_item item name pack_title pack_desc true)
      as [[med_list|e] w] eqn:Hitem; [|discriminate]; cbn [rbind].
    rewrite (item_media_kept _ _ _ _ _ _ Hitem).
    apply IH. now destruct med_list.
Qed.

Lemma crawl_widgets_kept (widgets : list json) (name : string) :
  forall c c',
    warned_login_required c = true ->
    crawl_widgets widgets name c = Ok c' -> warned_login_required c' = true.
Proof.
  induction widgets as [|widget rest IH]; intros c c' Hc; cbn [crawl_widgets].
  - now intros [= <-].
  - destruct (py_get widget "items" (JList [])) as [items|e];
      [|discriminate]; cbn [rbind].
    destruct (py_iter items) as [itms|e]; [|discriminate]; cbn [rbind].
    destruct (crawl_items itms name c) as [c1|e] eqn:Hitems;
      [|discriminate]; cbn [rbind].
    apply IH. exact (crawl_items_kept _ _ _ _ Hc Hitems).
Qed.

Lemma crawl_section_kept (sec : string * string) (c c' : crawler) :
  warned_login_required c = true ->
  crawl_section sec c = Ok c' -> warned_login_required c' = true.
Proof.
  intros Hc. destruct sec as [name url]. unfold crawl_section.
  destruct (http_get url) as [text|]; [|now intros [= <-]].
  destruct (extract_preloaded_state text) as [[state|]|e];
    [| now intros [= <-] | discriminate]; cbn [rbind].
  destruct (negb (truthy state)); [now intros [= <-]|].
  destruct (py_contains "cultDIYPackBrowse" state) as [present|e];
    [|discriminate]; cbn [rbind].
  destruct (negb present); [now intros [= <-]|].
  destruct (py_getitem state "cultDIYPackBrowse") as [browse|e];
    [|discriminate]; cbn [rbind].
  destruct (py_get browse "widgets" (JList [])) as [widgets|e];
    [|discriminate]; cbn [rbind].
  destruct (py_iter widgets) as [ws|e]; [|discriminate]; cbn [rbind].
  destruct (crawl_widgets ws name c) as [c1|e] eqn:Hwidgets;
    [|discriminate]; cbn [rbind].
  intros [= <-]. exact (crawl_widgets_kept _ _ _ _ Hc Hwidgets).
Qed.

Lemma crawl_sections_kept (secs : list (string * string)) :
  forall c c',
    warned_login_required c = true ->
    crawl_sections secs c = Ok c' -> warned_login_required c' = true.
Proof.
  induction secs as [|sec rest IH]; intros c c' Hc; cbn [crawl_sections].
  - now intros [= <-].
  - destruct (crawl_section sec c) as [c1|e] eqn:Hsec; [|discriminate].
    cbn [rbind]. apply IH. exact (crawl_section_kept _ _ _ Hc Hsec).
Qed.

Lemma discover_sections_kept (c c' : crawler) :
  discover_sections c = Ok c' -> warned_login_required c' = warned_login_required c.
Proof.
  unfold discover_sections.
  destruct (http_get MAIN_MINDLIVE_URL) as [text|]; [|now intros [= <-]].
  destruct (section_links (select_hrefs text) []) as [found|e]; [|discriminate].
  cbn [rbind]. now intros [= <-].
Qed.

End FlagKept.

(** X13. The crawl never clears the login warning flag: when
    _warned_login_required is set before crawl() and the crawl returns, the
    flag is still set, whatever pages are fetched on the way. *)
Theorem login_warning_flag_stays_set (L : PyLib) (c c' : crawler) :
  warned_login_required c = true ->
  crawl c = Ok c' ->
  warned_login_required c' = true.
Proof.
  intros Hc. unfold crawl.
  destruct (match sections c with [] => discover_sections c | _ => Ok c end)
    as [c1|e] eqn:Hfirst; [|discriminate]; cbn [rbind].
  apply crawl_sections_kept.
  destruct (sections c); [|now injection Hfirst as <-].
  now rewrite (discover_sections_kept _ _ Hfirst).
Qed.

Lemma login_warning_flag_stays_set_witness :
  exists c',
    crawl (L := py Sample.two_pack_site) (mk_crawler [] [] [] true) = Ok c'
    /\ warned_login_required c' = true.
Proof.
  eexists. split; [vm_compute; reflexivity|].
  apply (login_warning_flag_stays_set (py Sample.two_pack_site)
           (mk_crawler [] [] [] true)); [reflexivity|].
  vm_compute. reflexivity.
Defined.

(** ** The flat list and the lists by section *)

Lemma by_section_get_extend (name' name : string) (med_list : list entry)
    (by_section : list (string * list entry)) :
  by_section_get name' (by_section_extend name med_list by_section)
  = (by_section_get name' by_section
     ++ (if name =? name' then med_list else []))%list.
Proof.
  induction by_section as [|[k l] rest IH]; cbn [by_section_extend by_section_get].
  - now destruct (name =? name')%string.
  - destruct (k =? name)%string eqn:Hk; cbn [by_section_get].
    + apply String.eqb_eq in Hk. subst k.
      destruct (name =? name')%string; [reflexivity | now rewrite app_nil_r].
    + destruct (k =? name')%string eqn:Hk'; [|exact IH].
      apply String.eqb_eq in Hk'. subst k. rewrite String.eqb_sym, Hk.
      now rewrite app_nil_r.
Qed.

Lemma filter_section (name' name : string) (med_list : list entry) :
  Forall (fun e => section e = name) med_list ->
  filter (fun e => section e =? name')%string med_list
  = if (name =? name')%string then med_list else [].
Proof.
  induction 1 as [|e rest He Hrest IH]; cbn [filter].
  - now destruct (name =? name')%string.
  - rewrite He, IH. now destruct (name =? name')%string.
Qed.

Lemma agrees_extend (name : string) (med_list : list entry) (c : crawler)
    (w : bool) :
  by_section_agrees c ->
  Forall (fun e => section e = name) med_list ->
  by_section_agrees
    (mk_crawler (sections c) (media_items c ++ med_list)
       (by_section_extend name med_list (media_by_section c)) w).
Proof.
  intros Hc Hmed name'. cbn [media_items media_by_section].
  rewrite filter_app, by_section_get_extend, (Hc name').
  now rewrite (filter_section name' name med_list Hmed).
Qed.

Section BySection.

Context {L : PyLib}.

Lemma item_media_section (item : dict) (name : string) (pack_title pack_desc : json)
    (w w' : bool) (med_list : list entry) :
  extract_media_from_item item name pack_title pack_desc w = (Ok med_list, w') ->
  Forall (fun e => section e = name) med_list.
Proof.
  intros Hitem.
  pose proof (item_media_shaped name pack_title pack_desc item _ _ _ Hitem)
    as Hshaped.
  apply Forall_forall. intros e He.
  rewrite Forall_forall in Hshaped. exact (proj1 (Hshaped e He)).
Qed.

Lemma crawl_items_agrees (items : list json) (name : string) :
  forall c c',
    by_section_agrees c -> crawl_items items name c = Ok c' ->
    by_section_agrees c'.
Proof.
  induction items as [|item rest IH]; intros c c' Hc; cbn [crawl_items].
  - now intros [= <-].
  - destruct (py_get item "title" (JStr "Unknown Pack")) as [pack_title|e];
      [|discriminate]; cbn [rbind].
    destruct (py_get item "description" (JStr "")) as [pack_desc|e];
      [|discriminate]; cbn [rbind].
    destruct item as [| | | | | |item]; try discriminate.
    destruct (extract_media_from_item item name pack_title pack_desc
                (warned_login_required c)) as [[med_list|e] w] eqn:Hitem;
      [|discriminate]; cbn [rbind].
    apply IH. destruct med_list as [|e0 med_list]; [exact Hc|].
    apply agrees_extend; [exact Hc|].
    exact (item_media_section _ _ _ _ _ _ _ Hitem).
Qed.

Lemma crawl_widgets_agrees (widgets : list json) (name : string) :
  forall c c',
    by_section_agrees c -> crawl_widgets widgets name c = Ok c' ->
    by_section_agrees c'.
Proof.
  induction widgets as [|widget rest IH]; intros c c' Hc; cbn [crawl_widgets].
  - now intros [= <-].
  - destruct (py_get widget "items" (JList [])) as [items|e];
      [|discriminate]; cbn [rbind].
    destruct (py_iter items) as [itms|e]; [|discriminate]; cbn [rbind].
    destruct (crawl_items itms name c) as [c1|e] eqn:Hitems;
      [|discriminate]; cbn [rbind].
    apply IH. exact (crawl_items_agrees _ _ _ _ Hc Hitems).
Qed.

Lemma crawl_section_agrees (sec : string * string) (c c' : crawler) :
  by_section_agrees c -> crawl_section sec c = Ok c' -> by_section_agrees c'.
Proof.
  intros Hc. destruct sec as [name url]. unfold crawl_section.
  destruct (http_get url) as [text|]; [|now intros [= <-]].
  destruct (extract_preloaded_state text) as [[state|]|e];
    [| now intros [= <-] | discriminate]; cbn [rbind].
  destruct (negb (truthy state)); [now intros [= <-]|].
  destruct (py_contains "cultDIYPackBrowse" state) as [present|e];
    [|discriminate]; cbn [rbind].
  destruct (negb present); [now intros [= <-]|].
  destruct (py_getitem state "cultDIYPackBrowse") as [browse|e];
    [|discriminate]; cbn [rbind].
  destruct (py_get browse "widgets" (JList [])) as [widgets|e];
    [|discriminate]; cbn [rbind].
  destruct (py_iter widgets) as [ws|e]; [|discriminate]; cbn [rbind].
  destruct (crawl_widgets ws name c) as [c1|e] eqn:Hwidgets;
    [|discriminate]; cbn [rbind].
  intros [= <-].
  pose proof (crawl_widgets_agrees _ _ _ _ Hc Hwidgets) as Hc1.
  pose proof (agrees_extend name [] c1 (warned_login_required c1) Hc1
                (Forall_nil _)) as Hext.
  now rewrite app_nil_r in Hext.
Qed.

Lemma crawl_sections_agrees (secs : list (string * string)) :
  forall c c',
    by_section_agrees c -> crawl_sections secs c = Ok c' -> by_section_agrees c'.
Proof.
  induction secs as [|sec rest IH]; intros c c' Hc; cbn [crawl_sections].
  - now intros [= <-].
  - destruct (crawl_section sec c) as [c1|e] eqn:Hsec; [|discriminate].
    cbn [rbind]. apply IH. exact (crawl_section_agrees _ _ _ Hc Hsec).
Qed.

Lemma discover_sections_stores (c c' : crawler) :
  discover_sections c = Ok c' ->
  media_items c' = media_items c /\ media_by_section c' = media_by_section c.
Proof.
  unfold discover_sections.
  destruct (http_get MAIN_MINDLIVE_URL) as [text|]; [|now intros [= <-]].
  destruct (section_links (select_hrefs text) []) as [found|e]; [|discriminate].
  cbn [rbind]. now intros [= <-].
Qed.

End BySection.

(** X14. crawl() keeps the two stores in step: when, for every section
    name, media_by_section[name] is the flat list media_items restricted to
    the references of that section (in the same order) before the crawl, it is
    so after it. A new crawler starts with both stores empty. *)
Theorem crawl_keeps_stores_in_step (L : PyLib) (c c' : crawler) :
  by_section_agrees c ->
  crawl c = Ok c' ->
  by_section_agrees c'.
Proof.
  intros Hc. unfold crawl.
  destruct (match sections c with [] => discover_sections c | _ => Ok c end)
    as [c1|e] eqn:Hfirst; [|discriminate]; cbn [rbind].
  apply crawl_sections_agrees.
  destruct (sections c); [|now injection Hfirst as <-].
  destruct (discover_sections_stores _ _ Hfirst) as [Hitems Hby].
  intros name. rewrite Hitems, Hby. apply Hc.
Qed.

Lemma crawl_keeps_stores_in_step_witness :
  exists c',
    crawl (L := py Sample.two_pack_site) new_crawler = Ok c'
    /\ media_items c' <> []
    /\ by_section_agrees c'.
Proof.
  eexists. split; [vm_compute; reflexivity|]. split; [discriminate|].
  apply (crawl_keeps_stores_in_step (py Sample.two_pack_site) new_crawler);
    [intros name; reflexivity|].
  vm_compute. reflexivity.
Defined.

(** ** The sections that references name *)

Section SectionsKnown.

Context {L : PyLib}.

Variable names : list string.

Let known (c : crawler) : Prop :=
  Forall (fun e => In (section e) names) (media_items c).

Lemma crawl_items_known (items : list json) (name : string) :
  In name names ->
  forall c c',
    known c -> crawl_items items name c = Ok c' ->
    known c' /\ sections c' = sections c.
Proof.
  intros Hname.
  induction items as [|item rest IH]; intros c c' Hc; cbn [crawl_items].
  - now intros [= <-].
  - destruct (py_get item "title" (JStr "Unknown Pack")) as [pack_title|e];
      [|discriminate]; cbn [rbind].
    destruct (py_get item "description" (JStr "")) as [pack_desc|e];
      [|discriminate]; cbn [rbind].
    destruct item as [| | | | | |item]; try discriminate.
    destruct (extract_media_from_item item name pack_title pack_desc
                (warned_login_required c)) as [[med_list|e] w] eqn:Hitem;
      [|discriminate]; cbn [rbind].
    pose proof (item_media_section _ _ _ _ _ _ _ Hitem) as Hmed.
    destruct med_list as [|e0 med_list]; intros Hrest;
      apply IH in Hrest; try exact Hrest; try exact Hc.
    unfold known. cbn [media_items]. apply Forall_app. split; [exact Hc|].
    apply Forall_forall. intros e He. rewrite Forall_forall in Hmed.
    now rewrite (Hmed e He).
Qed.

Lemma crawl_widgets_known (widgets : list json) (name : string) :
  In name names ->
  forall c c',
    known c -> crawl_widgets widgets name c = Ok c' ->
    known c' /\ sections c' = sections c.
Proof.
  intros Hname.
  induction widgets as [|widget rest IH]; intros c c' Hc; cbn [crawl_widgets].
  - now intros [= <-].
  - destruct (py_get widget "items" (JList [])) as [items|e];
      [|discriminate]; cbn [rbind].
    destruct (py_iter items) as [itms|e]; [|discriminate]; cbn [rbind].
    destruct (crawl_items itms name c) as [c1|e] eqn:Hitems;
      [|discriminate]; cbn [rbind].
    destruct (crawl_items_known _ _ Hname _ _ Hc Hitems) as [Hc1 Hs1].
    intros Hrest. destruct (IH _ _ Hc1 Hrest) as [Hc' Hs'].
    split; [exact Hc' | congruence].
Qed.

Lemma crawl_section_known (sec : string * string) (c c' : crawler) :
  In (fst sec) names ->
  known c -> crawl_section sec c = Ok c' ->
  known c' /\ sections c' = sections c.
Proof.
  destruct sec as [name url]. cbn [fst]. intros Hname Hc. unfold crawl_section.
  destruct (http_get url) as [text|]; [|now intros [= <-]].
  destruct (extract_preloaded_state text) as [[state|]|e];
    [| now intros [= <-] | discriminate]; cbn [rbind].
  destruct (negb (truthy state)); [now intros [= <-]|].
  destruct (py_contains "cultDIYPackBrowse" state) as [present|e];
    [|discriminate]; cbn [rbind].
  destruct (negb present); [now intros [= <-]|].
  destruct (py_getitem state "cultDIYPackBrowse") as [browse|e];
    [|discriminate]; cbn [rbind].
  destruct (py_get browse "widgets" (JList [])) as [widgets|e];
    [|discriminate]; cbn [rbind].
  destruct (py_iter widgets) as [ws|e]; [|discriminate]; cbn [rbind].
  destruct (crawl_widgets ws name c) as [c1|e] eqn:Hwidgets;
    [|discriminate]; cbn [rbind].
  intros [= <-]. exact (crawl_widgets_known _ _ Hname _ _ Hc Hwidgets).
Qed.

Lemma crawl_sections_known (secs : list (string * string)) :
  incl (List.map fst secs) names ->
  forall c c',
    known c -> crawl_sections secs c = Ok c' ->
    known c' /\ sections c' = sections c.
Proof.
  induction secs as [|sec rest IH]; intros Hsecs c c' Hc; cbn [crawl_sections].
  - now intros [= <-].
  - destruct (crawl_section sec c) as [c1|e] eqn:Hsec; [|discriminate].
    cbn [rbind].
    destruct (crawl_section_known sec c c1 (Hsecs _ (or_introl eq_refl)) Hc Hsec)
      as [Hc1 Hs1].
    intros Hrest.
    destruct (IH (fun n Hn => Hsecs n (or_intror Hn)) _ _ Hc1 Hrest) as [Hc' Hs'].
    split; [exact Hc' | congruence].
Qed.

End SectionsKnown.

(** X15. After crawl() on a crawler whose flat list is empty, every
    reference of media_items names, as its section, one of the sections of
    the crawler (those it was given or those it discovered). *)
Theorem crawled_references_name_known_sections (L : PyLib) (c c' : crawler) :
  media_items c = [] ->
  crawl c = Ok c' ->
  Forall (fun e => In (section e) (List.map fst (sections c'))) (media_items c').
Proof.
  intros Hempty. unfold crawl.
  destruct (match sections c with [] => discover_sections c | _ => Ok c end)
    as [c1|e] eqn:Hfirst; [|discriminate]; cbn [rbind].
  intros Hcrawl.
  assert (Hc1 : media_items c1 = []).
  { destruct (sections c); [|now injection Hfirst as <-].
    now rewrite (proj1 (discover_sections_stores _ _ Hfirst)). }
  destruct (crawl_sections_known (List.map fst (sections c1)) (sections c1)
              (fun n Hn => Hn) c1 c') as [Hknown Hsections].
  - rewrite Hc1. constructor.
  - exact Hcrawl.
  - now rewrite Hsections.
Qed.

Lemma crawled_references_name_known_sections_witness :
  exists c',
    crawl (L := py Sample.two_pack_site) new_crawler = Ok c'
    /\ media_items c' <> []
    /\ Forall (fun e => In (section e) (List.map fst (sections c')))
         (media_items c').
Proof.
  eexists. split; [vm_compute; reflexivity|]. split; [discriminate|].
  apply (crawled_references_name_known_sections (py Sample.two_pack_site)
           new_crawler); [reflexivity|].
  vm_compute. reflexivity.
Defined.

(** ** Slugs *)

Lemma forall_chars_map (q : ascii -> bool) (f : ascii -> ascii) (s : string) :
  (forall c, q (f c) = true) -> forall_chars q (Str.map f s) = true.
Proof.
  intros Hf. induction s as [|c s IH]; [reflexivity|].
  cbn [Str.map forall_chars]. cbn [Str.map] in IH. now rewrite Hf, IH.
Qed.

Lemma forall_chars_sub_runs (q class : ascii -> bool) (s : string) :
  q "_"%char = true ->
  forall in_run,
    forall_chars q s = true -> forall_chars q (sub_runs class in_run s) = true.
Proof.
  intros Hq. induction s as [|c s IH]; intros in_run; [reflexivity|].
  cbn [sub_runs forall_chars]. intros H.
  apply andb_true_iff in H. destruct H as [Hc Hs].
  destruct (class c); [destruct in_run|]; cbn [forall_chars];
    rewrite ?Hq, ?Hc, ?IH; auto.
Qed.

Lemma sub_runs_drops_class (class : ascii -> bool) (s : string) :
  class "_"%char = false ->
  forall in_run,
    forall_chars (fun c => negb (class c)) (sub_runs class in_run s) = true.
Proof.
  intros Hu. induction s as [|c s IH]; intros in_run; [reflexivity|].
  cbn [sub_runs]. destruct (class c) eqn:Hc; [destruct in_run|];
    cbn [forall_chars]; rewrite ?Hu, ?Hc, ?IH; auto.
Qed.

Lemma forall_chars_and (p q : ascii -> bool) (s : string) :
  forall_chars p s = true -> forall_chars q s = true ->
  forall_chars (fun c => p c && q c) s = true.
Proof.
  induction s as [|c s IH]; [reflexivity|]. cbn [forall_chars].
  intros Hp Hq. apply andb_true_iff in Hp, Hq.
  destruct Hp as [-> Hp], Hq as [-> Hq]. now rewrite IH.
Qed.

(** Collapsing the runs of underscores leaves no two of them side by side,
    and none in front when the text continues a run. *)
Lemma sub_runs_underscores (s : string) :
  forall in_run,
    no_neighbours is_underscore (sub_runs is_underscore in_run s) = true
    /\ (in_run = true ->
        head_fails is_underscore (sub_runs is_underscore in_run s) = true).
Proof.
  induction s as [|c s IH]; intros in_run; [now split|].
  cbn [sub_runs]. destruct (is_underscore c) eqn:Hc.
  - destruct (IH true) as [Hn Hh]. specialize (Hh eq_refl).
    destruct in_run; [now split|]. split; [|discriminate].
    cbn [no_neighbours].
    destruct (sub_runs is_underscore true s) as [|d rest]; [reflexivity|].
    cbn [head_fails] in Hh. apply negb_true_iff in Hh.
    now rewrite Hh, andb_false_r, Hn.
  - destruct (IH false) as [Hn _]. split.
    + cbn [no_neighbours].
      destruct (sub_runs is_underscore false s) as [|d rest]; [reflexivity|].
      now rewrite Hc, Hn.
    + intros _. cbn [head_fails]. now rewrite Hc.
Qed.

Lemma no_neighbours_tail (p : ascii -> bool) (c : ascii) (s : string) :
  no_neighbours p (String c s) = true -> no_neighbours p s = true.
Proof.
  cbn [no_neighbours]. destruct s as [|d s]; [reflexivity|].
  intros H. now apply andb_true_iff in H.
Qed.

Section Stripping.

Variable p : ascii -> bool.

Lemma forall_chars_lstrip (q : ascii -> bool) (s : string) :
  forall_chars q s = true -> forall_chars q (Str.lstrip p s) = true.
Proof.
  induction s as [|c s IH]; [reflexivity|]. cbn [Str.lstrip].
  destruct (p c); [|trivial]. cbn [forall_chars]. intros H.
  apply andb_true_iff in H. now apply IH.
Qed.

Lemma no_neighbours_lstrip (q : ascii -> bool) (s : string) :
  no_neighbours q s = true -> no_neighbours q (Str.lstrip p s) = true.
Proof.
  induction s as [|c s IH]; [reflexivity|]. cbn [Str.lstrip].
  destruct (p c); [|trivial]. intros H. apply IH.
  exact (no_neighbours_tail _ _ _ H).
Qed.

Lemma head_fails_lstrip (s : string) : head_fails p (Str.lstrip p s) = true.
Proof.
  induction s as [|c s IH]; [reflexivity|]. cbn [Str.lstrip].
  destruct (p c) eqn:Hc; [exact IH|]. cbn [head_fails]. now rewrite Hc.
Qed.

(** What [rstrip] returns starts as its argument does. *)
Lemma rstrip_head (c : ascii) (s : string) :
  Str.rstrip p (String c s) = EmptyString
  \/ exists r, Str.rstrip p (String c s) = String c r.
Proof.
  cbn [Str.rstrip]. destruct (Str.rstrip p s) as [|d r].
  - destruct (p c); [now left | right; now exists EmptyString].
  - right. now exists (String d r).
Qed.

Lemma forall_chars_rstrip (q : ascii -> bool) (s : string) :
  forall_chars q s = true -> forall_chars q (Str.rstrip p s) = true.
Proof.
  induction s as [|c s IH]; [reflexivity|]. cbn [Str.rstrip forall_chars].
  intros H. apply andb_true_iff in H. destruct H as [Hc Hs].
  specialize (IH Hs).
  destruct (Str.rstrip p s) as [|d r].
  - destruct (p c); [reflexivity|]. cbn [forall_chars]. now rewrite Hc.
  - cbn [forall_chars] in *. now rewrite Hc, IH.
Qed.

Lemma no_neighbours_rstrip (q : ascii -> bool) (s : string) :
  no_neighbours q s = true -> no_neighbours q (Str.rstrip p s) = true.
Proof.
  induction s as [|c s IH]; [reflexivity|]. intros H.
  pose proof (no_neighbours_tail _ _ _ H) as Hs. specialize (IH Hs).
  change (Str.rstrip p (String c s))
    with (match Str.rstrip p s with
          | EmptyString => if p c then EmptyString else String c EmptyString
          | String d r => String c (String d r)
          end).
  destruct s as [|d s].
  - cbn [Str.rstrip]. now destruct (p c).
  - destruct (rstrip_head d s) as [Hr|[r Hr]]; rewrite Hr in *.
    + now destruct (p c).
    + change (negb (q c && q d) && no_neighbours q (String d s) = true) in H.
      change (negb (q c && q d) && no_neighbours q (String d r) = true).
      apply andb_true_iff in H. destruct H as [Hcd _]. now rewrite Hcd, IH.
Qed.

Lemma head_fails_rstrip (s : string) :
  head_fails p s = true -> head_fails p (Str.rstrip p s) = true.
Proof.
  destruct s as [|c s]; [reflexivity|]. intros H.
  destruct (rstrip_head c s) as [Hr|[r Hr]]; now rewrite Hr.
Qed.

End Stripping.

Lemma forall_chars_take (q : ascii -> bool) (n : nat) :
  forall s, forall_chars q s = true -> forall_chars q (Str.take n s) = true.
Proof.
  induction n as [|n IH]; intros [|c s]; try reflexivity.
  cbn [Str.take forall_chars]. intros H. apply andb_true_iff in H.
  destruct H as [-> Hs]. now rewrite IH.
Qed.

Lemma no_neighbours_take (q : ascii -> bool) (n : nat) :
  forall s, no_neighbours q s = true -> no_neighbours q (Str.take n s) = true.
Proof.
  induction n as [|n IH]; intros [|c s]; try reflexivity. intros H.
  pose proof (IH s (no_neighbours_tail _ _ _ H)) as Hs.
  cbn [Str.take]. destruct n as [|n]; [now destruct s|].
  destruct s as [|d s]; [reflexivity|].
  change (negb (q c && q d) && no_neighbours q (String d s) = true) in H.
  change (negb (q c && q d) && no_neighbours q (Str.take (S n) (String d s))
          = true).
  apply andb_true_iff in H. destruct H as [-> _]. exact Hs.
Qed.

Lemma head_fails_take (q : ascii -> bool) (n : nat) (s : string) :
  head_fails q s = true -> head_fails q (Str.take n s) = true.
Proof. destruct n, s; trivial. Qed.

Lemma length_take (n : nat) : forall s, String.length (Str.take n s) <= n.
Proof.
  induction n as [|n IH]; intros [|c s]; cbn [Str.take String.length]; try lia.
  specialize (IH s). lia.
Qed.

(** X16. sanitize gives a usable file name whatever the text: for every
    text and max_len the slug is not empty, is at most max(max_len, 8)
    characters long (8 for the fallback untitled), holds none of the
    characters < > : \ / | ? * and no white space, has no two underscores
    side by side, and starts with neither a dot nor an underscore. *)
Theorem sanitize_gives_safe_slug (text : string) (max_len : nat) :
  sanitize_len text max_len <> EmptyString
  /\ String.length (sanitize_len text max_len) <= Nat.max max_len 8
  /\ forall_chars slug_char (sanitize_len text max_len) = true
  /\ no_neighbours is_underscore (sanitize_len text max_len) = true
  /\ head_fails (fun c => Ascii.eqb c "." || is_underscore c)
       (sanitize_len text max_len) = true.
Proof.
  unfold sanitize_len. cbv zeta.
  set (t2 := Str.map (fun c => if illegal_fs_char c then "_"%char else c)
               (Str.strip Str.is_space text)).
  set (t3 := sub_runs Str.is_space false t2).
  set (t4 := sub_runs is_underscore false t3).
  set (dots := fun c => (Ascii.eqb c "." || is_underscore c)%bool).
  assert (H2 : forall_chars (fun c => negb (illegal_fs_char c)) t2 = true).
  { apply forall_chars_map. intros c.
    destruct (illegal_fs_char c) eqn:Hc; [reflexivity | now rewrite Hc]. }
  assert (H3 : forall_chars slug_char t3 = true).
  { apply forall_chars_and.
    - apply forall_chars_sub_runs; [reflexivity | exact H2].
    - now apply sub_runs_drops_class. }
  assert (H4 : forall_chars slug_char t4 = true).
  { apply forall_chars_sub_runs; [reflexivity | exact H3]. }
  assert (N4 : no_neighbours is_underscore t4 = true).
  { apply sub_runs_underscores. }
  set (slug := Str.take max_len (Str.strip dots t4)).
  assert (Hslug : forall_chars slug_char slug = true
                  /\ no_neighbours is_underscore slug = true
                  /\ head_fails dots slug = true
                  /\ String.length slug <= max_len).
  { unfold slug, Str.strip. repeat split.
    - now apply forall_chars_take, forall_chars_rstrip, forall_chars_lstrip.
    - now apply no_neighbours_take, no_neighbours_rstrip, no_neighbours_lstrip.
    - apply head_fails_take, head_fails_rstrip, head_fails_lstrip.
    - apply length_take. }
  destruct Hslug as (Hc & Hn & Hh & Hl).
  destruct (slug =? "")%string eqn:Hempty.
  - repeat split; try reflexivity; [discriminate | cbn; lia].
  - apply String.eqb_neq in Hempty. repeat split; trivial. lia.
Qed.

Lemma length_lstrip (p : ascii -> bool) (s : string) :
  String.length (Str.lstrip p s) <= String.length s.
Proof.
  induction s as [|c s IH]; [reflexivity|]. cbn [Str.lstrip].
  destruct (p c); cbn [String.length]; lia.
Qed.

Lemma length_rstrip (p : ascii -> bool) (s : string) :
  String.length (Str.rstrip p s) <= String.length s.
Proof.
  induction s as [|c s IH]; [reflexivity|]. cbn [Str.rstrip].
  destruct (Str.rstrip p s) as [|d r]; [destruct (p c)|];
    cbn [String.length] in *; lia.
Qed.

Lemma length_map (f : ascii -> ascii) (s : string) :
  String.length (Str.map f s) = String.length s.
Proof.
  induction s as [|c s IH]; [reflexivity|].
  cbn [Str.map String.length]. cbn [Str.map] in IH. now rewrite IH.
Qed.

Lemma length_sub_runs (class : ascii -> bool) (s : string) :
  forall in_run,
    String.length (sub_runs class in_run s) <= String.length s.
Proof.
  induction s as [|c s IH]; intros in_run; [reflexivity|]. cbn [sub_runs].
  pose proof (IH true). pose proof (IH false).
  destruct (class c); [destruct in_run|]; cbn [String.length]; lia.
Qed.

Lemma take_all (n : nat) :
  forall s, String.length s <= n -> Str.take n s = s.
Proof.
  induction n as [|n IH]; intros [|c s]; cbn [Str.take String.length];
    try reflexivity; try lia.
  intros H. rewrite IH; [reflexivity | lia].
Qed.

Lemma last_fails_rstrip (p : ascii -> bool) (s : string) :
  last_fails p (Str.rstrip p s) = true.
Proof.
  induction s as [|c s IH]; [reflexivity|]. cbn [Str.rstrip].
  destruct (Str.rstrip p s) as [|d r].
  - destruct (p c) eqn:Hc; [reflexivity|]. cbn [last_fails]. now rewrite Hc.
  - exact IH.
Qed.

(** X17. The characters stripped from the ends of a slug are stripped
    before it is cut: a text no longer than max_len gives a slug that does
    not end with a dot or an underscore. *)
Theorem sanitize_strips_end_of_short_text (text : string) (max_len : nat) :
  String.length text <= max_len ->
  last_fails (fun c => Ascii.eqb c "." || is_underscore c)
    (sanitize_len text max_len) = true.
Proof.
  intros Hlen. unfold sanitize_len. cbv zeta.
  set (t4 := sub_runs is_underscore false
               (sub_runs Str.is_space false
                  (Str.map (fun c => if illegal_fs_char c then "_"%char else c)
                     (Str.strip Str.is_space text)))).
  set (dots := fun c => (Ascii.eqb c "." || is_underscore c)%bool).
  assert (H4 : String.length t4 <= max_len).
  { unfold t4.
    pose proof (length_sub_runs is_underscore
                  (sub_runs Str.is_space false
                     (Str.map (fun c => if illegal_fs_char c then "_"%char else c)
                        (Str.strip Str.is_space text))) false).
    pose proof (length_sub_runs Str.is_space
                  (Str.map (fun c => if illegal_fs_char c then "_"%char else c)
                     (Str.strip Str.is_space text)) false).
    pose proof (length_map (fun c => if illegal_fs_char c then "_"%char else c)
                  (Str.strip Str.is_space text)).
    pose proof (length_rstrip Str.is_space (Str.lstrip Str.is_space text)).
    pose proof (length_lstrip Str.is_space text).
    unfold Str.strip in *. lia. }
  assert (Hstrip : String.length (Str.strip dots t4) <= max_len).
  { unfold Str.strip.
    pose proof (length_rstrip dots (Str.lstrip dots t4)).
    pose proof (length_lstrip dots t4). lia. }
  rewrite (take_all _ _ Hstrip).
  destruct (Str.strip dots t4 =? "")%string; [reflexivity|].
  apply last_fails_rstrip.
Qed.

Lemma sanitize_strips_end_of_short_text_witness :
  String.length "  .Deep  Sleep_ " <= 80
  /\ sanitize "  .Deep  Sleep_ " = "Deep_Sleep"
  /\ last_fails (fun c => Ascii.eqb c "." || is_underscore c)
       (sanitize "  .Deep  Sleep_ ") = true.
Proof.
  split; [cbn; lia|]. split; [reflexivity|].
  apply (sanitize_strips_end_of_short_text "  .Deep  Sleep_ " 80). cbn. lia.
Defined.

(** ** Which references are downloaded *)

Section Selection.

Variable path_exists : string -> bool.
Variable manifest : json.

(** One round of the loop, in terms of what the manifest records. *)
Lemma to_download_step (retry_failed_only : bool) (m : entry)
    (rest to_dl : list entry) (out : list entry) :
  to_download path_exists retry_failed_only manifest (m :: rest) to_dl = Ok out ->
  to_download path_exists retry_failed_only manifest rest
    (if retry_failed_only
     then if succeeded manifest m then to_dl else (to_dl ++ [m])%list
     else if succeeded manifest m && path_exists (cached_path manifest m)
          then to_dl else (to_dl ++ [m])%list) = Ok out.
Proof.
  cbn [to_download]. unfold succeeded, cached_path, manifest_entry, entry_field.
  destruct manifest as [| | | | | |d]; try discriminate. cbn [py_get rbind].
  destruct (get_default (cdn_url m) (JDict []) d) as [| | | | | |e];
    try discriminate.
  cbn [py_get rbind]. fold (get "status" e). fold (get "path" e).
  destruct (py_or (get "path" e) (JStr (local_path m))); try discriminate.
  cbn [path_of rbind].
  destruct retry_failed_only, (is_success (get "status" e)), (path_exists s);
    cbn [andb negb]; trivial.
Qed.

Lemma to_download_normal (media_items : list entry) :
  forall to_dl out,
    to_download path_exists false manifest media_items to_dl = Ok out ->
    out = (to_dl
           ++ filter (fun m => negb (succeeded manifest m
                                     && path_exists (cached_path manifest m)))
                media_items)%list.
Proof.
  induction media_items as [|m rest IH]; intros to_dl out H.
  - cbn in H. injection H as <-. now rewrite app_nil_r.
  - apply to_download_step in H. apply IH in H. cbn [filter].
    destruct (succeeded manifest m && path_exists (cached_path manifest m));
      cbn [negb]; [exact H|]. now rewrite H, <- app_assoc.
Qed.

Lemma to_download_retry (media_items : list entry) :
  forall to_dl out,
    to_download path_exists true manifest media_items to_dl = Ok out ->
    out = (to_dl ++ filter (fun m => negb (succeeded manifest m)) media_items)%list.
Proof.
  induction media_items as [|m rest IH]; intros to_dl out H.
  - cbn in H. injection H as <-. now rewrite app_nil_r.
  - apply to_download_step in H. apply IH in H. cbn [filter].
    destruct (succeeded manifest m); cbn [negb]; [exact H|].
    now rewrite H, <- app_assoc.
Qed.



End Selection.

(** X18. Without retry_failed_only, download_media leaves out exactly the
    references for which the manifest records success and whose file (at the
    recorded path, or at the reference's local_path when no path is
    recorded) is on disk; the others are selected in the order of
    media_items. *)
Theorem download_selects_what_is_not_on_disk (path_exists : string -> bool)
    (manifest : json) (media_items out : list entry) :
  to_download path_exists false manifest media_items [] = Ok out ->
  out = filter (fun m => negb (succeeded manifest m
                               && path_exists (cached_path manifest m)))
          media_items.
Proof. intros H. exact (to_download_normal _ _ _ _ _ H). Qed.

Lemma download_selects_what_is_not_on_disk_witness :
  to_download Sample.on_disk false Sample.manifest
    [Sample.media_a; Sample.media_b; Sample.media_c] []
  = Ok [Sample.media_b; Sample.media_c]
  /\ [Sample.media_b; Sample.media_c]
     = filter (fun m => negb (succeeded Sample.manifest m
                              && Sample.on_disk (cached_path Sample.manifest m)))
         [Sample.media_a; Sample.media_b; Sample.media_c].
Proof.
  split; [vm_compute; reflexivity|].
  apply (download_selects_what_is_not_on_disk Sample.on_disk Sample.manifest).
  vm_compute. reflexivity.
Defined.

(** X19. With retry_failed_only, download_media selects exactly the
    references for which the manifest does not record success, in the order
    of media_items: a reference never attempted is selected, and one recorded
    as success is not, whether or not its file is on disk. *)
Theorem retry_selects_what_is_not_recorded (path_exists : string -> bool)
    (manifest : json) (media_items out : list entry) :
  to_download path_exists true manifest media_items [] = Ok out ->
  out = filter (fun m => negb (succeeded manifest m)) media_items.
Proof. intros H. exact (to_download_retry _ _ _ _ _ H). Qed.

Lemma retry_selects_what_is_not_recorded_witness :
  to_download Sample.on_disk true Sample.manifest
    [Sample.media_a; Sample.media_b; Sample.media_c] []
  = Ok [Sample.media_c]
  /\ [Sample.media_c]
     = filter (fun m => negb (succeeded Sample.manifest m))
         [Sample.media_a; Sample.media_b; Sample.media_c].
Proof.
  split; [vm_compute; reflexivity|].
  apply (retry_selects_what_is_not_recorded Sample.on_disk Sample.manifest).
  vm_compute. reflexivity.
Defined.



(** ** More on strings *)

Section StringFactsMore.

Lemma find_absent (sub s : string) :
  Str.contains sub s = false -> Str.find sub s = None.
Proof. unfold Str.contains. now destruct (Str.find sub s). Qed.

Lemma append_assoc (a b c : string) : ((a ++ b) ++ c = a ++ (b ++ c))%string.
Proof. induction a as [|x a IH]; simpl; [reflexivity | now rewrite IH]. Qed.

Lemma append_nil_r (a : string) : (a ++ "")%string = a.
Proof. induction a as [|x a IH]; simpl; [reflexivity | now rewrite IH]. Qed.

(** A text of one character is a prefix of the texts that start with it. *)
Lemma prefix_char (c d : ascii) (s : string) :
  prefix (String c "") (String d s) = Ascii.eqb c d.
Proof.
  cbn [prefix]. destruct (ascii_dec c d) as [->|Hne].
  - rewrite Ascii.eqb_refl. now destruct s.
  - symmetry. now apply Ascii.eqb_neq.
Qed.

End StringFactsMore.

(** ** The state extractor and the object it recovers *)

Section Pattern.

Lemma blank_lstrip (ws : string) : blank ws -> Str.lstrip Str.is_space ws = "".
Proof.
  unfold blank. induction ws as [|c ws IH]; [reflexivity|].
  cbn [forall_chars Str.lstrip]. intros H. apply andb_true_iff in H.
  destruct H as [-> H]. now apply IH.
Qed.

Lemma take_skip (n : nat) : forall s, (Str.take n s ++ Str.skip n s)%string = s.
Proof.
  induction n as [|n IH]; intros [|c s]; cbn [Str.take Str.skip append];
    try reflexivity.
  now rewrite IH.
Qed.

Lemma spaces_blank (s : string) : blank (Str.take (spaces s) s).
Proof.
  unfold blank. induction s as [|c s IH]; [reflexivity|].
  cbn [spaces]. destruct (Str.is_space c) eqn:Hc; [|reflexivity].
  cbn [Str.take forall_chars]. now rewrite Hc.
Qed.

(** The text after the white space it starts with. *)
Lemma spaces_split (s : string) :
  s = (Str.take (spaces s) s ++ Str.skip (spaces s) s)%string.
Proof. symmetry. apply take_skip. Qed.

Lemma prefix_split (a : string) :
  forall s, prefix a s = true -> s = (a ++ Str.skip (String.length a) s)%string.
Proof.
  induction a as [|c a IH]; intros s; [reflexivity|].
  destruct s as [|d s]; cbn [prefix]; [discriminate|].
  destruct (ascii_dec c d) as [->|Hne]; [|discriminate].
  intros H. cbn [String.length Str.skip append]. now rewrite <- (IH s H).
Qed.

(** Where the pattern is found at the start of a text, the text is an
    assignment. *)
Lemma match_assignment_assigned (s : string) (i : nat) :
  match_assignment s = Some i -> assigned_at s O.
Proof.
  unfold match_assignment.
  destruct (prefix state_target s) eqn:Hp; [|discriminate].
  cbv zeta. rewrite <- skip_skip.
  set (r := Str.skip (String.length state_target) s).
  destruct (Str.skip (spaces r) r) as [|c r2] eqn:Hr; [discriminate|].
  destruct c as [[] [] [] [] [] [] [] []]; try discriminate.
  destruct (Str.skip (spaces r2) r2) as [|c tail] eqn:Hr2; [discriminate|].
  destruct c as [[] [] [] [] [] [] [] []]; try discriminate.
  intros _.
  exists (Str.take (spaces r) r), (Str.take (spaces r2) r2), tail.
  split; [apply spaces_blank | split; [apply spaces_blank|]].
  cbn [Str.skip].
  rewrite (prefix_split _ _ Hp) at 1. fold r. f_equal.
  rewrite (spaces_split r) at 1. f_equal. rewrite Hr.
  change ("=" ++ Str.take (spaces r2) r2 ++ String "{" tail)%string
    with (String "=" (Str.take (spaces r2) r2 ++ String "{" tail)).
  f_equal. rewrite (spaces_split r2) at 1. now rewrite Hr2.
Qed.

(** Conversely, at an assignment the pattern is found. *)
Lemma assigned_match_assignment (s : string) :
  assigned_at s O -> exists i, match_assignment s = Some i.
Proof.
  intros (ws1 & ws2 & tail & H1 & H2 & Hs). cbn [Str.skip] in Hs. subst s.
  eexists. apply (match_assignment_at ws1 ws2 tail); now apply blank_lstrip.
Qed.

Lemma assigned_at_skip (stext : string) (p : nat) :
  assigned_at stext p <-> assigned_at (Str.skip p stext) O.
Proof. unfold assigned_at. cbn [Str.skip]. reflexivity. Qed.

Lemma not_assigned (stext : string) (p : nat) :
  ~ assigned_at stext p <-> match_assignment (Str.skip p stext) = None.
Proof.
  split.
  - intros H. destruct (match_assignment (Str.skip p stext)) as [i|] eqn:Hm;
      [|reflexivity].
    destruct H. apply assigned_at_skip. exact (match_assignment_assigned _ _ Hm).
  - intros Hm H. apply assigned_at_skip in H.
    destruct (assigned_match_assignment _ H) as [i Hi]. congruence.
Qed.

(** The search finds the pattern only where it is. *)
Lemma search_assignment_found (t : string) :
  forall i, search_assignment t = Some i ->
            exists p k, match_assignment (Str.skip p t) = Some k.
Proof.
  induction t as [|c t IH]; intros i; cbn [search_assignment].
  - destruct (match_assignment "") as [k|] eqn:Hm; [|discriminate].
    intros _. now exists O, k.
  - destruct (match_assignment (String c t)) as [k|] eqn:Hm.
    + intros _. now exists O, k.
    + destruct (search_assignment t) as [j|] eqn:Hs; [|discriminate].
      intros _. destruct (IH j eq_refl) as (p & k & Hp). now exists (S p), k.
Qed.

Lemma search_assignment_none (t : string) :
  (forall p, ~ assigned_at t p) -> search_assignment t = None.
Proof.
  intros H. destruct (search_assignment t) as [i|] eqn:Hs; [|reflexivity].
  destruct (search_assignment_found _ _ Hs) as (p & k & Hp).
  pose proof (proj1 (not_assigned t p) (H p)) as Hnone. congruence.
Qed.

(** A block that does not mention the marker assigns nothing. *)
Lemma unrelated_assigns_nothing (script : option string) :
  unrelated script -> assigns_nothing script.
Proof.
  destruct script as [t|]; [|trivial]. cbn [unrelated assigns_nothing].
  intros Hno p (ws1 & ws2 & tail & _ & _ & Hs).
  assert (Hfound : Str.contains state_marker t = true); [|congruence].
  apply (found_after _ _ (p + 7)). rewrite <- skip_skip, Hs.
  unfold state_target, state_marker. cbn [append Str.skip].
  apply (prefix_app "__PRELOADED_STATE__").
Qed.

End Pattern.

Section NestedBraces.

Lemma plain_head (b c : ascii) (s : string) :
  Str.contains (String b "") (String c s) = false ->
  Ascii.eqb c b = false /\ Str.contains (String b "") s = false.
Proof.
  unfold Str.contains. cbn [Str.find]. rewrite prefix_char.
  rewrite (Ascii.eqb_sym c b).
  destruct (Ascii.eqb b c); [discriminate|].
  now destruct (Str.find (String b "") s).
Qed.

(** Under a positive count, the scan passes a nested text and leaves the
    count as it was. *)
Lemma scan_braces_nested (s : string) :
  nested s ->
  forall rest count pos,
    (0 < count)%Z ->
    scan_braces (s ++ rest) count pos
    = scan_braces rest count (pos + String.length s).
Proof.
  induction 1 as [s Hopen Hclose|s _ IH|s t _ IHs _ IHt]; intros rest count pos Hpos.
  - revert pos. induction s as [|c s IHc]; intros pos.
    + cbn [append String.length]. now rewrite Nat.add_0_r.
    + destruct (plain_head _ _ _ Hopen) as [Ho Hopen'].
      destruct (plain_head _ _ _ Hclose) as [Hc Hclose'].
      cbn [append scan_braces String.length]. rewrite Ho, Hc.
      rewrite (IHc Hopen' Hclose'). f_equal. lia.
  - change (("{" ++ s ++ "}") ++ rest)%string
      with (String "{" ((s ++ "}") ++ rest)).
    rewrite append_assoc.
    cbn [scan_braces]. change (Ascii.eqb "{" "{") with true. cbn iota.
    rewrite IH by lia.
    cbn [append scan_braces].
    change (Ascii.eqb "}" "{") with false. change (Ascii.eqb "}" "}") with true.
    cbn iota.
    replace (count + 1 - 1)%Z with count by lia.
    destruct (Z.eqb_spec count 0) as [Hz|_]; [lia|].
    f_equal. cbn [String.length]. rewrite length_app. cbn [String.length]. lia.
  - rewrite append_assoc, IHs, IHt by assumption. f_equal.
    rewrite length_app. lia.
Qed.

(** The scan of an object with well nested braces ends at its last
    brace. *)
Lemma scan_braces_object (body : string) :
  nested body ->
  scan_braces ("{" ++ body ++ "}") 0%Z O = Some (String.length ("{" ++ body ++ "}")).
Proof.
  intros Hbody.
  change ("{" ++ body ++ "}")%string with (String "{" (body ++ "}")).
  cbn [scan_braces]. change (Ascii.eqb "{" "{") with true. cbn iota.
  change (0 + 1)%Z with 1%Z.
  rewrite (scan_braces_nested body Hbody) by lia.
  cbn [scan_braces]. change (Ascii.eqb "}" "{") with false.
  change (Ascii.eqb "}" "}") with true. change (1 - 1 =? 0)%Z with true.
  cbn iota. cbn [String.length]. rewrite length_app. cbn [String.length].
  f_equal. lia.
Qed.

End NestedBraces.

Section Recovery.

Context {L : PyLib}.

(** Blocks that assign nothing are passed over. *)
Lemma extract_skips_unassigned (pre rest : list (option string)) :
  Forall assigns_nothing pre ->
  extract_from_scripts (pre ++ rest) = extract_from_scripts rest.
Proof.
  induction 1 as [|script pre Hs _ IH]; [reflexivity|].
  cbn [app extract_from_scripts].
  destruct script as [t|]; [|exact IH].
  cbn [assigns_nothing] in Hs.
  destruct ((t =? "") || negb (Str.contains state_marker t)); [exact IH|].
  now rewrite (search_assignment_none t Hs).
Qed.

(** What the loop does with a block whose first assignment is that of an
    object with well nested braces. *)
Lemma extract_at_first_assignment (before ws1 ws2 body rest : string)
    (others : list (option string)) :
  (forall p, p < String.length before ->
             ~ assigned_at (before ++ state_target ++ ws1 ++ "=" ++ ws2
                            ++ ("{" ++ body ++ "}") ++ rest) p) ->
  blank ws1 -> blank ws2 -> nested body ->
  extract_from_scripts
    (Some (before ++ state_target ++ ws1 ++ "=" ++ ws2 ++ ("{" ++ body ++ "}") ++ rest)
       :: others)
  = match json_loads (Str.replace "undefined" "null" ("{" ++ body ++ "}")) with
    | Ok v => Ok (Some v)
    | Raise JSONDecodeError => extract_from_scripts others
    | Raise e => Raise e
    end.
Proof.
  intros Hfirst Hws1 Hws2 Hbody.
  set (obj := ("{" ++ body ++ "}")%string) in *.
  set (stext := (before ++ state_target ++ ws1 ++ "=" ++ ws2 ++ obj ++ rest)%string)
    in *.
  set (k := String.length state_target + String.length ws1 + 1 + String.length ws2).
  assert (Hhere : Str.skip (String.length before) stext
                  = (state_target ++ ws1 ++ "=" ++ ws2 ++ obj ++ rest)%string)
    by apply skip_app.
  assert (Hobj : Str.skip (String.length before + k) stext = (obj ++ rest)%string).
  { rewrite <- skip_skip, Hhere. unfold k.
    rewrite <- !skip_skip, (skip_app state_target), skip_app.
    change ("=" ++ ws2 ++ obj ++ rest)%string
      with (String "=" (ws2 ++ obj ++ rest)).
    cbn [Str.skip]. apply skip_app. }
  assert (Hsearch : search_assignment stext = Some (String.length before + k)).
  { rewrite (search_assignment_from (String.length before)).
    - rewrite Hhere.
      rewrite (search_assignment_here _ k); [reflexivity|].
      apply (match_assignment_at ws1 ws2 ((body ++ "}") ++ rest));
        now apply blank_lstrip.
    - unfold stext. rewrite length_app. lia.
    - intros p Hp. apply not_assigned. now apply Hfirst. }
  assert (Hmarker : Str.contains state_marker stext = true).
  { apply (found_after _ _ (String.length before + 7)).
    rewrite <- skip_skip, Hhere. unfold state_target, state_marker.
    cbn [append Str.skip]. apply (prefix_app "__PRELOADED_STATE__"). }
  assert (Hnonempty : (stext =? "") = false).
  { destruct (String.eqb_spec stext "") as [Hempty|]; [|reflexivity].
    rewrite Hempty in Hmarker. discriminate. }
  cbn [extract_from_scripts].
  rewrite Hnonempty, Hmarker, Hsearch, Hobj. cbn [orb negb].
  assert (Hscan : scan_braces (obj ++ rest) 0%Z (String.length before + k)
                  = Some (String.length before + k + String.length obj)).
  { apply scan_braces_from, scan_braces_app. now apply scan_braces_object. }
  rewrite Hscan.
  replace (String.length before + k + String.length obj - (String.length before + k))
    with (String.length obj) by lia.
  now rewrite take_app.
Qed.

End Recovery.

(** C5, as the code has it. Take a page in which the script blocks before
    some block hold no assignment to the target (whatever else they hold,
    the marker included), and in which that block holds, as its first
    assignment, an object whose braces are well nested when counted
    character by character and whose text does not hold the word undefined.
    Then the extractor returns what json.loads makes of exactly the text of
    the object: however deep the braces nest, whatever stands in the block
    before the assignment and after the object (a terminator or none), and
    whatever the blocks after it hold. *)
Theorem state_extractor_recovers_object (L : PyLib) (html : string)
    (pre post : list (option string)) (before ws1 ws2 body rest : string) (v : json) :
  script_strings html
  = (pre ++ Some (before ++ state_target ++ ws1 ++ "=" ++ ws2
                  ++ ("{" ++ body ++ "}") ++ rest)%string :: post)%list ->
  Forall assigns_nothing pre ->
  (forall p, p < String.length before ->
             ~ assigned_at (before ++ state_target ++ ws1 ++ "=" ++ ws2
                            ++ ("{" ++ body ++ "}") ++ rest) p) ->
  blank ws1 ->
  blank ws2 ->
  nested body ->
  Str.contains "undefined" ("{" ++ body ++ "}") = false ->
  json_loads ("{" ++ body ++ "}") = Ok v ->
  extract_preloaded_state html = Ok (Some v).
Proof.
  intros Hscripts Hpre Hfirst Hws1 Hws2 Hbody Hundef Hloads.
  unfold extract_preloaded_state. rewrite Hscripts.
  rewrite (extract_skips_unassigned pre _ Hpre).
  rewrite (extract_at_first_assignment before ws1 ws2 body rest post
             Hfirst Hws1 Hws2 Hbody).
  now rewrite (replace_absent _ _ _ Hundef), Hloads.
Qed.

Section PatternSearch.

(** Where the pattern occurs, the search finds an occurrence. *)
Lemma search_assignment_finds (p : nat) :
  forall t k, match_assignment (Str.skip p t) = Some k ->
              exists n, search_assignment t = Some n.
Proof.
  induction p as [|p IH]; intros t k; cbn [Str.skip].
  - intros H. exists k. now apply search_assignment_here.
  - destruct t as [|c t]; [discriminate|]. intros H.
    cbn [search_assignment].
    destruct (match_assignment (String c t)) as [i|]; [now exists i|].
    destruct (IH t k H) as [n ->]. now exists (S n).
Qed.

Lemma search_none_assigns_nothing (t : string) :
  search_assignment t = None -> assigns_nothing (Some t).
Proof.
  intros Hnone p Hp. apply assigned_at_skip in Hp.
  destruct (assigned_match_assignment _ Hp) as [k Hk].
  destruct (search_assignment_finds p t k Hk) as [n Hn]. congruence.
Qed.

End PatternSearch.

Lemma state_extractor_recovers_object_witness :
  extract_preloaded_state (L := py offline) Sample.busy_state_page
  = Ok (Some (JDict [("a", JDict [("b", JList [JInt 1; JDict [("c", JInt 2)]])])])).
Proof.
  apply (state_extractor_recovers_object (py offline) Sample.busy_state_page
           [Some (Ref.dq "var m = '__PRELOADED_STATE__';")] []
           "if (window.__PRELOADED_STATE__) {} " " " " "
           (Ref.dq "'a':"
            ++ ("{" ++ (Ref.dq "'b':[1," ++ ("{" ++ Ref.dq "'c':2" ++ "}") ++ "]")
                ++ "}"))
           "; var t = 1;").
  - vm_compute. reflexivity.
  - constructor; [|constructor].
    apply search_none_assigns_nothing. vm_compute. reflexivity.
  - intros p Hp. apply not_assigned.
    do 35 (destruct p as [|p]; [vm_compute; reflexivity|]).
    exfalso. cbn in Hp. lia.
  - reflexivity.
  - reflexivity.
  - apply nested_append; [apply nested_plain; reflexivity|].
    apply nested_braces.
    apply nested_append; [apply nested_plain; reflexivity|].
    apply nested_append; [|apply nested_plain; reflexivity].
    apply nested_braces. apply nested_plain; reflexivity.
  - vm_compute. reflexivity.
  - vm_compute. reflexivity.
Defined.

(** C5, as the specification has it, fails: a closing brace inside a string
    ends the count early and no state is found, and the word undefined
    inside a string comes back as null; json.loads reads both objects. And
    of two objects assigned in two blocks only the first is returned. *)
Lemma state_extractor_miscounts :
  extract_preloaded_state (L := py offline) Sample.brace_in_string_page = Ok None
  /\ json_loads (PyLib := py offline) (Ref.dq "{'a':'}'}")
     = Ok (JDict [("a", JStr "}")])
  /\ extract_preloaded_state (L := py offline) Sample.undefined_in_string_page
     = Ok (Some (JDict [("a", JStr "null")]))
  /\ json_loads (PyLib := py offline) (Ref.dq "{'a':'undefined'}")
     = Ok (JDict [("a", JStr "undefined")])
  /\ extract_preloaded_state (L := py offline) Sample.two_states_page
     = Ok (Some (JDict [("a", JInt 1)])).
Proof. repeat split; vm_compute; reflexivity. Qed.

(** ** The decoder and blank values *)

Section QueryFields.

Import Ref.

(** [split] at an ampersand that follows a text without one. *)
Lemma split_at_ampersand (s : string) :
  Str.contains "&" s = false ->
  forall cur rest,
    Str.split_from O "&" cur (s ++ String "&" rest)
    = (cur ++ s)%string :: Str.split_from O "&" "" rest.
Proof.
  induction s as [|c s IH]; intros Hs cur rest.
  - cbn [append Str.split_from]. rewrite prefix_char, append_nil_r. reflexivity.
  - unfold Str.contains in Hs. cbn [Str.find] in Hs.
    cbn [append Str.split_from]. rewrite prefix_char in Hs |- *.
    destruct (Ascii.eqb "&" c); [discriminate|].
    rewrite IH.
    + now rewrite append_assoc.
    + unfold Str.contains. now destruct (Str.find "&" s).
Qed.

Lemma split_without_ampersand (s : string) :
  Str.contains "&" s = false ->
  forall cur, Str.split_from O "&" cur s = [(cur ++ s)%string].
Proof.
  induction s as [|c s IH]; intros Hs cur.
  - cbn [Str.split_from]. now rewrite append_nil_r.
  - unfold Str.contains in Hs. cbn [Str.find] in Hs.
    cbn [Str.split_from]. rewrite prefix_char in Hs |- *.
    destruct (Ascii.eqb "&" c); [discriminate|].
    rewrite IH.
    + now rewrite append_assoc.
    + unfold Str.contains. now destruct (Str.find "&" s).
Qed.

(** A field is split at its first equals sign. *)
Lemma find_equals (name value : string) :
  Str.contains "=" name = false ->
  Str.find "=" (name ++ String "=" value) = Some (String.length name).
Proof.
  induction name as [|c name IH]; intros Hname.
  - cbn [append Str.find]. now rewrite prefix_char.
  - unfold Str.contains in Hname. cbn [Str.find] in Hname.
    cbn [append Str.find String.length]. rewrite prefix_char in Hname |- *.
    destruct (Ascii.eqb "=" c); [discriminate|].
    rewrite IH; [reflexivity|].
    unfold Str.contains. now destruct (Str.find "=" name).
Qed.

Lemma split_once_field (name value : string) :
  Str.contains "=" name = false ->
  Str.split_once "=" (name ++ String "=" value) = Some (name, value).
Proof.
  intros Hname. unfold Str.split_once. rewrite (find_equals _ _ Hname).
  rewrite take_app.
  change (String "=" value) with ("=" ++ value)%string.
  rewrite <- append_assoc.
  replace (String.length name + String.length "=")
    with (String.length (name ++ "=")) by apply length_app.
  now rewrite skip_app.
Qed.

(** What [parse_qs] reads in a query that names the audio url and then the
    video url. *)
Lemma parse_qs_audio_video (a v : string) :
  Str.contains "&" a = false ->
  Str.contains "&" v = false ->
  v <> "" ->
  py_parse_qs ("absoluteAudioUrl=" ++ a ++ "&absoluteVideoUrl=" ++ v)
  = if a =? ""
    then [("absoluteVideoUrl", (py_unquote (Str.replace "+" " " v), []))]
    else [("absoluteAudioUrl", (py_unquote (Str.replace "+" " " a), []));
          ("absoluteVideoUrl", (py_unquote (Str.replace "+" " " v), []))].
Proof.
  intros Ha Hv Hne. apply String.eqb_neq in Hne.
  unfold py_parse_qs, Str.split.
  assert (Hfield : Str.contains "&" ("absoluteAudioUrl=" ++ a) = false).
  { unfold Str.contains. cbn. now rewrite (find_absent _ _ Ha). }
  assert (Hfield2 : Str.contains "&" ("absoluteVideoUrl=" ++ v) = false).
  { unfold Str.contains. cbn. now rewrite (find_absent _ _ Hv). }
  change ("absoluteAudioUrl=" ++ a ++ "&absoluteVideoUrl=" ++ v)%string
    with (("absoluteAudioUrl=" ++ a) ++ String "&" ("absoluteVideoUrl=" ++ v))%string
    at 1.
  rewrite (split_at_ampersand _ Hfield), (split_without_ampersand _ Hfield2).
  cbn [fold_left].
  change ("" ++ ("absoluteAudioUrl=" ++ a))%string
    with ("absoluteAudioUrl" ++ String "=" a)%string.
  change ("" ++ ("absoluteVideoUrl=" ++ v))%string
    with ("absoluteVideoUrl" ++ String "=" v)%string.
  rewrite (split_once_field "absoluteAudioUrl" a eq_refl).
  rewrite (split_once_field "absoluteVideoUrl" v eq_refl).
  rewrite Hne.
  destruct (a =? "")%string; reflexivity.
Qed.

End QueryFields.

(** C6, as the code has it. The decoder asks whether a key is among the
    keys parse_qs returns, and parse_qs leaves out a key whose value is
    blank. A reference with the scheme prefix whose parsed query holds
    absoluteAudioUrl decodes to audio with the audio value as its url,
    whatever else the query holds; one whose parsed query holds
    absoluteVideoUrl and not absoluteAudioUrl decodes to video. So with both
    keys written in the query, audio is selected exactly when its value is
    not blank. On the reference of the specification the decoder returns
    audio, https://cdn/a.mp3 and the title Calm. *)
Theorem decoder_prefers_audio :
  (forall (L : PyLib) (cure_url audio : string),
      Str.startswith cure_url "curefit://" = true ->
      param0 "absoluteAudioUrl" (parse_qs (query_of cure_url)) = Some audio ->
      info_media_type (parse_curefit_url (JStr cure_url)) = Some "audio"
      /\ info_media_url (parse_curefit_url (JStr cure_url)) = Some (unquote audio))
  /\ (forall (L : PyLib) (cure_url video : string),
         Str.startswith cure_url "curefit://" = true ->
         param0 "absoluteAudioUrl" (parse_qs (query_of cure_url)) = None ->
         param0 "absoluteVideoUrl" (parse_qs (query_of cure_url)) = Some video ->
         info_media_type (parse_curefit_url (JStr cure_url)) = Some "video"
         /\ info_media_url (parse_curefit_url (JStr cure_url)) = Some (unquote video))
  /\ (forall web (a v : string),
         Str.contains "&" a = false ->
         Str.contains "&" v = false ->
         v <> "" ->
         parse_curefit_url (L := py web)
           (JStr ("curefit://x?absoluteAudioUrl=" ++ a ++ "&absoluteVideoUrl=" ++ v))
         = if a =? ""
           then mk_info
                  (Some (Ref.py_unquote (Ref.py_unquote (Str.replace "+" " " v))))
                  (Some "video") None None None
           else mk_info
                  (Some (Ref.py_unquote (Ref.py_unquote (Str.replace "+" " " a))))
                  (Some "audio") None None None)
  /\ (forall web,
         parse_curefit_url (L := py web) (JStr Sample.both_keys_url)
         = mk_info (Some "https://cdn/a.mp3") (Some "audio") (Some "Calm") None None).
Proof.
  split; [|split; [|split]].
  - intros L cure_url audio Hpre Ha.
    rewrite (parse_curefit_url_prefixed cure_url Hpre). cbv zeta.
    rewrite Ha. split; reflexivity.
  - intros L cure_url video Hpre Ha Hv.
    rewrite (parse_curefit_url_prefixed cure_url Hpre). cbv zeta.
    rewrite Ha, Hv. split; reflexivity.
  - intros web a v Ha Hv Hne.
    rewrite (parse_curefit_url_prefixed (L := py web)
               ("curefit://x?absoluteAudioUrl=" ++ a ++ "&absoluteVideoUrl=" ++ v)
               eq_refl).
    cbv zeta.
    change (parse_qs (PyLib := py web)
              (query_of ("curefit://x?absoluteAudioUrl=" ++ a
                         ++ "&absoluteVideoUrl=" ++ v)))
      with (Ref.py_parse_qs ("absoluteAudioUrl=" ++ a ++ "&absoluteVideoUrl=" ++ v)).
    rewrite (parse_qs_audio_video a v Ha Hv Hne).
    destruct (a =? "")%string; reflexivity.
  - intros web. reflexivity.
Qed.

Lemma decoder_prefers_audio_witness :
  info_media_type
    (parse_curefit_url (L := py offline)
       (JStr "curefit://x?absoluteVideoUrl=b.mp4&absoluteAudioUrl=a.mp3"))
  = Some "audio"
  /\ info_media_url
       (parse_curefit_url (L := py offline)
          (JStr "curefit://x?absoluteVideoUrl=b.mp4&absoluteAudioUrl=a.mp3"))
     = Some (unquote (PyLib := py offline) "a.mp3").
Proof.
  apply (proj1 decoder_prefers_audio (py offline)
           "curefit://x?absoluteVideoUrl=b.mp4&absoluteAudioUrl=a.mp3" "a.mp3");
    reflexivity.
Defined.

(** C6, as the specification has it, fails: the query names both keys, the
    audio one with a blank value, and the decoder returns video. *)
Lemma decoder_blank_audio_selects_video :
  Str.contains "absoluteAudioUrl=" (query_of Sample.blank_audio_url) = true
  /\ Str.contains "absoluteVideoUrl=" (query_of Sample.blank_audio_url) = true
  /\ parse_curefit_url (L := py offline) (JStr Sample.blank_audio_url)
     = mk_info (Some "https://cdn/b.mp4") (Some "video") (Some "Calm") None None.
Proof. repeat split; vm_compute; reflexivity. Qed.

(** ** The walker and the depth of a tree *)




Section ExtendEachResults.

Context {A : Type}.



End ExtendEachResults.

Section WalkerDepth.

Context {L : PyLib}.






End WalkerDepth.





(** ** The item behind a detail link *)

Section DetailResolved.

Context {L : PyLib}.


End DetailResolved.



(** ** The flat list, item by item *)

Section FlatListItems.

Context {L : PyLib}.

Lemma resolve_packs_app (p q : list pack_ref) :
  forall w l1 w1 l2 w2,
    resolve_packs p w = (Ok l1, w1) ->
    resolve_packs q w1 = (Ok l2, w2) ->
    resolve_packs (p ++ q) w = (Ok (l1 ++ l2)%list, w2).
Proof.
  induction p as [|[[[item name] pt] pd] p IH]; intros w l1 w1 l2 w2.
  - cbn [resolve_packs app]. unfold ret. now intros [= <- <-].
  - cbn [resolve_packs app]. unfold bind, ret.
    destruct (extract_media_from_item item name pt pd w) as [[l|e] w0];
      [|discriminate].
    destruct (resolve_packs p w0) as [[ls|e] w0'] eqn:Hp; [|discriminate].
    intros [= <- <-] Hq. now rewrite (IH _ _ _ _ _ Hp Hq).
Qed.

(** What the loop over the items of a widget adds to the flat list. *)
Lemma crawl_items_listed (items : list json) (name : string) :
  forall c c',
    crawl_items items name c = Ok c' ->
    exists packs per_item,
      listed_items items name = Ok packs
      /\ resolve_packs packs (warned_login_required c)
         = (Ok per_item, warned_login_required c')
      /\ media_items c' = (media_items c ++ concat per_item)%list
      /\ sections c' = sections c.
Proof.
  induction items as [|item rest IH]; intros c c'; cbn [crawl_items listed_items].
  - intros [= <-]. exists [], []. cbn. now rewrite app_nil_r.
  - destruct (py_get item "title" (JStr "Unknown Pack")) as [pt|e]; [|discriminate].
    destruct (py_get item "description" (JStr "")) as [pd|e]; [|discriminate].
    cbn [rbind]. destruct item as [| | | | | |item]; try discriminate.
    destruct (extract_media_from_item item name pt pd (warned_login_required c))
      as [[med|e] w] eqn:Hmed; [|discriminate].
    cbn [rbind]. intros H.
    destruct (IH _ _ H) as (packs & per_item & Hlisted & Hres & Hitems & Hsecs).
    exists ((item, name, pt, pd) :: packs), (med :: per_item).
    rewrite Hlisted. cbn [rbind resolve_packs]. unfold bind, ret. rewrite Hmed.
    destruct med as [|e0 med]; cbn [warned_login_required media_items sections]
      in Hres, Hitems, Hsecs; rewrite Hres, Hitems, Hsecs;
      repeat split; cbn [concat app]; rewrite <- ?app_assoc; reflexivity.
Qed.

Lemma crawl_widgets_listed (widgets : list json) (name : string) :
  forall c c',
    crawl_widgets widgets name c = Ok c' ->
    exists packs per_item,
      listed_widgets widgets name = Ok packs
      /\ resolve_packs packs (warned_login_required c)
         = (Ok per_item, warned_login_required c')
      /\ media_items c' = (media_items c ++ concat per_item)%list
      /\ sections c' = sections c.
Proof.
  induction widgets as [|w rest IH]; intros c c';
    cbn [crawl_widgets listed_widgets].
  - intros [= <-]. exists [], []. cbn. now rewrite app_nil_r.
  - destruct (py_get w "items" (JList [])) as [items|e]; [|discriminate].
    cbn [rbind]. destruct (py_iter items) as [its|e]; [|discriminate].
    cbn [rbind].
    destruct (crawl_items its name c) as [c1|e] eqn:Hits; [|discriminate].
    cbn [rbind]. intros H.
    destruct (crawl_items_listed _ _ _ _ Hits) as (p1 & l1 & Hp1 & Hr1 & Hm1 & Hs1).
    destruct (IH _ _ H) as (p2 & l2 & Hp2 & Hr2 & Hm2 & Hs2).
    exists (p1 ++ p2)%list, (l1 ++ l2)%list.
    rewrite Hp1, Hp2. cbn [rbind].
    rewrite (resolve_packs_app _ _ _ _ _ _ _ Hr1 Hr2).
    rewrite Hm2, Hm1, Hs2, Hs1, concat_app, app_assoc. repeat split.
Qed.

Lemma crawl_section_listed (sec : string * string) (c c' : crawler) :
  crawl_section sec c = Ok c' ->
  exists packs per_item,
    listed_section sec = Ok packs
    /\ resolve_packs packs (warned_login_required c)
       = (Ok per_item, warned_login_required c')
    /\ media_items c' = (media_items c ++ concat per_item)%list
    /\ sections c' = sections c.
Proof.
  assert (Hnone : exists packs per_item,
             Ok [] = Ok packs
             /\ resolve_packs packs (warned_login_required c)
                = (Ok per_item, warned_login_required c)
             /\ media_items c = (media_items c ++ concat per_item)%list
             /\ sections c = sections c).
  { exists [], []. cbn. now rewrite app_nil_r. }
  destruct sec as [name url]. unfold crawl_section, listed_section.
  destruct (http_get url) as [text|]; [|now intros [= <-]].
  destruct (extract_preloaded_state text) as [[state|]|e];
    [| now intros [= <-] | discriminate]; cbn [rbind].
  destruct (negb (truthy state)); [now intros [= <-]|].
  destruct (py_contains "cultDIYPackBrowse" state) as [present|e];
    [|discriminate]; cbn [rbind].
  destruct (negb present); [now intros [= <-]|].
  destruct (py_getitem state "cultDIYPackBrowse") as [browse|e];
    [|discriminate]; cbn [rbind].
  destruct (py_get browse "widgets" (JList [])) as [widgets|e];
    [|discriminate]; cbn [rbind].
  destruct (py_iter widgets) as [ws|e]; [|discriminate]; cbn [rbind].
  destruct (crawl_widgets ws name c) as [c1|e] eqn:Hwidgets;
    [|discriminate]; cbn [rbind].
  intros [= <-]. cbn [warned_login_required media_items sections].
  exact (crawl_widgets_listed _ _ _ _ Hwidgets).
Qed.

Lemma crawl_sections_listed (secs : list (string * string)) :
  forall c c',
    crawl_sections secs c = Ok c' ->
    exists packs per_item,
      listed_packs secs = Ok packs
      /\ resolve_packs packs (warned_login_required c)
         = (Ok per_item, warned_login_required c')
      /\ media_items c' = (media_items c ++ concat per_item)%list
      /\ sections c' = sections c.
Proof.
  induction secs as [|sec rest IH]; intros c c';
    cbn [crawl_sections listed_packs].
  - intros [= <-]. exists [], []. cbn. now rewrite app_nil_r.
  - destruct (crawl_section sec c) as [c1|e] eqn:Hsec; [|discriminate].
    cbn [rbind]. intros H.
    destruct (crawl_section_listed _ _ _ Hsec) as (p1 & l1 & Hp1 & Hr1 & Hm1 & Hs1).
    destruct (IH _ _ H) as (p2 & l2 & Hp2 & Hr2 & Hm2 & Hs2).
    exists (p1 ++ p2)%list, (l1 ++ l2)%list.
    rewrite Hp1, Hp2. cbn [rbind].
    rewrite (resolve_packs_app _ _ _ _ _ _ _ Hr1 Hr2).
    rewrite Hm2, Hm1, Hs2, Hs1, concat_app, app_assoc. repeat split.
Qed.

(** What a crawl adds does not depend on what the stores held before. *)
Lemma crawl_items_frame (items : list json) (name : string) :
  forall c1 c1' c2,
    warned_login_required c1 = warned_login_required c2 ->
    crawl_items items name c1 = Ok c1' ->
    exists c2' added,
      crawl_items items name c2 = Ok c2'
      /\ media_items c1' = (media_items c1 ++ added)%list
      /\ media_items c2' = (media_items c2 ++ added)%list
      /\ warned_login_required c1' = warned_login_required c2'.
Proof.
  induction items as [|item rest IH]; intros c1 c1' c2 Hw; cbn [crawl_items].
  - intros [= <-]. exists c2, []. now rewrite !app_nil_r.
  - destruct (py_get item "title" (JStr "Unknown Pack")) as [pt|e]; [|discriminate].
    destruct (py_get item "description" (JStr "")) as [pd|e]; [|discriminate].
    cbn [rbind]. destruct item as [| | | | | |item]; try discriminate.
    rewrite <- Hw.
    destruct (extract_media_from_item item name pt pd (warned_login_required c1))
      as [[med|e] w] eqn:Hmed; [|discriminate].
    cbn [rbind]. intros H.
    destruct med as [|e0 med].
    + destruct (IH (mk_crawler (sections c1) (media_items c1)
                      (media_by_section c1) w) c1'
                   (mk_crawler (sections c2) (media_items c2)
                      (media_by_section c2) w) eq_refl H)
        as (c2' & added & H2 & Hm1 & Hm2 & Hw').
      exists c2', added. now repeat split.
    + destruct (IH (mk_crawler (sections c1) (media_items c1 ++ e0 :: med)
                      (by_section_extend name (e0 :: med) (media_by_section c1)) w)
                   c1'
                   (mk_crawler (sections c2) (media_items c2 ++ e0 :: med)
                      (by_section_extend name (e0 :: med) (media_by_section c2)) w)
                   eq_refl H)
        as (c2' & added & H2 & Hm1 & Hm2 & Hw').
      exists c2', ((e0 :: med) ++ added)%list.
      cbn [media_items] in Hm1, Hm2. rewrite Hm1, Hm2, !app_assoc.
      now repeat split.
Qed.

Lemma crawl_widgets_frame (widgets : list json) (name : string) :
  forall c1 c1' c2,
    warned_login_required c1 = warned_login_required c2 ->
    crawl_widgets widgets name c1 = Ok c1' ->
    exists c2' added,
      crawl_widgets widgets name c2 = Ok c2'
      /\ media_items c1' = (media_items c1 ++ added)%list
      /\ media_items c2' = (media_items c2 ++ added)%list
      /\ warned_login_required c1' = warned_login_required c2'.
Proof.
  induction widgets as [|w rest IH]; intros c1 c1' c2 Hw; cbn [crawl_widgets].
  - intros [= <-]. exists c2, []. now rewrite !app_nil_r.
  - destruct (py_get w "items" (JList [])) as [items|e]; [|discriminate].
    cbn [rbind]. destruct (py_iter items) as [its|e]; [|discriminate].
    cbn [rbind].
    destruct (crawl_items its name c1) as [c1m|e] eqn:Hits; [|discriminate].
    cbn [rbind]. intros H.
    destruct (crawl_items_frame _ _ _ _ c2 Hw Hits)
      as (c2m & a1 & H2 & Hm1 & Hm2 & Hwm).
    destruct (IH _ _ c2m Hwm H) as (c2' & a2 & H2' & Hm1' & Hm2' & Hw').
    exists c2', (a1 ++ a2)%list. rewrite H2. cbn [rbind].
    rewrite Hm1', Hm2', Hm1, Hm2, !app_assoc. now repeat split.
Qed.

Lemma crawl_section_frame (sec : string * string) (c1 c1' c2 : crawler) :
  warned_login_required c1 = warned_login_required c2 ->
  crawl_section sec c1 = Ok c1' ->
  exists c2' added,
    crawl_section sec c2 = Ok c2'
    /\ media_items c1' = (media_items c1 ++ added)%list
    /\ media_items c2' = (media_items c2 ++ added)%list
    /\ warned_login_required c1' = warned_login_required c2'.
Proof.
  intros Hw.
  assert (Hnone : exists c2' added,
             Ok c2 = Ok c2'
             /\ media_items c1 = (media_items c1 ++ added)%list
             /\ media_items c2' = (media_items c2 ++ added)%list
             /\ warned_login_required c1 = warned_login_required c2').
  { exists c2, []. now rewrite !app_nil_r. }
  destruct sec as [name url]. unfold crawl_section.
  destruct (http_get url) as [text|]; [|now intros [= <-]].
  destruct (extract_preloaded_state text) as [[state|]|e];
    [| now intros [= <-] | discriminate]; cbn [rbind].
  destruct (negb (truthy state)); [now intros [= <-]|].
  destruct (py_contains "cultDIYPackBrowse" state) as [present|e];
    [|discriminate]; cbn [rbind].
  destruct (negb present); [now intros [= <-]|].
  destruct (py_getitem state "cultDIYPackBrowse") as [browse|e];
    [|discriminate]; cbn [rbind].
  destruct (py_get browse "widgets" (JList [])) as [widgets|e];
    [|discriminate]; cbn [rbind].
  destruct (py_iter widgets) as [ws|e]; [|discriminate]; cbn [rbind].
  destruct (crawl_widgets ws name c1) as [c1m|e] eqn:Hwidgets;
    [|discriminate]; cbn [rbind].
  intros [= <-].
  destruct (crawl_widgets_frame _ _ _ _ c2 Hw Hwidgets)
    as (c2m & added & H2 & Hm1 & Hm2 & Hwm).
  rewrite H2. cbn [rbind]. eexists. exists added.
  split; [reflexivity|]. cbn [media_items warned_login_required].
  now repeat split.
Qed.

Lemma crawl_sections_frame (secs : list (string * string)) :
  forall c1 c1' c2,
    warned_login_required c1 = warned_login_required c2 ->
    crawl_sections secs c1 = Ok c1' ->
    exists c2' added,
      crawl_sections secs c2 = Ok c2'
      /\ media_items c1' = (media_items c1 ++ added)%list
      /\ media_items c2' = (media_items c2 ++ added)%list
      /\ warned_login_required c1' = warned_login_required c2'.
Proof.
  induction secs as [|sec rest IH]; intros c1 c1' c2 Hw; cbn [crawl_sections].
  - intros [= <-]. exists c2, []. now rewrite !app_nil_r.
  - destruct (crawl_section sec c1) as [c1m|e] eqn:Hsec; [|discriminate].
    cbn [rbind]. intros H.
    destruct (crawl_section_frame _ _ _ c2 Hw Hsec)
      as (c2m & a1 & H2 & Hm1 & Hm2 & Hwm).
    destruct (IH _ _ c2m Hwm H) as (c2' & a2 & H2' & Hm1' & Hm2' & Hw').
    exists c2', (a1 ++ a2)%list. rewrite H2. cbn [rbind].
    rewrite Hm1', Hm2', Hm1, Hm2, !app_assoc. now repeat split.
Qed.

(** Discovery reads the main page only. *)
Lemma discover_sections_frame (c1 c1' c2 : crawler) :
  sections c1 = sections c2 ->
  discover_sections c1 = Ok c1' ->
  exists c2',
    discover_sections c2 = Ok c2'
    /\ sections c2' = sections c1'
    /\ media_items c1' = media_items c1 /\ media_items c2' = media_items c2
    /\ warned_login_required c1' = warned_login_required c1
    /\ warned_login_required c2' = warned_login_required c2.
Proof.
  intros Hsecs. unfold discover_sections.
  destruct (http_get MAIN_MINDLIVE_URL) as [text|].
  - destruct (section_links (select_hrefs text) []) as [found|e]; [|discriminate].
    cbn [rbind]. intros [= <-]. eexists. split; [reflexivity|]. now repeat split.
  - intros [= <-]. exists c2. now repeat split.
Qed.

Lemma crawl_frame (c1 c1' c2 : crawler) :
  sections c1 = sections c2 ->
  warned_login_required c1 = warned_login_required c2 ->
  crawl c1 = Ok c1' ->
  exists c2' added,
    crawl c2 = Ok c2'
    /\ media_items c1' = (media_items c1 ++ added)%list
    /\ media_items c2' = (media_items c2 ++ added)%list.
Proof.
  intros Hsecs Hw. unfold crawl.
  destruct (match sections c1 with [] => discover_sections c1 | _ => Ok c1 end)
    as [d1|e] eqn:Hfirst; [|discriminate]. cbn [rbind]. intros H.
  assert (Hd : exists d2,
             match sections c2 with [] => discover_sections c2 | _ => Ok c2 end
             = Ok d2
             /\ sections d2 = sections d1
             /\ media_items d1 = media_items c1 /\ media_items d2 = media_items c2
             /\ warned_login_required d1 = warned_login_required d2).
  { rewrite <- Hsecs. destruct (sections c1) eqn:Hs1.
    - destruct (discover_sections_frame c1 d1 c2) as (d2 & H2 & Hs & Hm1 & Hm2 & Hw1 & Hw2);
        [congruence | exact Hfirst |].
      exists d2. repeat split; congruence.
    - injection Hfirst as <-. exists c2. repeat split; congruence. }
  destruct Hd as (d2 & Hd2 & Hs & Hm1 & Hm2 & Hwd).
  rewrite Hd2. cbn [rbind]. rewrite Hs.
  destruct (crawl_sections_frame _ _ _ d2 Hwd H) as (c2' & added & H2 & Ha1 & Ha2 & _).
  exists c2', added. rewrite <- Hm1, <- Hm2. now repeat split.
Qed.

Lemma resolve_packs_nodup (packs : list pack_ref) :
  forall w per_item w',
    resolve_packs packs w = (Ok per_item, w') ->
    Forall (fun l => NoDup (List.map cdn_url l)) per_item.
Proof.
  induction packs as [|[[[item name] pt] pd] packs IH]; intros w per_item w'.
  - cbn [resolve_packs]. unfold ret. intros [= <- _]. constructor.
  - cbn [resolve_packs]. unfold bind, ret.
    destruct (extract_media_from_item item name pt pd w) as [[l|e] w0] eqn:Hitem;
      [|discriminate].
    destruct (resolve_packs packs w0) as [[ls|e] w1] eqn:Hrest; [|discriminate].
    intros [= <- _]. constructor.
    + exact (item_media_nodup _ _ _ _ _ _ _ Hitem).
    + exact (IH _ _ _ Hrest).
Qed.

Lemma crawl_listed (c c' : crawler) :
  crawl c = Ok c' ->
  exists packs per_item,
    listed_packs (sections c') = Ok packs
    /\ resolve_packs packs (warned_login_required c)
       = (Ok per_item, warned_login_required c')
    /\ media_items c' = (media_items c ++ concat per_item)%list.
Proof.
  unfold crawl.
  destruct (match sections c with [] => discover_sections c | _ => Ok c end)
    as [d|e] eqn:Hfirst; [|discriminate]. cbn [rbind]. intros H.
  destruct (crawl_sections_listed _ _ _ H) as (packs & per_item & Hp & Hr & Hm & Hs).
  assert (Hd : media_items d = media_items c
               /\ warned_login_required d = warned_login_required c).
  { destruct (sections c); [|injection Hfirst as <-; now split].
    split; [exact (discover_sections_media _ _ Hfirst)
           | exact (discover_sections_kept _ _ Hfirst)]. }
  destruct Hd as [Hdm Hdw].
  exists packs, per_item. rewrite Hs, <- Hdm, <- Hdw. now repeat split.
Qed.

End FlatListItems.

(** C9, as the code has it. What a crawl adds to the flat list is settled
    by the crawler's sections, its login warning flag and the answers of
    the site: two crawlers that agree on the first two get the same
    references added, in the same order, whatever their stores held. The
    flat list after a crawl is the list before it followed by the lists
    that the resolution of one item returns for the pack items listed on
    the pages of the sections, in page order. Each of these lists holds no
    source url twice; the flat list as a whole may. *)
Theorem flat_list_is_deduplicated_per_item (L : PyLib) :
  (forall c1 c2 c1',
      sections c1 = sections c2 ->
      warned_login_required c1 = warned_login_required c2 ->
      crawl c1 = Ok c1' ->
      exists c2' added,
        crawl c2 = Ok c2'
        /\ media_items c1' = (media_items c1 ++ added)%list
        /\ media_items c2' = (media_items c2 ++ added)%list)
  /\ (forall item section pack_title pack_desc w w' l,
         extract_media_from_item item section pack_title pack_desc w = (Ok l, w') ->
         NoDup (List.map cdn_url l))
  /\ (forall c c',
         crawl c = Ok c' ->
         exists packs per_item,
           listed_packs (sections c') = Ok packs
           /\ resolve_packs packs (warned_login_required c)
              = (Ok per_item, warned_login_required c')
           /\ media_items c' = (media_items c ++ concat per_item)%list
           /\ Forall (fun l => NoDup (List.map cdn_url l)) per_item).
Proof.
  split; [|split].
  - intros c1 c2 c1' Hsecs Hw H. exact (crawl_frame c1 c1' c2 Hsecs Hw H).
  - intros item sec pt pd w w' l H. now apply (item_media_nodup item sec pt pd w w').
  - intros c c' H.
    destruct (crawl_listed c c' H) as (packs & per_item & Hp & Hr & Hm).
    exists packs, per_item. repeat split; try assumption.
    exact (resolve_packs_nodup _ _ _ _ Hr).
Qed.

Lemma flat_list_is_deduplicated_per_item_witness :
  NoDup
    (List.map cdn_url
       [mk_entry "Sleep" (JStr "P") (JStr "") (JStr "Session") "audio"
          "https://cdn/b.mp3" "media/Sleep/P/Session.mp3";
        mk_entry "Sleep" (JStr "P") (JStr "") (JStr "Main") "audio"
          "https://cdn/a.mp3" "media/Sleep/P/Main.mp3"])
  /\ exists c' packs per_item,
       crawl (L := py Sample.two_pack_site) new_crawler = Ok c'
       /\ listed_packs (L := py Sample.two_pack_site) (sections c') = Ok packs
       /\ List.length packs = 2
       /\ resolve_packs (L := py Sample.two_pack_site) packs false
          = (Ok per_item, warned_login_required c')
       /\ media_items c' = concat per_item.
Proof.
  split.
  - apply (proj1 (proj2 (flat_list_is_deduplicated_per_item (py offline)))
             Sample.play_and_content "Sleep" (JStr "P") (JStr "") false false).
    reflexivity.
  - destruct (proj2 (proj2 (flat_list_is_deduplicated_per_item
                              (py Sample.two_pack_site)))
                new_crawler _ eq_refl)
      as (packs & per_item & Hp & Hr & Hm & _).
    eexists. exists packs, per_item.
    split; [reflexivity|]. split; [exact Hp|].
    split; [|split; [exact Hr | exact Hm]].
    vm_compute in Hp. injection Hp as <-. reflexivity.
Defined.

(** C9, as the specification has it, fails: two packs of one section hold
    the same recording, and the flat list holds its url twice. *)
Lemma flat_list_repeats_url :
  exists c,
    crawl (L := py Sample.two_pack_site) new_crawler = Ok c
    /\ List.map cdn_url (media_items c) = ["https://cdn/x.mp3"; "https://cdn/x.mp3"].
Proof.
  eexists. split; [vm_compute; reflexivity | reflexivity].
Qed.
